(** * Real-time state synchronisation client: trading store, device store,
      WebSocket stores and the device card.

    The development embeds the TypeScript sources
    - [frontend/src/lib/stores/trading.ts] (module [trading_ts]),
    - the later copy of the trading store found next to the device store
      (module [trading_next]),
    - the device store, the device WebSocket store and the device card
      (modules [devices_store], [websocket_ts], [device_card]).

    Values travelling on the wire are JSON documents which the code never
    validates, so every payload is kept as an untyped [value].  A store of
    object type is a finite map from property names to values, which makes
    the object spread of the sources the left-biased union of maps.
    Of prototype chains the model keeps what the code reaches: the
    members that the handler tables, plain object literals indexed by the
    topic of a message, inherit from [Object.prototype].  Every other
    object is read by the names the code spells out, none of which is
    inherited, and so has only its own properties. *)

From Stdlib Require Import ZArith List String Ascii Bool Lia.
From stdpp Require Import gmap strings list fin_maps pretty.

Set Warnings "-register-all".

Local Open Scope Z_scope.
Local Open Scope string_scope.

(** ** JavaScript values *)

Module JS.

(** The values [JSON.parse] can produce, together with [undefined], which
    arises from reading an absent property.  Numbers are integer literals:
    the modelled code only tests numbers for being zero, compares them
    with zero, or subtracts millisecond clocks. *)
Inductive value : Type :=
| VUndefined
| VNull
| VBool (b : bool)
| VNum (n : Z)
| VStr (s : string)
| VArr (items : list value)
| VObj (props : list (string * value)).

(** [!!v] of the source language. *)
Definition truthy (v : value) : bool :=
  match v with
  | VUndefined | VNull => false
  | VBool b => b
  | VNum n => negb (n =? 0)%Z
  | VStr s => negb (String.eqb s "")
  | VArr _ | VObj _ => true
  end.

Definition nullish (v : value) : bool :=
  match v with
  | VUndefined | VNull => true
  | _ => false
  end.

(** [a || b] and [a ?? b]. *)
Definition or_else (a b : value) : value := if truthy a then a else b.
Definition coalesce (a b : value) : value := if nullish a then b else a.

(** [a === b].  Two objects or arrays met by the modelled code always
    come from different allocations (one from the store, one from the
    frame being handled), hence compare unequal. *)
Definition strict_equals (a b : value) : bool :=
  match a, b with
  | VUndefined, VUndefined => true
  | VNull, VNull => true
  | VBool x, VBool y => Bool.eqb x y
  | VNum x, VNum y => (x =? y)%Z
  | VStr x, VStr y => String.eqb x y
  | _, _ => false
  end.

Definition is_str (v : value) (s : string) : bool := strict_equals v (VStr s).

(** First binding of a key in a property list. *)
Fixpoint assoc (k : string) (props : list (string * value)) : option value :=
  match props with
  | [] => None
  | (k', v) :: rest => if String.eqb k k' then Some v else assoc k rest
  end.

(** [{...obj, k: v}] on the property list of [obj]: an existing property
    keeps its place, a new one goes last. *)
Fixpoint obj_set (k : string) (v : value) (props : list (string * value))
  : list (string * value) :=
  match props with
  | [] => [(k, v)]
  | (k', v') :: rest =>
      if String.eqb k k' then (k', v) :: rest else (k', v') :: obj_set k v rest
  end.

(** [{...a, ...b}] on property lists. *)
Definition obj_assign (a b : list (string * value)) : list (string * value) :=
  fold_left (fun acc kv => obj_set (fst kv) (snd kv) acc) b a.

Definition index_key (i : nat) : string := pretty (Z.of_nat i).

Fixpoint indexed_from {A} (i : nat) (l : list A) : list (string * A) :=
  match l with
  | [] => []
  | x :: rest => (index_key i, x) :: indexed_from (S i) rest
  end.

Fixpoint chars (s : string) : list value :=
  match s with
  | EmptyString => []
  | String c rest => VStr (String c EmptyString) :: chars rest
  end.

(** Own enumerable string-keyed properties: what [{...v}] copies and what
    [Object.entries(v)] lists for a non-nullish [v]. *)
Definition own_props (v : value) : list (string * value) :=
  match v with
  | VObj props => props
  | VArr items => indexed_from 0 items
  | VStr s => indexed_from 0 (chars s)
  | _ => []
  end.

(** [v.k] and [v[k]]; [None] is the [TypeError] raised on [null] and
    [undefined]. *)
Definition get (v : value) (k : string) : option value :=
  match v with
  | VUndefined | VNull => None
  | VObj props => Some (default VUndefined (assoc k props))
  | VArr items =>
      Some (if String.eqb k "length" then VNum (Z.of_nat (length items))
            else default VUndefined (assoc k (indexed_from 0 items)))
  | VStr s =>
      Some (if String.eqb k "length" then VNum (Z.of_nat (String.length s))
            else default VUndefined (assoc k (indexed_from 0 (chars s))))
  | VBool _ | VNum _ => Some VUndefined
  end.

(** [v?.k]: never raises. *)
Definition get_opt (v : value) (k : string) : value :=
  default VUndefined (get v k).

(** [String(v)], which is also the property key [v] denotes in [obj[v]]. *)
Fixpoint to_string (v : value) : string :=
  match v with
  | VUndefined => "undefined"
  | VNull => "null"
  | VBool true => "true"
  | VBool false => "false"
  | VNum n => pretty n
  | VStr s => s
  | VObj _ => "[object Object]"
  | VArr items =>
      let piece x := if nullish x then "" else to_string x in
      (fix join (l : list value) : string :=
         match l with
         | [] => ""
         | [x] => piece x
         | x :: rest => piece x ++ "," ++ join rest
         end) items
  end.

(** Whether an evaluation produced a result. *)
Definition is_some {A : Type} (o : option A) : bool :=
  match o with Some _ => true | None => false end.

End JS.
Export JS.

(** ** What the two copies of the trading store share *)

Module trading_common.

(** [TradingState] is an object with a fixed set of properties. *)
Abbreviation TradingState := (gmap string value).

(** [state.k] *)
Definition field (state : TradingState) (k : string) : value :=
  default VUndefined (state !! k).

(** A reducer of [TOPIC_HANDLERS]: from the state and the payload to a
    partial state; [None] when evaluating it raises. *)
Definition handler : Type := TradingState → value → option TradingState.

(** [(state, payload) => ({ f: payload })] *)
Definition slice (f : string) : handler :=
  λ _ payload, Some {[ f := payload ]}.

(** [(state, payload) => ({ f: payload.key || [] })] *)
Definition collection (f key : string) : handler :=
  λ _ payload,
    data ← get payload key;
    Some {[ f := or_else data (VArr []) ]}.

(** The object assigned to [transformed.currencies[currency]]. *)
Definition currency_balance (balance : value) : option value :=
  cash ← get balance "cash";
  settled_cash ← get balance "settled_cash";
  settled ← get balance "settled";
  accrued_interest ← get balance "accrued_interest";
  Some (VObj [("cash", or_else cash (VNum 0));
              ("settled_cash", or_else (or_else settled_cash settled) (VNum 0));
              ("accrued_interest", or_else accrued_interest (VNum 0))]).

(** The [for ... of Object.entries(data.currencies)] loop.  The
    assignment [transformed.currencies[currency] = {...}] makes an own
    property, except under the name [__proto__], where it replaces the
    prototype and leaves the own properties as they are. *)
Fixpoint transform_currencies (entries acc : list (string * value))
  : option (list (string * value)) :=
  match entries with
  | [] => Some acc
  | (currency, balance) :: rest =>
      b ← currency_balance balance;
      transform_currencies rest
        (if String.eqb currency "__proto__" then acc else obj_set currency b acc)
  end.

Definition account_currencies : handler :=
  λ _ payload,
    base_currency ← get payload "base_currency";
    primary_currency ← get payload "primary_currency";
    currencies ← get payload "currencies";
    transformed ←
      (if truthy currencies
       then transform_currencies (own_props currencies) []
       else Some []);
    Some {[ "currencies" :=
              VObj [("currencies", VObj transformed);
                    ("base_currency",
                     or_else (or_else base_currency primary_currency) (VStr "USD"))] ]}.

Definition capital_allocation : handler :=
  λ _ payload,
    stock ← get payload "stock";
    forex ← get payload "forex";
    reserve ← get payload "reserve";
    session ← get payload "session";
    Some {[ "capital" :=
      VObj [("stock_budget", or_else (get_opt stock "budget") (VNum 0));
            ("stock_used", or_else (get_opt stock "used") (VNum 0));
            ("stock_available", or_else (get_opt stock "available") (VNum 0));
            ("forex_budget", or_else (get_opt forex "budget") (VNum 0));
            ("forex_used", or_else (get_opt forex "used") (VNum 0));
            ("forex_available", or_else (get_opt forex "available") (VNum 0));
            ("reserve", or_else reserve (VNum 0));
            ("session", or_else session (VStr "UNKNOWN"));
            ("stock_enabled", coalesce (get_opt stock "enabled") (VBool true));
            ("forex_enabled", coalesce (get_opt forex "enabled") (VBool true))] ]}.

Definition control_status : handler :=
  λ _ payload,
    stock ← get payload "stock";
    forex ← get payload "forex";
    stock_enabled ← get payload "stock_enabled";
    forex_enabled ← get payload "forex_enabled";
    stock_reason ← get payload "stock_reason";
    forex_reason ← get payload "forex_reason";
    Some {[ "marketControl" :=
      VObj [("stock_enabled",
             coalesce (coalesce (get_opt stock "enabled") stock_enabled) (VBool true));
            ("forex_enabled",
             coalesce (coalesce (get_opt forex "enabled") forex_enabled) (VBool true));
            ("stock_reason",
             or_else (or_else (get_opt stock "reason") stock_reason) (VStr ""));
            ("forex_reason",
             or_else (or_else (get_opt forex "reason") forex_reason) (VStr ""))] ]}.

(** The entries of [TOPIC_HANDLERS] present in both copies, in source
    order. *)
Definition shared_handlers : list (string * handler) :=
  [ ("trader/services/heartbeat", slice "heartbeat");
    ("trader/services/ml_entry", slice "mlEntry");
    ("trader/services/ml_exit", slice "mlExit");
    ("trader/services/online_learning", slice "onlineLearning");
    ("trader/services/dna", slice "dna");
    ("trader/services/t5008", slice "t5008");
    ("trader/services/scanner_stock", slice "scannerStock");
    ("trader/services/scanner_forex", slice "scannerForex");
    ("trader/services/engine", slice "engine");
    ("trader/services/ibkr", slice "ibkr");
    ("trader/services/breakers", slice "breakers");
    ("trader/portfolio/positions", collection "positions" "positions");
    ("trader/portfolio/closed_today", collection "closedToday" "trades");
    ("trader/portfolio/summary", slice "summary");
    ("trader/scanner/pipeline", slice "pipeline");
    ("trader/scanner/recommendations", collection "recommendations" "candidates");
    ("trader/errors/summary", slice "errors");
    ("trader/account/summary", slice "account");
    ("trader/account/currencies", account_currencies);
    ("trader/capital/allocation", capital_allocation);
    ("trader/control/status", control_status);
    ("trader/margin_protection/config", slice "marginProtectionConfig");
    ("trader/margin_protection/scores", slice "marginProtectionScores");
    ("trader/config/trading", slice "tradingConfig") ].

(** The own property [topic] of a table given by its entries. *)
Fixpoint lookup_handler (table : list (string * handler)) (topic : string)
  : option handler :=
  match table with
  | [] => None
  | (t, h) :: rest => if String.eqb topic t then Some h else lookup_handler rest topic
  end.

(** What the table, an object literal, inherits from [Object.prototype],
    each member as what the call [handler(state, message.payload)] of
    [handleMessage] does with it.  [Object(state)] is [state] itself. *)
Definition Object_constructor : handler := λ state _, Some state.

(** [Object.prototype.toString] called without a receiver returns
    ["[object Undefined]"], and spreading a string gives one property
    for each of its characters. *)
Definition undefined_tag : TradingState :=
  list_to_map (own_props (VStr "[object Undefined]")).

Definition Object_toString : handler := λ _ _, Some undefined_tag.

(** The other members raise a [TypeError]: the methods when they turn
    their missing receiver into an object, and [__proto__], which reads
    as [Object.prototype], when it is called. *)
Definition raises : handler := λ _ _, None.

Definition Object_prototype (name : string) : option handler :=
  if String.eqb name "constructor" then Some Object_constructor
  else if String.eqb name "toString" then Some Object_toString
  else if existsb (String.eqb name)
            [ "toLocaleString"; "valueOf"; "hasOwnProperty"; "isPrototypeOf";
              "propertyIsEnumerable"; "__defineGetter__"; "__defineSetter__";
              "__lookupGetter__"; "__lookupSetter__"; "__proto__" ]
       then Some raises
       else None.

(** [table[topic]]: an own property, else an inherited one. *)
Definition member (table : list (string * handler)) (topic : string)
  : option handler :=
  match lookup_handler table topic with
  | Some h => Some h
  | None => Object_prototype topic
  end.

(** The properties of [initialState] common to both copies. *)
Definition shared_initial : list (string * value) :=
  [ ("connected", VBool false); ("lastUpdate", VNull); ("error", VNull);
    ("heartbeat", VNull); ("mlEntry", VNull); ("mlExit", VNull);
    ("onlineLearning", VNull); ("dna", VNull); ("t5008", VNull);
    ("scannerStock", VNull); ("scannerForex", VNull); ("engine", VNull);
    ("ibkr", VNull); ("breakers", VNull);
    ("positions", VArr []); ("closedToday", VArr []); ("summary", VNull);
    ("pipeline", VNull); ("recommendations", VArr []); ("errors", VNull);
    ("account", VNull); ("currencies", VNull); ("capital", VNull);
    ("marketControl", VNull);
    ("marginProtectionConfig", VNull); ("marginProtectionScores", VNull);
    ("tradingConfig", VNull) ].

Inductive TraderStatusValue : Type :=
| RUNNING | PAUSED | STOPPED | OFFLINE | UNKNOWN.

Record TraderStatusInfo : Type := {
  status : TraderStatusValue;
  mode : value;
  lastUpdate : value;
  isStale : bool;
  uptimeSeconds : value;
  reason : string
}.

Section StaleDetection.

(** [new Date(v).getTime()] of the host; [None] is [NaN]. *)
Variable Date_getTime : value → option Z.

(** The constant of the same name; the two copies differ in its value. *)
Variable STALE_THRESHOLD_MS : Z.

(** [now] is [Date.now()]. *)
Definition isDataStale (now : Z) (lastUpdate : value) : bool :=
  if negb (truthy lastUpdate) then true
  else match Date_getTime lastUpdate with
       | Some lastTime => (STALE_THRESHOLD_MS <? now - lastTime)%Z
       | None => false
       end.

(** The callback of the interval started by [startStaleCheck]. *)
Definition staleCheck (now : Z) (state : TradingState) : TradingState :=
  if truthy (field state "lastUpdate") && isDataStale now (field state "lastUpdate")
  then
    <[ "error" := VStr "Trader offline - no heartbeat received" ]>
      (<[ "engine" :=
            if truthy (field state "engine")
            then VObj (obj_set "status" (VStr "DOWN") (own_props (field state "engine")))
            else VNull ]> state)
  else state.

(** The derived store [traderStatus], recomputed at time [now]. *)
Definition traderStatus (now : Z) (trading : TradingState) : TraderStatusInfo :=
  let stale := isDataStale now (field trading "lastUpdate") in
  let engine := field trading "engine" in
  let heartbeat := field trading "heartbeat" in
  if negb (truthy engine) && negb (truthy heartbeat) then
    {| status := UNKNOWN; mode := VNull;
       lastUpdate := field trading "lastUpdate"; isStale := true;
       uptimeSeconds := VNull;
       reason := "No data received from trader" |}
  else if stale then
    {| status := OFFLINE; mode := or_else (get_opt engine "mode") VNull;
       lastUpdate := field trading "lastUpdate"; isStale := true;
       uptimeSeconds := or_else (get_opt heartbeat "uptime_seconds") VNull;
       reason := "No heartbeat received - trader may be stopped" |}
  else
    let engineStatus := get_opt engine "status" in
    if is_str engineStatus "RUNNING" || is_str engineStatus "ok" then
      {| status := RUNNING; mode := or_else (get_opt engine "mode") (VStr "PAPER");
         lastUpdate := field trading "lastUpdate"; isStale := false;
         uptimeSeconds := or_else (get_opt heartbeat "uptime_seconds") VNull;
         reason := "Trader is active" |}
    else if is_str engineStatus "PAUSED" || is_str engineStatus "warning" then
      {| status := PAUSED; mode := or_else (get_opt engine "mode") (VStr "PAPER");
         lastUpdate := field trading "lastUpdate"; isStale := false;
         uptimeSeconds := or_else (get_opt heartbeat "uptime_seconds") VNull;
         reason := "Trader paused - IBKR may be disconnected" |}
    else if is_str engineStatus "DOWN" || is_str engineStatus "error"
            || is_str engineStatus "STOPPED" then
      {| status := STOPPED; mode := or_else (get_opt engine "mode") VNull;
         lastUpdate := field trading "lastUpdate"; isStale := false;
         uptimeSeconds := or_else (get_opt heartbeat "uptime_seconds") VNull;
         reason := "Trader engine stopped" |}
    else
      {| status := UNKNOWN; mode := or_else (get_opt engine "mode") VNull;
         lastUpdate := field trading "lastUpdate"; isStale := stale;
         uptimeSeconds := or_else (get_opt heartbeat "uptime_seconds") VNull;
         reason := "Unknown engine status: " ++ to_string engineStatus |}.

End StaleDetection.

(** The predicates of the derived store [servicesHealth]. *)
Definition isHealthy (status : value) : bool :=
  is_str status "ok" || is_str status "HEALTHY" || is_str status "RUNNING".
Definition isDegraded (status : value) : bool :=
  is_str status "warning" || is_str status "DEGRADED".
Definition isDown (status : value) : bool :=
  is_str status "error" || is_str status "DOWN".
Definition isUnknown (status : value) : bool :=
  negb (truthy status) || is_str status "UNKNOWN" || is_str status "unknown".

(** The slices [servicesHealth] lists, with the names it gives them. *)
Definition service_slices : list (string * string) :=
  [ ("ML Entry", "mlEntry"); ("ML Exit", "mlExit");
    ("Online Learning", "onlineLearning"); ("Position DNA", "dna");
    ("T5008 Tax", "t5008"); ("Stock Scanner", "scannerStock");
    ("Forex Scanner", "scannerForex"); ("Trading Engine", "engine");
    ("IBKR", "ibkr"); ("Circuit Breakers", "breakers") ].

Record ServicesHealth : Type := {
  services : list (string * value);
  healthy : nat;
  degraded : nat;
  down : nat;
  unknown : nat;
  total : nat
}.

(** The derived store [servicesHealth]. *)
Definition servicesHealth (trading : TradingState) : ServicesHealth :=
  let services :=
    List.map (λ ns : string * string, (ns.1, get_opt (field trading ns.2) "status"))
             service_slices in
  {| services := services;
     healthy := length (List.filter (λ s : string * value, isHealthy s.2) services);
     degraded := length (List.filter (λ s : string * value, isDegraded s.2) services);
     down := length (List.filter (λ s : string * value, isDown s.2) services);
     unknown := length (List.filter (λ s : string * value, isUnknown s.2) services);
     total := length services |}.

(** Some engine or heartbeat data has been received. *)
Definition data_present (state : TradingState) : bool :=
  truthy (field state "engine") || truthy (field state "heartbeat").

(** An inbound frame that passes the guard of [handleMessage]: a data
    message with its topic and payload. *)
Definition data_message (message topic payload : value) : Prop :=
  get message "type" = Some (VStr "mqtt")
  ∧ get message "topic" = Some topic ∧ truthy topic = true
  ∧ get message "payload" = Some payload ∧ truthy payload = true.

(** A reducer that does not read the state. *)
Definition ignores_state (h : handler) : Prop :=
  ∀ (s s' : TradingState) (p : value), h s p = h s' p.

(** A reducer that returns exactly one slice, which for the engine and
    heartbeat slices is the payload itself. *)
Definition writes_slice (h : handler) : Prop :=
  ∃ f : string,
    f ≠ "lastUpdate" ∧ f ≠ "error" ∧
    ∀ (s : TradingState) (p : value) (u : TradingState),
      h s p = Some u →
      ∃ v : value, u = {[ f := v ]} ∧ (f = "engine" ∨ f = "heartbeat" → v = p).

End trading_common.

(** ** The host: sockets and timers

    The browser side of a store: the WebSocket objects it has constructed
    and the timers it has pending.  Handlers are never detached by the
    sources, so every socket ever constructed keeps delivering its events
    to the store.  A timer carries the callback the source registered, the
    delay it was given and the earliest time at which the host may run it. *)

Module host.

Inductive readyState : Type := CONNECTING | OPEN | CLOSING | CLOSED.

Section Env.

Context {callback : Type}.

Record timer : Type := {
  timer_id : nat;
  timer_cb : callback;
  timer_delay : Z;
  timer_due : Z;
  timer_repeats : bool
}.

Record env : Type := {
  clock : Z;                     (* time of the last event *)
  refuses : bool;                (* [new WebSocket(url)] raises *)
  sockets : list readyState;     (* socket [s] is entry [s] *)
  timers : list timer;           (* pending timers *)
  next_timer : nat;              (* next identifier handed out *)
  sent : list (nat * value)      (* frames given to [send], oldest first *)
}.

Definition initial_env (start : Z) (refuse : bool) : env :=
  {| clock := start; refuses := refuse; sockets := []; timers := [];
     next_timer := 1; sent := [] |}.

Definition at_time (now : Z) (e : env) : env :=
  {| clock := now; refuses := refuses e; sockets := sockets e;
     timers := timers e; next_timer := next_timer e; sent := sent e |}.

Definition with_sockets (l : list readyState) (e : env) : env :=
  {| clock := clock e; refuses := refuses e; sockets := l;
     timers := timers e; next_timer := next_timer e; sent := sent e |}.

Definition with_timers (l : list timer) (e : env) : env :=
  {| clock := clock e; refuses := refuses e; sockets := sockets e;
     timers := l; next_timer := next_timer e; sent := sent e |}.

Definition ready (e : env) (s : nat) : option readyState := sockets e !! s.

(** Socket [s] has not delivered its close event: it is open, or in
    its closing handshake. *)
Definition unclosed (e : env) (s : nat) : Prop :=
  ready e s = Some OPEN ∨ ready e s = Some CLOSING.

Definition is_open (e : env) (ws : option nat) : bool :=
  match ws with
  | Some s => match ready e s with Some OPEN => true | _ => false end
  | None => false
  end.

(** [new WebSocket(url)] when it does not raise. *)
Definition new_socket (e : env) : env * nat :=
  (with_sockets (sockets e ++ [CONNECTING]) e, length (sockets e)).

Definition set_ready (s : nat) (r : readyState) (e : env) : env :=
  with_sockets (<[ s := r ]> (sockets e)) e.

(** [socket.close()]: starts the closing handshake of a live socket. *)
Definition close_socket (s : nat) (e : env) : env :=
  match ready e s with
  | Some CONNECTING | Some OPEN => set_ready s CLOSING e
  | _ => e
  end.

(** [ws?.send(frame)]: a frame leaves only through an open socket. *)
Definition send (ws : option nat) (frame : value) (e : env) : env :=
  match ws with
  | Some s =>
      if is_open e ws
      then {| clock := clock e; refuses := refuses e; sockets := sockets e;
              timers := timers e; next_timer := next_timer e;
              sent := sent e ++ [(s, frame)] |}
      else e
  | None => e
  end.

(** [setTimeout(cb, delay)] and [setInterval(cb, delay)]. *)
Definition set_timer (cb : callback) (delay : Z) (repeats : bool) (e : env)
  : env * nat :=
  ({| clock := clock e; refuses := refuses e; sockets := sockets e;
      timers := timers e ++
                [{| timer_id := next_timer e; timer_cb := cb;
                    timer_delay := delay; timer_due := clock e + delay;
                    timer_repeats := repeats |}];
      next_timer := S (next_timer e); sent := sent e |},
   next_timer e).

(** [clearTimeout(id)] and [clearInterval(id)]. *)
Definition clear_timer (id : nat) (e : env) : env :=
  with_timers (filter (λ t, timer_id t ≠ id) (timers e)) e.

Definition find_timer (id : nat) (e : env) : option timer :=
  List.find (λ t, Nat.eqb (timer_id t) id) (timers e).

(** The host takes a due timer off its list to run it; an interval is
    put back with its next due time. *)
Definition take_timer (t : timer) (e : env) : env :=
  let rest := filter (λ t', timer_id t' ≠ timer_id t) (timers e) in
  with_timers
    (if timer_repeats t
     then rest ++ [{| timer_id := timer_id t; timer_cb := timer_cb t;
                      timer_delay := timer_delay t;
                      timer_due := clock e + timer_delay t;
                      timer_repeats := true |}]
     else rest) e.

(** The identifiers of the pending timers that run callback [cb]. *)
Definition pending `{EqDecision callback} (cb : callback) (e : env) : list nat :=
  timer_id <$> filter (λ t, timer_cb t = cb) (timers e).

(** Identifiers are handed out once: pending timers have distinct
    identifiers below the next one. *)
Definition timers_wf (e : env) : Prop :=
  NoDup (timer_id <$> timers e)
  ∧ Forall (λ t, timer_id t < next_timer e)%nat (timers e).

(** Every pending timer running [cb] is a timeout of [delay] ms. *)
Definition timeouts_of `{EqDecision callback} (cb : callback) (delay : Z)
    (e : env) : Prop :=
  Forall (λ t, timer_cb t = cb → timer_repeats t = false ∧ timer_delay t = delay)
         (timers e).

End Env.

Arguments timer : clear implicits.
Arguments env : clear implicits.

(** What the outside world does to a store.  With [ev_closing s] the
    peer starts the closing handshake on socket [s]: in a task of its
    own the socket goes from OPEN to CLOSING, and no handler runs until
    the close event. *)
Inductive event : Type :=
| call_connect
| call_disconnect
| ev_open (s : nat)
| ev_message (s : nat) (data : string)
| ev_error (s : nat)
| ev_close (s : nat)
| ev_timer (id : nat)
| ev_closing (s : nat).

End host.

(** ** frontend/src/lib/stores/trading.ts *)

Module trading_ts.

Import trading_common host.

Definition STALE_THRESHOLD_MS : Z := 75000.

Definition initialState : TradingState := list_to_map shared_initial.

Definition TOPIC_HANDLERS (topic : string) : option handler :=
  member shared_handlers topic.

(** The callbacks the store registers with the host. *)
Inductive callback : Type :=
| reconnect_cb      (* [() => { reconnectTimer = null; connect(); }] *)
| staleCheck_cb.    (* the interval of [startStaleCheck] *)

#[global] Instance callback_eq_dec : EqDecision callback.
Proof. solve_decision. Defined.

(** The store, the variables of the closure of [createTradingStore], and
    the host they refer to. *)
Record client : Type := {
  store : TradingState;
  ws : option nat;
  reconnectTimer : option nat;
  staleCheckTimer : option nat;
  host : env callback
}.

Definition with_store (s : TradingState) (c : client) : client :=
  {| store := s; ws := ws c; reconnectTimer := reconnectTimer c;
     staleCheckTimer := staleCheckTimer c; host := host c |}.

Definition with_host (h : env callback) (c : client) : client :=
  {| store := store c; ws := ws c; reconnectTimer := reconnectTimer c;
     staleCheckTimer := staleCheckTimer c; host := h |}.

Definition with_ws (w : option nat) (c : client) : client :=
  {| store := store c; ws := w; reconnectTimer := reconnectTimer c;
     staleCheckTimer := staleCheckTimer c; host := host c |}.

Definition with_reconnectTimer (t : option nat) (c : client) : client :=
  {| store := store c; ws := ws c; reconnectTimer := t;
     staleCheckTimer := staleCheckTimer c; host := host c |}.

Definition with_staleCheckTimer (t : option nat) (c : client) : client :=
  {| store := store c; ws := ws c; reconnectTimer := reconnectTimer c;
     staleCheckTimer := t; host := host c |}.

(** [update(fn)] of the writable store. *)
Definition update (fn : TradingState → TradingState) (c : client) : client :=
  with_store (fn (store c)) c.

Definition created (start : Z) (refuse : bool) : client :=
  {| store := initialState; ws := None; reconnectTimer := None;
     staleCheckTimer := None; host := initial_env start refuse |}.

(** The frame [sendCommand] gives to [ws.send]. *)
Definition publish_frame (topic : string) (payload : value) : value :=
  VObj [("type", VStr "publish"); ("topic", VStr topic); ("payload", payload)].

(** [sendCommand(topic, payload)]: its result and what it does. *)
Definition sendCommand (topic : string) (payload : value) (c : client)
  : bool * client :=
  if is_open (host c) (ws c)
  then (true, with_host (send (ws c) (publish_frame topic payload) (host c)) c)
  else (false, c).

(** The control methods of the store: a call with its arguments.  An
    omitted optional argument is [undefined]. *)
Inductive control : Type :=
| toggleStockTrading (enabled : bool) (reason : value)
| toggleForexTrading (enabled : bool) (reason : value)
| closePosition (symbol : value) (reason : value)
| closeAllPositions (assetType : value) (reason : value)
| toggleMarginProtection (enabled : bool)
| updateMarginProtectionConfig (config : value)
| updateMaxPositions (maxPositions : value).

Definition toggle_reason (enabled : bool) (reason : value) : value :=
  or_else reason
    (VStr (if enabled then "Manual enable via dashboard"
           else "Manual disable via dashboard")).

(** The topic and the payload each method hands to [sendCommand]. *)
Definition request (call : control) : string * value :=
  match call with
  | toggleStockTrading enabled reason =>
      ("trader/control/stock/toggle",
       VObj [("enabled", VBool enabled); ("reason", toggle_reason enabled reason);
             ("source", VStr "dashboard")])
  | toggleForexTrading enabled reason =>
      ("trader/control/forex/toggle",
       VObj [("enabled", VBool enabled); ("reason", toggle_reason enabled reason);
             ("source", VStr "dashboard")])
  | closePosition symbol reason =>
      ("trader/control/position/close",
       VObj [("symbol", symbol);
             ("reason", or_else reason (VStr "Manual close via dashboard"));
             ("source", VStr "dashboard")])
  | closeAllPositions assetType reason =>
      ("trader/control/positions/close_all",
       VObj [("asset_type", or_else assetType (VStr "all"));
             ("reason", or_else reason (VStr "Manual close all via dashboard"));
             ("source", VStr "dashboard")])
  | toggleMarginProtection enabled =>
      ("trader/control/margin_protection/toggle",
       VObj [("enabled", VBool enabled); ("source", VStr "dashboard")])
  | updateMarginProtectionConfig config =>
      ("trader/control/margin_protection/config",
       VObj (obj_set "source" (VStr "dashboard") (own_props config)))
  | updateMaxPositions maxPositions =>
      ("trader/control/config/max_positions",
       VObj [("max_positions", maxPositions); ("source", VStr "dashboard")])
  end.

Definition issue (call : control) (c : client) : bool * client :=
  sendCommand (request call).1 (request call).2 c.

Section Store.

(** Host functions: [new Date(v).getTime()] ([None] is [NaN]),
    [new Date(ms).toISOString()], and [JSON.parse] ([None] when it
    raises). *)
Variable Date_getTime : value → option Z.
Variable Date_toISOString : Z → string.
Variable JSON_parse : string → option value.

Definition isDataStale := trading_common.isDataStale Date_getTime STALE_THRESHOLD_MS.
Definition staleCheck := trading_common.staleCheck Date_getTime STALE_THRESHOLD_MS.
Definition traderStatus := trading_common.traderStatus Date_getTime STALE_THRESHOLD_MS.

(** [payloadTimestamp || new Date().toISOString()] *)
Definition messageTime (now : Z) (payload : value) : value :=
  or_else (get_opt payload "timestamp") (VStr (Date_toISOString now)).

(** [handleMessage(message)] as a function of the store; [None] when an
    exception leaves it, in which case the store was not written. *)
Definition handleMessage (now : Z) (message : value) (state : TradingState)
  : option TradingState :=
  type ← get message "type";
  topic ← get message "topic";
  payload ← get message "payload";
  if strict_equals type (VStr "mqtt") && truthy topic && truthy payload then
    match TOPIC_HANDLERS (to_string topic) with
    | Some handler =>
        updates ← handler state payload;
        Some (<[ "lastUpdate" := messageTime now payload ]> (updates ∪ state))
    | None => Some state
    end
  else Some state.

(** [ws.onmessage]: both the parse and the handling sit in one [try]. *)
Definition onmessage (now : Z) (data : string) (state : TradingState)
  : TradingState :=
  match JSON_parse data with
  | Some message => default state (handleMessage now message state)
  | None => state
  end.

Definition startStaleCheck (c : client) : client :=
  match staleCheckTimer c with
  | Some _ => c
  | None =>
      let '(h, id) := set_timer staleCheck_cb 30000 true (host c) in
      with_staleCheckTimer (Some id) (with_host h c)
  end.

Definition stopStaleCheck (c : client) : client :=
  match staleCheckTimer c with
  | Some id => with_staleCheckTimer None (with_host (clear_timer id (host c)) c)
  | None => c
  end.

Definition connect (c : client) : client :=
  if is_open (host c) (ws c) then c
  else
    let c := update (λ state, <[ "error" := VNull ]> state) c in
    if refuses (host c)
    then update (λ state, <[ "error" := VStr "Failed to connect" ]> state) c
    else
      let '(h, s) := new_socket (host c) in
      with_ws (Some s) (with_host h c).

Definition subscribe_frame : value :=
  VObj [("type", VStr "subscribe"); ("topics", VArr [VStr "trader/#"])].

Definition onopen (c : client) : client :=
  let c := update (λ state, <[ "error" := VNull ]> (<[ "connected" := VBool true ]> state)) c in
  let c := startStaleCheck c in
  with_host (send (ws c) subscribe_frame (host c)) c.

Definition onerror (c : client) : client :=
  update (λ state, <[ "error" := VStr "Connection error" ]> state) c.

Definition onclose (c : client) : client :=
  let c := update (λ state, <[ "connected" := VBool false ]> state) c in
  match reconnectTimer c with
  | Some _ => c
  | None =>
      let '(h, id) := set_timer reconnect_cb 5000 false (host c) in
      with_reconnectTimer (Some id) (with_host h c)
  end.

Definition disconnect (c : client) : client :=
  let c := stopStaleCheck c in
  let c := match reconnectTimer c with
           | Some id => with_reconnectTimer None (with_host (clear_timer id (host c)) c)
           | None => c
           end in
  let c := match ws c with
           | Some s => with_ws None (with_host (close_socket s (host c)) c)
           | None => c
           end in
  with_store initialState c.

Definition run_callback (now : Z) (cb : callback) (c : client) : client :=
  match cb with
  | reconnect_cb => connect (with_reconnectTimer None c)
  | staleCheck_cb => update (staleCheck now) c
  end.

(** One turn of the event loop at time [now]; [None] when the host cannot
    produce the event in this state. *)
Definition step (now : Z) (e : event) (c : client) : option client :=
  if (now <? clock (host c))%Z then None
  else
    let c := with_host (at_time now (host c)) c in
    match e with
    | call_connect => Some (connect c)
    | call_disconnect => Some (disconnect c)
    | ev_open s =>
        match ready (host c) s with
        | Some CONNECTING => Some (onopen (with_host (set_ready s OPEN (host c)) c))
        | _ => None
        end
    | ev_message s data =>
        match ready (host c) s with
        | Some OPEN => Some (update (onmessage now data) c)
        | _ => None
        end
    | ev_error s =>
        match ready (host c) s with
        | Some CLOSED | None => None
        | Some _ => Some (onerror c)
        end
    | ev_close s =>
        match ready (host c) s with
        | Some CLOSED | None => None
        | Some _ => Some (onclose (with_host (set_ready s CLOSED (host c)) c))
        end
    | ev_timer id =>
        match find_timer id (host c) with
        | Some t =>
            if (now <? timer_due t)%Z then None
            else Some (run_callback now (timer_cb t) (with_host (take_timer t (host c)) c))
        | None => None
        end
    | ev_closing s =>
        match ready (host c) s with
        | Some OPEN => Some (with_host (set_ready s CLOSING (host c)) c)
        | _ => None
        end
    end.

Fixpoint run (trace : list (Z * event)) (c : client) : option client :=
  match trace with
  | [] => Some c
  | (now, e) :: rest => c' ← step now e c; run rest c'
  end.

(** The reconnect timers the host has pending. *)
Definition pending_reconnects (c : client) : list nat :=
  pending reconnect_cb (host c).

(** What every reachable state satisfies: distinct timer identifiers,
    reconnects scheduled as 5000 ms timeouts, and [reconnectTimer]
    naming the pending reconnects. *)
Definition consistent (c : client) : Prop :=
  timers_wf (host c)
  ∧ timeouts_of reconnect_cb 5000 (host c)
  ∧ pending_reconnects c = option_list (reconnectTimer c).

(** The states a freshly created store can get into. *)
Definition reachable (c : client) : Prop :=
  ∃ (start : Z) (refuse : bool) (trace : list (Z * event)),
    run trace (created start refuse) = Some c.

(** The stale check intervals the host has pending. *)
Definition pending_staleChecks (c : client) : list nat :=
  pending staleCheck_cb (host c).

(** More of what every reachable state satisfies.  Stale checks are
    intervals and [staleCheckTimer] names the pending ones. *)
Definition stale_checks_named (c : client) : Prop :=
  Forall (λ t, timer_cb t = staleCheck_cb → timer_repeats t = true)
         (timers (host c))
  ∧ pending_staleChecks c = option_list (staleCheckTimer c).

(** The store says connected only while some socket is open or in its
    closing handshake. *)
Definition connected_while_unclosed (c : client) : Prop :=
  field (store c) "connected" = VBool true → ∃ s : nat, unclosed (host c) s.

Definition settled (c : client) : Prop :=
  consistent c ∧ stale_checks_named c ∧ connected_while_unclosed c.

End Store.

End trading_ts.

(** ** The later copy of the trading store

    It shares the reducers, the stale check and the derived status with
    [trading.ts]; it has a larger threshold, five more topics, four more
    state properties and a different [handleMessage]. *)

Module trading_next.

Import trading_common.

Definition STALE_THRESHOLD_MS : Z := 180000.

Definition initialState : TradingState :=
  list_to_map
    (shared_initial ++
     [ ("historySummary", VNull); ("allTimeStats", VNull);
       ("positionLimits", VNull); ("budgetConfig", VNull) ]).

(** [items.map(x => x.date === d.date ? d : x)] *)
Definition replace_by_date (d : value) (items : list value) : option (list value) :=
  mapM (λ x, xdate ← get x "date";
             ddate ← get d "date";
             Some (if strict_equals xdate ddate then d else x)) items.

(** [items.find(x => x.date === d.date)] *)
Fixpoint find_by_date (d : value) (items : list value) : option value :=
  match items with
  | [] => Some VUndefined
  | x :: rest =>
      xdate ← get x "date";
      ddate ← get d "date";
      if strict_equals xdate ddate then Some x else find_by_date d rest
  end.

(** Replace the entry of the same date, or put the new one in front.
    [Array.prototype.map] exists on arrays only. *)
Definition merge_by_date (d : value) (collection : value) : option value :=
  match collection with
  | VArr items =>
      updated ← replace_by_date d items;
      found ← find_by_date d updated;
      Some (VArr (if truthy found then updated else d :: updated))
  | _ => None
  end.

(** An entry of the history as the publisher sends it: a non-empty
    value whose [date] is a string, a number or a boolean. *)
Definition dated (entry : value) : Prop :=
  truthy entry = true
  ∧ ∃ date : value, get entry "date" = Some date ∧ strict_equals date date = true.

Definition history_update : handler :=
  λ state payload,
    let historySummary := field state "historySummary" in
    if negb (truthy historySummary) then Some ∅
    else
      daily_stats ← get payload "daily_stats";
      ml_metrics ← get payload "ml_metrics";
      old_daily ← get historySummary "daily_stats";
      updatedDailyStats ← merge_by_date daily_stats old_daily;
      old_ml ← get historySummary "ml_metrics";
      updatedMLMetrics ← merge_by_date ml_metrics old_ml;
      Some {[ "historySummary" :=
                VObj (obj_set "ml_metrics" updatedMLMetrics
                        (obj_set "daily_stats" updatedDailyStats
                           (own_props historySummary))) ]}.

Definition TOPIC_HANDLERS (topic : string) : option handler :=
  member
    (shared_handlers ++
     [ ("trader/config/position_limits", slice "positionLimits");
       ("trader/config/budget", slice "budgetConfig");
       ("trader/history/daily_stats", slice "historySummary");
       ("trader/history/all_time", slice "allTimeStats");
       ("trader/history/update", history_update) ])
    topic.

Section Store.

Variable Date_getTime : value → option Z.
Variable Date_toISOString : Z → string.
Variable JSON_parse : string → option value.

Definition isDataStale := trading_common.isDataStale Date_getTime STALE_THRESHOLD_MS.
Definition staleCheck := trading_common.staleCheck Date_getTime STALE_THRESHOLD_MS.
Definition traderStatus := trading_common.traderStatus Date_getTime STALE_THRESHOLD_MS.

(** [message.timestamp || payloadTimestamp || new Date().toISOString()] *)
Definition messageTime (now : Z) (message payload : value) : value :=
  or_else (or_else (get_opt message "timestamp") (get_opt payload "timestamp"))
          (VStr (Date_toISOString now)).

Definition handleMessage (now : Z) (message : value) (state : TradingState)
  : option TradingState :=
  type ← get message "type";
  topic ← get message "topic";
  payload ← get message "payload";
  if strict_equals type (VStr "mqtt") && truthy topic && truthy payload then
    match TOPIC_HANDLERS (to_string topic) with
    | Some handler =>
        updates ← handler state payload;
        Some (<[ "error" := VNull ]>
                (<[ "lastUpdate" := messageTime now message payload ]>
                   (updates ∪ state)))
    | None => Some state
    end
  else Some state.

Definition onmessage (now : Z) (data : string) (state : TradingState)
  : TradingState :=
  match JSON_parse data with
  | Some message => default state (handleMessage now message state)
  | None => state
  end.

End Store.

End trading_next.

(** ** The device store *)

Module devices_store.

(** A [Map] keeps its entries in insertion order; keys are compared as
    [Map.prototype.get] does, which on these values is [===]. *)
Abbreviation DeviceMap := (list (value * value)).

Fixpoint map_get (k : value) (m : DeviceMap) : value :=
  match m with
  | [] => VUndefined
  | (k', v) :: rest => if strict_equals k' k then v else map_get k rest
  end.

(** [m.set(k, v)]: an existing key keeps its position. *)
Fixpoint map_set (k v : value) (m : DeviceMap) : DeviceMap :=
  match m with
  | [] => [(k, v)]
  | (k', v') :: rest =>
      if strict_equals k' k then (k', v) :: rest else (k', v') :: map_set k v rest
  end.

Record DeviceState : Type := {
  devices : DeviceMap;
  loading : bool;
  error : value;
  lastUpdated : value
}.

Definition with_devices (m : DeviceMap) (state : DeviceState) : DeviceState :=
  {| devices := m; loading := loading state; error := error state;
     lastUpdated := lastUpdated state |}.

Definition created : DeviceState :=
  {| devices := []; loading := false; error := VNull; lastUpdated := VNull |}.

(** [device.label === key || device.name === key]; [None] when reading a
    property of the device raises. *)
Definition answers_to (device key : value) : option bool :=
  label ← get device "label";
  name ← get device "name";
  Some (strict_equals label key || strict_equals name key).

(** The first entry, in iteration order, whose device answers to [key]. *)
Fixpoint find_device (key : value) (m : DeviceMap) : option (option (value * value)) :=
  match m with
  | [] => Some None
  | (id, device) :: rest =>
      match answers_to device key with
      | Some true => Some (Some (id, device))
      | Some false => find_device key rest
      | None => None
      end
  end.

(** [load()] up to its [await]. *)
Definition load_begin (state : DeviceState) : DeviceState :=
  {| devices := devices state; loading := true; error := VNull;
     lastUpdated := lastUpdated state |}.

(** The loop filling [devicesMap] from [response.data]. *)
Fixpoint fill_map (data : list value) (m : DeviceMap) : option DeviceMap :=
  match data with
  | [] => Some m
  | device :: rest => id ← get device "id"; fill_map rest (map_set id device m)
  end.

Definition load_failed (err : value) (state : DeviceState) : DeviceState :=
  {| devices := devices state; loading := false;
     error := or_else (get_opt err "detail") (VStr "Failed to load devices");
     lastUpdated := lastUpdated state |}.

(** [load()] after [getDevices] resolved with [data] at time [today]; an
    exception inside the [try] lands in its [catch]. *)
Definition load_resolved (data : list value) (today : value) (state : DeviceState)
  : DeviceState :=
  match fill_map data [] with
  | Some devicesMap =>
      {| devices := devicesMap; loading := false; error := error state;
         lastUpdated := today |}
  | None => load_failed VUndefined state
  end.

(** [updateDeviceState(deviceId, attribute, value)]; [None] when the
    updater raises, in which case the store is not written. *)
Definition updateDeviceState (deviceId attribute v : value) (state : DeviceState)
  : option DeviceState :=
  found ← find_device deviceId (devices state);
  match found with
  | Some (_, targetDevice) =>
      if truthy targetDevice then
        old ← get targetDevice "state";
        id ← get targetDevice "id";
        let updatedDevice :=
          VObj (obj_set "state"
                  (VObj (obj_set (to_string attribute) v (own_props old)))
                  (own_props targetDevice)) in
        Some (with_devices (map_set id updatedDevice (devices state)) state)
      else Some state
  | None => Some state
  end.

(** One round of the outer loop of [setInitialState]. *)
Definition merge_initial (deviceKey : string) (attributes : value) (m : DeviceMap)
  : option DeviceMap :=
  found ← find_device (VStr deviceKey) m;
  match found with
  | Some (id, device) =>
      old ← get device "state";
      Some (map_set id
              (VObj (obj_set "state"
                       (VObj (obj_assign (own_props old) (own_props attributes)))
                       (own_props device))) m)
  | None => Some m
  end.

Fixpoint merge_all_initial (entries : list (string * value)) (m : DeviceMap)
  : option DeviceMap :=
  match entries with
  | [] => Some m
  | (deviceKey, attributes) :: rest =>
      m' ← merge_initial deviceKey attributes m; merge_all_initial rest m'
  end.

(** [setInitialState(deviceStates)]; [Object.entries] raises on [null]
    and [undefined]. *)
Definition setInitialState (deviceStates : value) (state : DeviceState)
  : option DeviceState :=
  if nullish deviceStates then None
  else
    m ← merge_all_initial (own_props deviceStates) (devices state);
    Some (with_devices m state).

(** [updateDevice(device)] *)
Definition updateDevice (device : value) (state : DeviceState) : option DeviceState :=
  id ← get device "id";
  Some (with_devices (map_set id device (devices state)) state).

(** [setDeviceSwitch(deviceId, switchState)] *)
Definition setDeviceSwitch (deviceId : value) (switchState : string)
  (state : DeviceState) : DeviceState :=
  let device := map_get deviceId (devices state) in
  if truthy device then
    with_devices
      (map_set deviceId
         (VObj (obj_set "state"
                  (VObj (obj_set "switch" (VStr switchState)
                           (own_props (get_opt device "state"))))
                  (obj_set "switch_state" (VStr switchState) (own_props device))))
         (devices state))
      state
  else state.

(** [setDeviceLevel(deviceId, level)] *)
Definition setDeviceLevel (deviceId : value) (level : Z) (state : DeviceState)
  : DeviceState :=
  let device := map_get deviceId (devices state) in
  let switchState := VStr (if (0 <? level)%Z then "on" else "off") in
  if truthy device then
    with_devices
      (map_set deviceId
         (VObj (obj_set "state"
                  (VObj (obj_set "switch" switchState
                           (obj_set "level" (VNum level)
                              (own_props (get_opt device "state")))))
                  (obj_set "switch_state" switchState
                     (obj_set "level" (VNum level) (own_props device)))))
         (devices state))
      state
  else state.

Definition clearError (state : DeviceState) : DeviceState :=
  {| devices := devices state; loading := loading state; error := VNull;
     lastUpdated := lastUpdated state |}.

Definition reset (_ : DeviceState) : DeviceState := created.

(** The derived store [devicesList]. *)
Definition devicesList (state : DeviceState) : list value :=
  (devices state).*2.

(** The derived store [favoriteDevices]; [None] when reading a device
    raises. *)
Fixpoint favorites (ds : list value) : option (list value) :=
  match ds with
  | [] => Some []
  | d :: rest =>
      is_favorite ← get d "is_favorite";
      kept ← favorites rest;
      Some (if truthy is_favorite then d :: kept else kept)
  end.

Definition favoriteDevices (state : DeviceState) : option (list value) :=
  favorites (devicesList state).

(** [if (!byRoom.has(room)) byRoom.set(room, []); byRoom.get(room).push(device)] *)
Fixpoint group_add (room device : value) (byRoom : list (value * list value))
  : list (value * list value) :=
  match byRoom with
  | [] => [(room, [device])]
  | (r, ds) :: rest =>
      if strict_equals r room then (r, (ds ++ [device])%list) :: rest
      else (r, ds) :: group_add room device rest
  end.

(** [device.room || 'Unassigned'] *)
Definition room_of (device : value) : value :=
  or_else (get_opt device "room") (VStr "Unassigned").

Fixpoint group_all (ds : list value) (byRoom : list (value * list value))
  : option (list (value * list value)) :=
  match ds with
  | [] => Some byRoom
  | d :: rest =>
      _ ← get d "room";
      group_all rest (group_add (room_of d) d byRoom)
  end.

(** The derived store [devicesByRoom]; [None] when reading a device
    raises. *)
Definition devicesByRoom (state : DeviceState)
  : option (list (value * list value)) :=
  group_all (devicesList state) [].

(** The keys of the map are numbers and each device sits under its own
    [id], as [load] leaves them. *)
Definition well_keyed (m : DeviceMap) : Prop :=
  Forall (λ kd : value * value,
            (∃ n : Z, kd.1 = VNum n) ∧ get kd.2 "id" = Some kd.1) m.

(** [device.state?.switch === 'on'], the test of the kiosk page. *)
Definition kiosk_shows_on (device : value) : bool :=
  is_str (get_opt (get_opt device "state") "switch") "on".

End devices_store.

(** ** The device WebSocket store *)

Module websocket_ts.

Import host.

Record WsState : Type := {
  connected : bool;
  error : value;
  reconnecting : bool
}.

Inductive callback : Type :=
| reconnect_cb      (* [() => { reconnectTimer = null; connect(); }] *)
| ping_cb.          (* the interval started in [ws.onopen] *)

#[global] Instance callback_eq_dec : EqDecision callback.
Proof. solve_decision. Defined.

(** The store, the device store it feeds, the variables of the closure
    of [createWebSocketStore], and the host. *)
Record client : Type := {
  store : WsState;
  devices : devices_store.DeviceState;
  ws : option nat;
  reconnectTimer : option nat;
  pingInterval : option nat;
  host : env callback
}.

Definition with_store (s : WsState) (c : client) : client :=
  {| store := s; devices := devices c; ws := ws c;
     reconnectTimer := reconnectTimer c; pingInterval := pingInterval c;
     host := host c |}.

Definition with_devices (d : devices_store.DeviceState) (c : client) : client :=
  {| store := store c; devices := d; ws := ws c;
     reconnectTimer := reconnectTimer c; pingInterval := pingInterval c;
     host := host c |}.

Definition with_host (h : env callback) (c : client) : client :=
  {| store := store c; devices := devices c; ws := ws c;
     reconnectTimer := reconnectTimer c; pingInterval := pingInterval c;
     host := h |}.

Definition with_ws (w : option nat) (c : client) : client :=
  {| store := store c; devices := devices c; ws := w;
     reconnectTimer := reconnectTimer c; pingInterval := pingInterval c;
     host := host c |}.

Definition with_reconnectTimer (t : option nat) (c : client) : client :=
  {| store := store c; devices := devices c; ws := ws c;
     reconnectTimer := t; pingInterval := pingInterval c; host := host c |}.

Definition with_pingInterval (t : option nat) (c : client) : client :=
  {| store := store c; devices := devices c; ws := ws c;
     reconnectTimer := reconnectTimer c; pingInterval := t; host := host c |}.

Definition update (fn : WsState → WsState) (c : client) : client :=
  with_store (fn (store c)) c.

Definition idle : WsState :=
  {| connected := false; error := VNull; reconnecting := false |}.

Definition created (start : Z) (refuse : bool) (d : devices_store.DeviceState)
  : client :=
  {| store := idle; devices := d; ws := None; reconnectTimer := None;
     pingInterval := None; host := initial_env start refuse |}.

Section Store.

Variable JSON_parse : string → option value.

(** [handleMessage(message)] as a function of the device store;
    [None] when an exception leaves it. *)
Definition handleMessage (message : value) (d : devices_store.DeviceState)
  : option devices_store.DeviceState :=
  type ← get message "type";
  if is_str type "initial_state" then
    payload ← get message "payload";
    deviceStates ← get payload "devices";
    devices_store.setInitialState deviceStates d
  else if is_str type "device_state" then
    payload ← get message "payload";
    device_id ← get payload "device_id";
    attribute ← get payload "attribute";
    v ← get payload "value";
    devices_store.updateDeviceState device_id attribute v d
  else Some d.

Definition onmessage (data : string) (d : devices_store.DeviceState)
  : devices_store.DeviceState :=
  match JSON_parse data with
  | Some message => default d (handleMessage message d)
  | None => d
  end.

Definition connect (c : client) : client :=
  if is_open (host c) (ws c) then c
  else
    let c := update (λ state, {| connected := connected state; error := VNull;
                                 reconnecting := false |}) c in
    if refuses (host c)
    then update (λ state, {| connected := connected state;
                             error := VStr "Failed to connect";
                             reconnecting := reconnecting state |}) c
    else
      let '(h, s) := new_socket (host c) in
      with_ws (Some s) (with_host h c).

Definition ping_frame : value := VObj [("type", VStr "ping")].

Definition onopen (c : client) : client :=
  let c := update (λ _, {| connected := true; error := VNull;
                           reconnecting := false |}) c in
  let '(h, id) := set_timer ping_cb 30000 true (host c) in
  with_pingInterval (Some id) (with_host h c).

Definition onerror (c : client) : client :=
  update (λ state, {| connected := connected state;
                      error := VStr "Connection error";
                      reconnecting := reconnecting state |}) c.

Definition onclose (c : client) : client :=
  let c := update (λ state, {| connected := false; error := error state;
                               reconnecting := reconnecting state |}) c in
  let c := match pingInterval c with
           | Some id => with_pingInterval None (with_host (clear_timer id (host c)) c)
           | None => c
           end in
  match reconnectTimer c with
  | Some _ => c
  | None =>
      let c := update (λ state, {| connected := connected state;
                                   error := error state;
                                   reconnecting := true |}) c in
      let '(h, id) := set_timer reconnect_cb 5000 false (host c) in
      with_reconnectTimer (Some id) (with_host h c)
  end.

Definition disconnect (c : client) : client :=
  let c := match reconnectTimer c with
           | Some id => with_reconnectTimer None (with_host (clear_timer id (host c)) c)
           | None => c
           end in
  let c := match pingInterval c with
           | Some id => with_pingInterval None (with_host (clear_timer id (host c)) c)
           | None => c
           end in
  let c := match ws c with
           | Some s => with_ws None (with_host (close_socket s (host c)) c)
           | None => c
           end in
  with_store idle c.

Definition run_callback (cb : callback) (c : client) : client :=
  match cb with
  | reconnect_cb => connect (with_reconnectTimer None c)
  | ping_cb => with_host (send (ws c) ping_frame (host c)) c
  end.

Definition step (now : Z) (e : event) (c : client) : option client :=
  if (now <? clock (host c))%Z then None
  else
    let c := with_host (at_time now (host c)) c in
    match e with
    | call_connect => Some (connect c)
    | call_disconnect => Some (disconnect c)
    | ev_open s =>
        match ready (host c) s with
        | Some CONNECTING => Some (onopen (with_host (set_ready s OPEN (host c)) c))
        | _ => None
        end
    | ev_message s data =>
        match ready (host c) s with
        | Some OPEN => Some (with_devices (onmessage data (devices c)) c)
        | _ => None
        end
    | ev_error s =>
        match ready (host c) s with
        | Some CLOSED | None => None
        | Some _ => Some (onerror c)
        end
    | ev_close s =>
        match ready (host c) s with
        | Some CLOSED | None => None
        | Some _ => Some (onclose (with_host (set_ready s CLOSED (host c)) c))
        end
    | ev_timer id =>
        match find_timer id (host c) with
        | Some t =>
            if (now <? timer_due t)%Z then None
            else Some (run_callback (timer_cb t) (with_host (take_timer t (host c)) c))
        | None => None
        end
    | ev_closing s =>
        match ready (host c) s with
        | Some OPEN => Some (with_host (set_ready s CLOSING (host c)) c)
        | _ => None
        end
    end.

Fixpoint run (trace : list (Z * event)) (c : client) : option client :=
  match trace with
  | [] => Some c
  | (now, e) :: rest => c' ← step now e c; run rest c'
  end.

Definition pending_reconnects (c : client) : list nat :=
  pending reconnect_cb (host c).

(** What every reachable state satisfies: distinct timer identifiers,
    reconnects scheduled as 5000 ms timeouts, [reconnectTimer] naming
    the pending reconnects, and [pingInterval] naming no reconnect. *)
Definition consistent (c : client) : Prop :=
  timers_wf (host c)
  ∧ timeouts_of reconnect_cb 5000 (host c)
  ∧ pending_reconnects c = option_list (reconnectTimer c)
  ∧ (∀ id, pingInterval c = Some id → id ∉ pending_reconnects c).

(** The states a freshly created store can get into. *)
Definition reachable (c : client) : Prop :=
  ∃ (start : Z) (refuse : bool) (d : devices_store.DeviceState)
    (trace : list (Z * event)),
    run trace (created start refuse d) = Some c.

(** The store says connected only while some socket is open or in its
    closing handshake. *)
Definition connected_while_unclosed (c : client) : Prop :=
  connected (store c) = true → ∃ s : nat, unclosed (host c) s.

End Store.

End websocket_ts.

(** ** The device card *)

Module device_card.

Import devices_store.

(** [typeof v === 'number'] *)
Definition is_number (v : value) : bool :=
  match v with VNum _ => true | _ => false end.

(** The derived [level] of the card; the card is given a device object. *)
Definition level (device : value) : value :=
  if is_number (get_opt device "level") then get_opt device "level"
  else if is_number (get_opt (get_opt device "state") "level")
       then get_opt (get_opt device "state") "level"
       else VNull.

(** [level !== null && level > 0] *)
Definition level_positive (device : value) : bool :=
  match level device with
  | VNum n => (0 <? n)%Z
  | _ => false
  end.

(** The derived [isOn] of the card. *)
Definition isOn (device : value) : bool :=
  is_str (get_opt device "switch_state") "on"
  || is_str (get_opt (get_opt device "state") "switch") "on"
  || strict_equals (get_opt (get_opt device "state") "switch") (VBool true)
  || match level device with
     | VNum n => (0 <? n)%Z
     | _ => false
     end.

(** The request a handler awaits. *)
Inductive command : Type :=
| turnOn (deviceId : value)
| turnOff (deviceId : value).

(** How an awaited request ends. *)
Inductive outcome (A : Type) : Type :=
| resolved (a : A)
| rejected (e : value).
Arguments resolved {A} a.
Arguments rejected {A} e.

(** What a card and the store it writes to consist of: the singleton
    device store, the [loading] flag of the card, the lines given to
    [console.error], and the devices for which the 1500 ms timer of
    [refreshDeviceAfterCommand] is pending. *)
Record world : Type := {
  store : DeviceState;
  loading : bool;
  console : list string;
  refreshes : list value
}.

(** [handleToggle] up to its [await]: the request it issues and the
    [newState] it computed, or nothing when the card is busy. *)
Definition handleToggle_begin (device : value) (w : world)
  : world * option (command * string) :=
  if loading w then (w, None)
  else
    let id := get_opt device "id" in
    ({| store := store w; loading := true; console := console w;
        refreshes := refreshes w |},
     Some (if isOn device then (turnOff id, "off") else (turnOn id, "on"))).

(** [handleToggle] from the point its [await] settles. *)
Definition handleToggle_settle (device : value) (newState : string)
  (o : outcome value) (w : world) : world :=
  match o with
  | resolved _ =>
      {| store := setDeviceSwitch (get_opt device "id") newState (store w);
         loading := false; console := console w;
         refreshes := refreshes w ++ [get_opt device "id"] |}
  | rejected _ =>
      {| store := store w; loading := false;
         console := console w ++ ["Failed to toggle device:"];
         refreshes := refreshes w |}
  end.

(** The timer of [refreshDeviceAfterCommand] fires and [getDevice]
    settles; [response] is [response.data]. *)
Definition refreshDeviceAfterCommand_settle (response : outcome value) (w : world) : world :=
  match response with
  | resolved data =>
      {| store := if truthy data then default (store w) (updateDevice data (store w))
                  else store w;
         loading := loading w; console := console w;
         refreshes := tail (refreshes w) |}
  | rejected _ =>
      {| store := store w; loading := loading w;
         console := console w ++ ["Failed to refresh device:"];
         refreshes := tail (refreshes w) |}
  end.

End device_card.

(** ** A concrete host for the examples

    The stores are parametric in the host's date and JSON functions.  The
    examples run them with a host that reads and prints ISO 8601 UTC
    timestamps and that parses the frames of a fixed set of documents. *)

Module samples.

Definition digit (c : ascii) : option Z :=
  let n := Z.of_nat (nat_of_ascii c) in
  if (48 <=? n)%Z && (n <=? 57)%Z then Some (n - 48)%Z else None.

Fixpoint number_from (acc : Z) (s : string) : option Z :=
  match s with
  | EmptyString => Some acc
  | String c rest => d ← digit c; number_from (10 * acc + d)%Z rest
  end.

(** The number written by the [len] digits of [s] from position [pos]. *)
Definition digits_at (pos len : nat) (s : string) : option Z :=
  let part := String.substring pos len s in
  if Nat.eqb (String.length part) len then number_from 0 part else None.

Definition char_at (pos : nat) (s : string) (c : string) : bool :=
  String.eqb (String.substring pos 1 s) c.

(** Days from 1970-01-01 to the given civil date. *)
Definition days_from_civil (y m d : Z) : Z :=
  let y' := if (m <=? 2)%Z then (y - 1)%Z else y in
  let era := (y' / 400)%Z in
  let yoe := (y' - era * 400)%Z in
  let doy := ((153 * (if (2 <? m)%Z then m - 3 else m + 9) + 2) / 5 + d - 1)%Z in
  let doe := (yoe * 365 + yoe / 4 - yoe / 100 + doy)%Z in
  (era * 146097 + doe - 719468)%Z.

(** Milliseconds since the epoch of [YYYY-MM-DDTHH:MM:SSZ], with or
    without a [.mmm] part. *)
Definition parse_iso (s : string) : option Z :=
  y ← digits_at 0 4 s;
  mo ← digits_at 5 2 s;
  d ← digits_at 8 2 s;
  h ← digits_at 11 2 s;
  mi ← digits_at 14 2 s;
  sec ← digits_at 17 2 s;
  ms ← (if Nat.eqb (String.length s) 20 then (if char_at 19 s "Z" then Some 0%Z else None)
        else if Nat.eqb (String.length s) 24
             then (if char_at 19 s "." && char_at 23 s "Z" then digits_at 20 3 s else None)
             else None);
  if char_at 4 s "-" && char_at 7 s "-" && char_at 10 s "T"
     && char_at 13 s ":" && char_at 16 s ":"
     && (1 <=? mo)%Z && (mo <=? 12)%Z && (1 <=? d)%Z && (d <=? 31)%Z
     && (h <? 24)%Z && (mi <? 60)%Z && (sec <? 60)%Z
  then Some ((((days_from_civil y mo d * 24 + h) * 60 + mi) * 60 + sec) * 1000 + ms)%Z
  else None.

Definition getTime (v : value) : option Z :=
  match v with
  | VNum n => Some n
  | VStr s => parse_iso s
  | _ => None
  end.

(** [n] in decimal, padded with zeros to [width] digits. *)
Definition padded (width : nat) (n : Z) : string :=
  let s := pretty n in
  String.concat "" (replicate (width - String.length s) "0") ++ s.

(** The civil date [(y, m, d)] of a day number. *)
Definition civil_from_days (z : Z) : Z * Z * Z :=
  let z := (z + 719468)%Z in
  let era := (z / 146097)%Z in
  let doe := (z - era * 146097)%Z in
  let yoe := ((doe - doe / 1460 + doe / 36524 - doe / 146096) / 365)%Z in
  let doy := (doe - (365 * yoe + yoe / 4 - yoe / 100))%Z in
  let mp := ((5 * doy + 2) / 153)%Z in
  let d := (doy - (153 * mp + 2) / 5 + 1)%Z in
  let m := if (mp <? 10)%Z then (mp + 3)%Z else (mp - 9)%Z in
  ((yoe + era * 400 + (if (m <=? 2)%Z then 1 else 0))%Z, m, d).

Definition toISOString (ms : Z) : string :=
  let day := (ms / 86400000)%Z in
  let rest := (ms mod 86400000)%Z in
  let '(y, m, d) := civil_from_days day in
  padded 4 y ++ "-" ++ padded 2 m ++ "-" ++ padded 2 d ++ "T"
  ++ padded 2 (rest / 3600000) ++ ":" ++ padded 2 (rest / 60000 mod 60) ++ ":"
  ++ padded 2 (rest / 1000 mod 60) ++ "." ++ padded 3 (rest mod 1000) ++ "Z".

Definition quote : string := String (ascii_of_nat 34) EmptyString.

(** [JSON.stringify] on documents whose strings need no escaping. *)
Fixpoint stringify (v : value) : string :=
  match v with
  | VUndefined | VNull => "null"
  | VBool true => "true"
  | VBool false => "false"
  | VNum n => pretty n
  | VStr s => quote ++ s ++ quote
  | VArr items =>
      "[" ++ (fix go (l : list value) : string :=
                match l with
                | [] => ""
                | [x] => stringify x
                | x :: rest => stringify x ++ "," ++ go rest
                end) items ++ "]"
  | VObj props =>
      "{" ++ (fix go (l : list (string * value)) : string :=
                match l with
                | [] => ""
                | [(k, x)] => quote ++ k ++ quote ++ ":" ++ stringify x
                | (k, x) :: rest =>
                    quote ++ k ++ quote ++ ":" ++ stringify x ++ "," ++ go rest
                end) props ++ "}"
  end.

Definition mqtt (topic : string) (payload : value) : value :=
  VObj [("type", VStr "mqtt"); ("topic", VStr topic); ("payload", payload)].

Definition engine_running : value :=
  VObj [("status", VStr "RUNNING"); ("mode", VStr "LIVE");
        ("timestamp", VStr "2025-03-01T12:00:00Z")].

Definition heartbeat_ok : value :=
  VObj [("status", VStr "ok"); ("uptime_seconds", VNum 42);
        ("timestamp", VStr "2025-03-01T12:10:00Z")].

Definition engine_frame : value := mqtt "trader/services/engine" engine_running.
Definition heartbeat_frame : value := mqtt "trader/services/heartbeat" heartbeat_ok.
Definition weather_frame : value :=
  mqtt "trader/weather/today" (VObj [("timestamp", VStr "2025-03-01T12:10:00Z")]).

Definition documents : list value :=
  [engine_frame; heartbeat_frame; weather_frame].

(** The inverse of [stringify] on [documents]; every other text fails to
    parse. *)
Definition parse (data : string) : option value :=
  List.find (λ v, String.eqb (stringify v) data) documents.

(** Times of the examples, in milliseconds since the epoch. *)
Definition noon : Z := 1740830400000.            (* 2025-03-01T12:00:00Z *)
Definition ten_past : Z := 1740831000000.        (* 2025-03-01T12:10:00Z *)

(** The trading store of [trading.ts] after the engine frame. *)
Definition engine_seen : trading_common.TradingState :=
  trading_ts.onmessage toISOString parse noon (stringify engine_frame)
    trading_ts.initialState.

(** ... after a stale check ten minutes later. *)
Definition gone_stale : trading_common.TradingState :=
  trading_ts.staleCheck getTime ten_past engine_seen.

(** ... and after the heartbeat frame that then arrives. *)
Definition heartbeat_back : trading_common.TradingState :=
  trading_ts.onmessage toISOString parse (ten_past + 1000)
    (stringify heartbeat_frame) gone_stale.


(** A session of the trading stream: connect, open, one frame,
    disconnect. *)
Definition trading_session : list (Z * host.event) :=
  [ (noon, host.call_connect);
    (noon + 10, host.ev_open 0);
    (noon + 20, host.ev_message 0 (stringify engine_frame));
    (noon + 1000, host.call_disconnect) ].

(** What the host delivers afterwards: the close event of the socket that
    [disconnect] closed, the timer that event set, and the opening of the
    socket the timer made. *)
Definition after_teardown : list (Z * host.event) :=
  [ (noon + 1010, host.ev_close 0);
    (noon + 6010, host.ev_timer 2);
    (noon + 6020, host.ev_open 1) ].

Definition lamp : value :=
  VObj [("id", VNum 1); ("name", VStr "lamp-1"); ("label", VNull);
        ("state", VObj [("switch", VStr "off")])].

(** The device store after loading the lamp. *)
Definition lamp_loaded : devices_store.DeviceState :=
  devices_store.load_resolved [lamp] (VStr "2025-03-01T12:00:00Z")
    (devices_store.load_begin devices_store.created).

(** A session of the device stream: connect, open, disconnect. *)
Definition device_session : list (Z * host.event) :=
  [ (noon, host.call_connect);
    (noon + 10, host.ev_open 0);
    (noon + 1000, host.call_disconnect) ].

(** The device stream loses its connection and its reconnect timer
    fires. *)
Definition connection_lost : list (Z * host.event) :=
  [ (noon, host.call_connect);
    (noon + 10, host.ev_open 0);
    (noon + 1000, host.ev_close 0);
    (noon + 6000, host.ev_timer 2) ].

(** The lamp as the store holds it after the optimistic write and the
    feed update that follows. *)
Definition lamp_switched_on : devices_store.DeviceState :=
  devices_store.setDeviceSwitch (VNum 1) "on" lamp_loaded.

Definition lamp_fed_off : devices_store.DeviceState :=
  default lamp_switched_on
    (devices_store.updateDeviceState (VStr "lamp-1") (VStr "switch") (VStr "off")
       lamp_switched_on).

(** The two streams, open. *)
Definition trading_open : trading_ts.client :=
  default (trading_ts.created noon false)
    (trading_ts.run getTime toISOString parse
       [ (noon, host.call_connect); (noon + 10, host.ev_open 0) ]
       (trading_ts.created noon false)).

Definition device_open : websocket_ts.client :=
  default (websocket_ts.created noon false lamp_loaded)
    (websocket_ts.run parse
       [ (noon, host.call_connect); (noon + 10, host.ev_open 0) ]
       (websocket_ts.created noon false lamp_loaded)).

(** The trading stream after the session, after the close event that
    follows, and after the whole aftermath. *)
Definition torn_down : trading_ts.client :=
  default (trading_ts.created noon false)
    (trading_ts.run getTime toISOString parse trading_session
       (trading_ts.created noon false)).

Definition close_delivered : trading_ts.client :=
  default torn_down
    (trading_ts.run getTime toISOString parse (take 1 after_teardown) torn_down).

Definition reopened : trading_ts.client :=
  default torn_down
    (trading_ts.run getTime toISOString parse after_teardown torn_down).

(** The same for the device stream. *)
Definition device_torn_down : websocket_ts.client :=
  default (websocket_ts.created noon false lamp_loaded)
    (websocket_ts.run parse device_session
       (websocket_ts.created noon false lamp_loaded)).

Definition device_close_delivered : websocket_ts.client :=
  default device_torn_down
    (websocket_ts.run parse (take 1 after_teardown) device_torn_down).

Definition device_reopened : websocket_ts.client :=
  default device_torn_down
    (websocket_ts.run parse after_teardown device_torn_down).

(** The device stream while it waits to reconnect, and once the timer
    has fired. *)
Definition device_waiting : websocket_ts.client :=
  default (websocket_ts.created noon false lamp_loaded)
    (websocket_ts.run parse (take 3 connection_lost)
       (websocket_ts.created noon false lamp_loaded)).

Definition device_retrying : websocket_ts.client :=
  default (websocket_ts.created noon false lamp_loaded)
    (websocket_ts.run parse connection_lost
       (websocket_ts.created noon false lamp_loaded)).

(** The trading store of the later copy after the heartbeat frame that
    follows the stale check. *)
Definition heartbeat_back_next : trading_common.TradingState :=
  default gone_stale
    (trading_next.handleMessage toISOString (ten_past + 1000) heartbeat_frame
       gone_stale).

(** The two open streams after a close event one second later. *)
Definition trading_closed : trading_ts.client :=
  default trading_open
    (trading_ts.step getTime toISOString parse (noon + 1000) (host.ev_close 0)
       trading_open).

Definition device_closed : websocket_ts.client :=
  default device_open
    (websocket_ts.step parse (noon + 1000) (host.ev_close 0) device_open).

(** The two open streams after the peer has started the closing
    handshake, before the close event. *)
Definition trading_closing : trading_ts.client :=
  default (trading_ts.created noon false)
    (trading_ts.run getTime toISOString parse
       [ (noon, host.call_connect); (noon + 10, host.ev_open 0);
         (noon + 500, host.ev_closing 0) ]
       (trading_ts.created noon false)).

Definition device_closing : websocket_ts.client :=
  default (websocket_ts.created noon false lamp_loaded)
    (websocket_ts.run parse
       [ (noon, host.call_connect); (noon + 10, host.ev_open 0);
         (noon + 500, host.ev_closing 0) ]
       (websocket_ts.created noon false lamp_loaded)).

(** A card on the lamp, idle. *)
Definition lamp_card : device_card.world :=
  {| device_card.store := lamp_loaded; device_card.loading := false;
     device_card.console := []; device_card.refreshes := [] |}.

(** A dimmer, on at 40 percent, and the store after loading the lamp and
    the dimmer. *)
Definition dimmer : value :=
  VObj [("id", VNum 2); ("name", VStr "dimmer-2"); ("label", VStr "Desk");
        ("room", VStr "Office"); ("level", VNum 40);
        ("switch_state", VStr "on");
        ("state", VObj [("switch", VStr "on"); ("level", VNum 40)])].

Definition home_loaded : devices_store.DeviceState :=
  devices_store.load_resolved [lamp; dimmer] (VStr "2025-03-01T12:00:00Z")
    (devices_store.load_begin devices_store.created).

Definition home_rooms : list (value * list value) :=
  default [] (devices_store.devicesByRoom home_loaded).

(** A card on the dimmer, idle, and the same card while its toggle
    awaits the command. *)
Definition dimmer_card : device_card.world :=
  {| device_card.store := home_loaded; device_card.loading := false;
     device_card.console := []; device_card.refreshes := [] |}.

Definition dimmer_card_busy : device_card.world :=
  {| device_card.store := home_loaded; device_card.loading := true;
     device_card.console := []; device_card.refreshes := [] |}.

(** The answer of the device stream to a ping. *)
Definition pong_frame : value := VObj [("type", VStr "pong")].

(** History entries of two days, the incremental update for the second
    day, and a store of the later copy that holds the first day. *)
Definition day_one : value :=
  VObj [("date", VStr "2025-02-28"); ("trades", VNum 3)].

Definition day_two : value :=
  VObj [("date", VStr "2025-03-01"); ("trades", VNum 5)].

Definition metrics_two : value :=
  VObj [("date", VStr "2025-03-01"); ("accuracy", VNum 61)].

Definition history_payload : value :=
  VObj [("daily_stats", day_two); ("ml_metrics", metrics_two);
        ("timestamp", VStr "2025-03-01T12:10:00Z")].

Definition history_frame : value := mqtt "trader/history/update" history_payload.

Definition history_loaded : trading_common.TradingState :=
  <[ "historySummary" :=
       VObj [("daily_stats", VArr [day_one]); ("ml_metrics", VArr [])] ]>
    trading_next.initialState.

Definition days_merged : value :=
  default VNull (trading_next.merge_by_date day_two (VArr [day_one])).

(** One entry of an [initial_state] frame for the lamp, and the device
    map after merging it. *)
Definition lamp_attributes : value :=
  VObj [("switch", VStr "on"); ("level", VNum 80)].

Definition lamp_merged : devices_store.DeviceMap :=
  default []
    (devices_store.merge_initial "lamp-1" lamp_attributes
       (devices_store.devices lamp_loaded)).

(** Account currencies that leave most of their fields out, and what
    the reducer makes of them. *)
Definition currencies_payload : value :=
  VObj [("currencies",
         VObj [("CAD", VObj [("cash", VNum 1200)]);
               ("USD", VObj [("settled", VNum 300)])]);
        ("primary_currency", VStr "CAD")].

Definition currencies_update : trading_common.TradingState :=
  default ∅
    (trading_common.account_currencies trading_ts.initialState
       currencies_payload).

(** Frames on two topics that the table has no entry for but inherits
    a member for, a parser that knows them, and the store after each
    has been delivered ten minutes after the engine frame. *)
Definition constructor_frame : value :=
  mqtt "constructor" (VObj [("status", VStr "ok")]).

Definition toString_frame : value :=
  mqtt "toString" (VObj [("status", VStr "ok")]).

Definition parse_inherited (data : string) : option value :=
  List.find (λ v, String.eqb (stringify v) data) [constructor_frame; toString_frame].

Definition constructor_seen : trading_common.TradingState :=
  trading_ts.onmessage toISOString parse_inherited ten_past
    (stringify constructor_frame) engine_seen.

Definition toString_seen : trading_common.TradingState :=
  trading_ts.onmessage toISOString parse_inherited ten_past
    (stringify toString_frame) engine_seen.


(** [parse] extended with the history frame. *)
Definition parse_history (data : string) : option value :=
  if String.eqb data (stringify history_frame) then Some history_frame
  else parse data.

End samples.

(** * Properties *)

Lemma eq_Some_default {A : Type} (d : A) (o : option A) :
  is_some o = true → o = Some (default d o).
Proof. destruct o; [reflexivity | discriminate]. Qed.

(** ** Property lists *)

Lemma assoc_obj_set (a k : string) (v : value) (props : list (string * value)) :
  assoc a (obj_set k v props) = if String.eqb a k then Some v else assoc a props.
Proof.
  induction props as [|[k' v'] rest IH]; simpl.
  - destruct (String.eqb a k); reflexivity.
  - destruct (String.eqb_spec k k') as [->|Hk]; simpl.
    + destruct (String.eqb a k'); reflexivity.
    + rewrite IH. destruct (String.eqb_spec a k') as [->|Ha].
      * destruct (String.eqb_spec k' k) as [->|]; [contradiction | reflexivity].
      * reflexivity.
Qed.

Lemma assoc_obj_set_same (k : string) (v : value) (props : list (string * value)) :
  assoc k (obj_set k v props) = Some v.
Proof. rewrite assoc_obj_set, String.eqb_refl. reflexivity. Qed.

Lemma assoc_obj_set_other (a k : string) (v : value) (props : list (string * value)) :
  a ≠ k → assoc a (obj_set k v props) = assoc a props.
Proof.
  intros Hne. rewrite assoc_obj_set.
  destruct (String.eqb_spec a k); [contradiction | reflexivity].
Qed.

Lemma own_props_falsy (v : value) : truthy v = false → own_props v = [].
Proof.
  destruct v as [| |b|n|s|items|props]; simpl; try reflexivity; try discriminate.
  destruct s; [reflexivity | discriminate].
Qed.

(** ** The stale check and the derived status *)

Section StaleProperties.

Import trading_common.

Variable Date_getTime : value → option Z.
Variable THRESHOLD : Z.

Let isDataStale := trading_common.isDataStale Date_getTime THRESHOLD.
Let staleCheck := trading_common.staleCheck Date_getTime THRESHOLD.
Let traderStatus := trading_common.traderStatus Date_getTime THRESHOLD.

Lemma isDataStale_old (now lastTime : Z) (lastUpdate : value) :
  Date_getTime lastUpdate = Some lastTime →
  (THRESHOLD < now - lastTime)%Z →
  isDataStale now lastUpdate = true.
Proof.
  intros Hget Hold. unfold isDataStale, trading_common.isDataStale.
  destruct (truthy lastUpdate); simpl; [| reflexivity].
  rewrite Hget. apply Z.ltb_lt. exact Hold.
Qed.

Lemma isDataStale_fresh (now lastTime : Z) (lastUpdate : value) :
  truthy lastUpdate = true →
  Date_getTime lastUpdate = Some lastTime →
  (now - lastTime <= THRESHOLD)%Z →
  isDataStale now lastUpdate = false.
Proof.
  intros Htruthy Hget Hfresh. unfold isDataStale, trading_common.isDataStale.
  rewrite Htruthy, Hget. simpl. apply Z.ltb_ge. exact Hfresh.
Qed.

(** With data present, the derived status is decided by staleness
    first. *)
Lemma traderStatus_stale (now : Z) (trading : TradingState) :
  truthy (field trading "engine") || truthy (field trading "heartbeat") = true →
  isDataStale now (field trading "lastUpdate") = true →
  status (traderStatus now trading) = OFFLINE
  ∧ isStale (traderStatus now trading) = true.
Proof.
  intros Hdata Hstale. unfold traderStatus, trading_common.traderStatus.
  fold isDataStale. rewrite Hstale.
  destruct (truthy (field trading "engine")),
           (truthy (field trading "heartbeat")); simpl in *;
    try discriminate; split; reflexivity.
Qed.


(** What a tick that finds the data stale does to the state. *)
Lemma staleCheck_stale (now : Z) (state : TradingState) :
  truthy (field state "lastUpdate") = true →
  isDataStale now (field state "lastUpdate") = true →
  staleCheck now state =
    <[ "error" := VStr "Trader offline - no heartbeat received" ]>
      (<[ "engine" :=
            if truthy (field state "engine")
            then VObj (obj_set "status" (VStr "DOWN") (own_props (field state "engine")))
            else VNull ]> state).
Proof.
  intros Htruthy Hstale. unfold staleCheck, trading_common.staleCheck.
  fold isDataStale. rewrite Htruthy, Hstale. reflexivity.
Qed.

End StaleProperties.

(** ** The reducers *)

Section Reducers.

Import trading_common.

Lemma slice_ignores_state (f : string) : ignores_state (slice f).
Proof. intros s s' p. reflexivity. Qed.

Lemma slice_writes_slice (f : string) :
  f ≠ "lastUpdate" → f ≠ "error" → writes_slice (slice f).
Proof.
  intros Hlu Herr. exists f. repeat split; try assumption.
  intros s p u [= <-]. exists p. split; [reflexivity | tauto].
Qed.

Lemma collection_ignores_state (f key : string) : ignores_state (collection f key).
Proof. intros s s' p. reflexivity. Qed.

Lemma collection_writes_slice (f key : string) :
  f ≠ "lastUpdate" → f ≠ "error" → f ≠ "engine" → f ≠ "heartbeat" →
  writes_slice (collection f key).
Proof.
  intros Hlu Herr Heng Hhb. exists f. repeat split; try assumption.
  intros s p u Hu. unfold collection in Hu.
  destruct (get p key) as [data|]; simpl in Hu; [| discriminate].
  injection Hu as <-. eexists. split; [reflexivity |].
  intros [?|?]; contradiction.
Qed.

Lemma account_currencies_writes_slice : writes_slice account_currencies.
Proof.
  exists "currencies". repeat split; try discriminate.
  intros s p u Hu. unfold account_currencies in Hu.
  destruct (get p "base_currency"); simpl in Hu; [| discriminate].
  destruct (get p "primary_currency"); simpl in Hu; [| discriminate].
  destruct (get p "currencies") as [c|]; simpl in Hu; [| discriminate].
  destruct (if truthy c then transform_currencies (own_props c) [] else Some []);
    simpl in Hu; [| discriminate].
  injection Hu as <-. eexists. split; [reflexivity |].
  intros [?|?]; discriminate.
Qed.

Lemma capital_allocation_writes_slice : writes_slice capital_allocation.
Proof.
  exists "capital". repeat split; try discriminate.
  intros s p u Hu. unfold capital_allocation in Hu.
  destruct (get p "stock"); simpl in Hu; [| discriminate].
  destruct (get p "forex"); simpl in Hu; [| discriminate].
  destruct (get p "reserve"); simpl in Hu; [| discriminate].
  destruct (get p "session"); simpl in Hu; [| discriminate].
  injection Hu as <-. eexists. split; [reflexivity |].
  intros [?|?]; discriminate.
Qed.

Lemma control_status_writes_slice : writes_slice control_status.
Proof.
  exists "marketControl". repeat split; try discriminate.
  intros s p u Hu. unfold control_status in Hu.
  destruct (get p "stock"); simpl in Hu; [| discriminate].
  destruct (get p "forex"); simpl in Hu; [| discriminate].
  destruct (get p "stock_enabled"); simpl in Hu; [| discriminate].
  destruct (get p "forex_enabled"); simpl in Hu; [| discriminate].
  destruct (get p "stock_reason"); simpl in Hu; [| discriminate].
  destruct (get p "forex_reason"); simpl in Hu; [| discriminate].
  injection Hu as <-. eexists. split; [reflexivity |].
  intros [?|?]; discriminate.
Qed.

Create HintDb reducers.
Hint Resolve slice_ignores_state collection_ignores_state : reducers.
Hint Resolve account_currencies_writes_slice capital_allocation_writes_slice
  control_status_writes_slice : reducers.

(** Every reducer of the shared table writes one slice and does not
    read the state. *)
Lemma shared_handlers_spec (topic : string) (h : handler) :
  lookup_handler shared_handlers topic = Some h →
  writes_slice h ∧ ignores_state h.
Proof.
  unfold shared_handlers. simpl. intros H.
  repeat match type of H with
         | (if ?c then _ else _) = Some _ =>
             destruct c;
             [ injection H as <-; split;
               [ first [ apply slice_writes_slice; discriminate
                       | apply collection_writes_slice; discriminate
                       | auto with reducers ]
               | first [ apply slice_ignores_state
                       | apply collection_ignores_state
                       | intros ? ? ?; reflexivity ] ]
             | ]
         end.
  discriminate.
Qed.

Lemma Object_prototype_spec (name : string) (h : handler) :
  Object_prototype name = Some h →
  h = Object_constructor ∨ h = Object_toString ∨ h = raises.
Proof.
  unfold Object_prototype.
  destruct (String.eqb name "constructor"); [intros [= <-]; auto |].
  destruct (String.eqb name "toString"); [intros [= <-]; auto |].
  destruct (existsb _ _); [intros [= <-]; auto | discriminate].
Qed.

Lemma member_spec (table : list (string * handler)) (topic : string) (h : handler) :
  member table topic = Some h →
  lookup_handler table topic = Some h
  ∨ (lookup_handler table topic = None
     ∧ (h = Object_constructor ∨ h = Object_toString ∨ h = raises)).
Proof.
  unfold member. destruct (lookup_handler table topic) as [h'|].
  - intros [= <-]. auto.
  - intros Hproto. right. split; [reflexivity |].
    eapply Object_prototype_spec. exact Hproto.
Qed.

Lemma Object_constructor_returns (s : TradingState) (p : value) (u : TradingState) :
  Object_constructor s p = Some u → u = s.
Proof. unfold Object_constructor. congruence. Qed.

Lemma Object_toString_returns (s : TradingState) (p : value) (u : TradingState) :
  Object_toString s p = Some u → u = undefined_tag.
Proof. unfold Object_toString. congruence. Qed.

(** The characters sit under their indices, not under any name. *)
Lemma undefined_tag_unnamed (k : string) :
  k ∈ ["error"; "connected"; "lastUpdate"; "engine"; "heartbeat"] →
  undefined_tag !! k = None.
Proof.
  intros Hk. repeat (apply elem_of_cons in Hk as [-> | Hk]; [reflexivity |]).
  inversion Hk.
Qed.

(** Every member but [constructor] does not read the state. *)
Lemma Object_toString_ignores_state : ignores_state Object_toString.
Proof. intros s s' p. reflexivity. Qed.

Lemma raises_ignores_state : ignores_state raises.
Proof. intros s s' p. reflexivity. Qed.

(** What is found under a topic in [trading.ts]: a reducer of the
    table, or a member of [Object.prototype]. *)
Lemma TOPIC_HANDLERS_spec (topic : string) (h : handler) :
  trading_ts.TOPIC_HANDLERS topic = Some h →
  (writes_slice h ∧ ignores_state h)
  ∨ h = Object_constructor ∨ h = Object_toString ∨ h = raises.
Proof.
  intros Hh. apply member_spec in Hh as [Hown | [_ Hproto]].
  - left. eapply shared_handlers_spec. exact Hown.
  - right. exact Hproto.
Qed.

Lemma TOPIC_HANDLERS_ignore_state (topic : string) (h : handler) :
  trading_ts.TOPIC_HANDLERS topic = Some h →
  ignores_state h ∨ h = Object_constructor.
Proof.
  intros Hh. destruct (TOPIC_HANDLERS_spec _ _ Hh) as [[_ ?] | [-> | [-> | ->]]];
    auto using Object_toString_ignores_state, raises_ignores_state.
Qed.

(** Merging a state into itself and merging twice. *)
Lemma union_self (state : TradingState) : state ∪ state = state.
Proof.
  apply map_eq. intros k. rewrite lookup_union.
  destruct (state !! k); reflexivity.
Qed.

Lemma union_twice (u state : TradingState) : u ∪ (u ∪ state) = u ∪ state.
Proof.
  apply map_eq. intros k. rewrite !lookup_union.
  destruct (u !! k), (state !! k); reflexivity.
Qed.

End Reducers.

(** ** Message handling in [trading.ts] *)

Section TradingTs.

Import trading_common.

Variable Date_getTime : value → option Z.
Variable Date_toISOString : Z → string.
Variable JSON_parse : string → option value.

Let traderStatus := trading_ts.traderStatus Date_getTime.
Let staleCheck := trading_ts.staleCheck Date_getTime.
Let isDataStale := trading_ts.isDataStale Date_getTime.
Let messageTime := trading_ts.messageTime Date_toISOString.
Let handleMessage := trading_ts.handleMessage Date_toISOString.
Let onmessage := trading_ts.onmessage Date_toISOString JSON_parse.

Lemma handleMessage_accepted (now : Z) (message topic payload : value)
    (h : handler) (u state : TradingState) :
  data_message message topic payload →
  trading_ts.TOPIC_HANDLERS (to_string topic) = Some h →
  h state payload = Some u →
  handleMessage now message state
  = Some (<[ "lastUpdate" := messageTime now payload ]> (u ∪ state)).
Proof.
  intros (Htype & Htopic & Htt & Hpayload & Htp) Hh Hu.
  unfold handleMessage, trading_ts.handleMessage.
  rewrite Htype, Htopic, Hpayload. simpl.
  rewrite Htt, Htp, Hh. simpl. rewrite Hu. reflexivity.
Qed.

Lemma handleMessage_raises (now : Z) (message topic payload : value)
    (h : handler) (state : TradingState) :
  data_message message topic payload →
  trading_ts.TOPIC_HANDLERS (to_string topic) = Some h →
  h state payload = None →
  handleMessage now message state = None.
Proof.
  intros (Htype & Htopic & Htt & Hpayload & Htp) Hh Hu.
  unfold handleMessage, trading_ts.handleMessage.
  rewrite Htype, Htopic, Hpayload. simpl.
  rewrite Htt, Htp, Hh. simpl. rewrite Hu. reflexivity.
Qed.


(** X24.  No message writes [error] in this copy: whatever is found
    under its topic, an entry of the table or a member the table
    inherits, [error] is left as it was when the handler returns. *)
Lemma handleMessage_keeps_error (now : Z) (message : value)
    (state state' : TradingState) :
  handleMessage now message state = Some state' →
  state' !! "error" = state !! "error".
Proof.
  unfold handleMessage, trading_ts.handleMessage. intros H.
  destruct (get message "type") as [type|]; simpl in H; [| discriminate].
  destruct (get message "topic") as [topic|]; simpl in H; [| discriminate].
  destruct (get message "payload") as [payload|]; simpl in H; [| discriminate].
  destruct (strict_equals type (VStr "mqtt") && truthy topic && truthy payload);
    [| congruence].
  destruct (trading_ts.TOPIC_HANDLERS (to_string topic)) as [h|] eqn:Hh;
    [| congruence].
  destruct (h state payload) as [u|] eqn:Hu; simpl in H; [| discriminate].
  injection H as <-.
  rewrite lookup_insert_ne by discriminate.
  destruct (TOPIC_HANDLERS_spec _ _ Hh)
    as [[(f & Hlu & Herr & Hshape) _] | [-> | [-> | ->]]].
  - destruct (Hshape _ _ _ Hu) as (v & -> & _).
    rewrite lookup_union_r; [reflexivity |].
    apply lookup_singleton_ne. congruence.
  - apply Object_constructor_returns in Hu as ->. rewrite union_self. reflexivity.
  - apply Object_toString_returns in Hu as ->.
    rewrite lookup_union_r; [reflexivity |].
    apply undefined_tag_unnamed.
    repeat first [apply list_elem_of_here | apply list_elem_of_further].
  - discriminate.
Qed.




End TradingTs.

(** ** The trading stream: staleness, recovery, dropped frames, replay *)

Section TradingStream.

Import trading_common.

Variable Date_getTime : value → option Z.
Variable Date_toISOString : Z → string.
Variable JSON_parse : string → option value.

(** C1.  With engine or heartbeat data received and a last accepted
    timestamp older than the threshold, the derived trader status is
    OFFLINE with [isStale = true], whatever the stored engine status
    says. *)
Theorem C1_stale_data_reports_offline (now lastTime : Z) (state : TradingState) :
  data_present state = true →
  Date_getTime (field state "lastUpdate") = Some lastTime →
  (trading_ts.STALE_THRESHOLD_MS < now - lastTime)%Z →
  status (trading_ts.traderStatus Date_getTime now state) = OFFLINE
  ∧ isStale (trading_ts.traderStatus Date_getTime now state) = true.
Proof.
  intros Hdata Hget Hold.
  apply traderStatus_stale; [exact Hdata |].
  eapply isDataStale_old; eassumption.
Qed.


(** C3, amended.  A tick that finds the data stale keeps every property
    of the state other than [engine] and [error], and every attribute
    of the engine slice other than [status]; it sets the status of an
    existing engine slice to DOWN and [error] to the offline message. *)
Theorem C3_stale_check_frame (now : Z) (state : TradingState) :
  truthy (field state "lastUpdate") = true →
  trading_ts.isDataStale Date_getTime now (field state "lastUpdate") = true →
  (∀ k, k ≠ "engine" → k ≠ "error" →
     trading_ts.staleCheck Date_getTime now state !! k = state !! k)
  ∧ (∀ a, a ≠ "status" →
       assoc a (own_props (field (trading_ts.staleCheck Date_getTime now state) "engine"))
       = assoc a (own_props (field state "engine")))
  ∧ (truthy (field state "engine") = true →
       get_opt (field (trading_ts.staleCheck Date_getTime now state) "engine") "status"
       = VStr "DOWN")
  ∧ (truthy (field state "engine") = false →
       field (trading_ts.staleCheck Date_getTime now state) "engine" = VNull)
  ∧ field (trading_ts.staleCheck Date_getTime now state) "error"
    = VStr "Trader offline - no heartbeat received".
Proof.
  intros Htruthy Hstale. unfold trading_ts.staleCheck, trading_ts.isDataStale in *.
  rewrite (staleCheck_stale _ _ _ _ Htruthy Hstale).
  assert (Hengine : ∀ e,
            field (<[ "error" := VStr "Trader offline - no heartbeat received" ]>
                     (<[ "engine" := e ]> state)) "engine" = e).
  { intros e. unfold field.
    rewrite lookup_insert_ne by discriminate.
    rewrite lookup_insert_eq. reflexivity. }
  repeat split.
  - intros k Hengine' Herror.
    rewrite lookup_insert_ne by congruence.
    rewrite lookup_insert_ne by congruence. reflexivity.
  - intros a Ha. rewrite Hengine.
    destruct (truthy (field state "engine")) eqn:Het; simpl.
    + apply assoc_obj_set_other. exact Ha.
    + rewrite (own_props_falsy _ Het). reflexivity.
  - intros Het. rewrite Hengine, Het. unfold get_opt. simpl.
    rewrite assoc_obj_set_same. reflexivity.
  - intros Het. rewrite Hengine, Het. reflexivity.
  - unfold field. rewrite lookup_insert_eq. reflexivity.
Qed.


(** C10.  Delivering the same frame twice, when its topic has a reducer
    and its payload carries a timestamp, leaves the state as the first
    delivery left it. *)
Theorem C10_replay_is_idempotent (now1 now2 : Z) (data : string)
    (message topic payload : value) (h : handler) (state : TradingState) :
  JSON_parse data = Some message →
  data_message message topic payload →
  trading_ts.TOPIC_HANDLERS (to_string topic) = Some h →
  truthy (get_opt payload "timestamp") = true →
  trading_ts.onmessage Date_toISOString JSON_parse now2 data
    (trading_ts.onmessage Date_toISOString JSON_parse now1 data state)
  = trading_ts.onmessage Date_toISOString JSON_parse now1 data state.
Proof.
  intros Hparse Hmsg Hh Hts. unfold trading_ts.onmessage. rewrite Hparse.
  assert (Hmt : ∀ now, trading_ts.messageTime Date_toISOString now payload
                       = get_opt payload "timestamp").
  { intros now. unfold trading_ts.messageTime, or_else. rewrite Hts. reflexivity. }
  destruct (h state payload) as [u|] eqn:Hu.
  - rewrite (handleMessage_accepted _ _ _ _ _ _ _ _ Hmsg Hh Hu). simpl.
    rewrite Hmt.
    destruct (TOPIC_HANDLERS_ignore_state _ _ Hh) as [Hpure | ->].
    + assert (Hu' : h (<[ "lastUpdate" := get_opt payload "timestamp" ]> (u ∪ state))
                      payload = Some u) by (rewrite <- Hu; apply Hpure).
      rewrite (handleMessage_accepted _ _ _ _ _ _ _ _ Hmsg Hh Hu'). simpl.
      rewrite Hmt. apply map_eq. intros k.
      destruct (decide (k = "lastUpdate")) as [->|Hk].
      * rewrite !lookup_insert_eq. reflexivity.
      * rewrite !lookup_insert_ne by congruence.
        rewrite !lookup_union. rewrite lookup_insert_ne by congruence.
        rewrite lookup_union. destruct (u !! k), (state !! k); reflexivity.
    + injection Hu as <-.
      rewrite (handleMessage_accepted _ _ _ _ _ _ _ _ Hmsg Hh eq_refl). simpl.
      rewrite Hmt, !union_self. apply insert_insert_eq.
  - rewrite (handleMessage_raises _ _ _ _ _ _ _ Hmsg Hh Hu). simpl.
    rewrite (handleMessage_raises _ _ _ _ _ _ _ Hmsg Hh Hu). reflexivity.
Qed.

End TradingStream.

(** *** The trading stream on the sample host *)

Import trading_common.

Lemma C1_stale_data_reports_offline_witness :
  get_opt (field samples.engine_seen "engine") "status" = VStr "RUNNING"
  ∧ status (trading_ts.traderStatus samples.getTime samples.ten_past
              samples.engine_seen) = OFFLINE
  ∧ isStale (trading_ts.traderStatus samples.getTime samples.ten_past
               samples.engine_seen) = true.
Proof.
  split; [reflexivity |].
  apply (C1_stale_data_reports_offline samples.getTime samples.ten_past
           samples.noon samples.engine_seen);
    vm_compute; reflexivity.
Defined.



(** C3, as stated, fails: the tick replaces the engine status RUNNING by
    DOWN. *)
Lemma C3_stale_check_overwrites_engine_status :
  get_opt (field samples.engine_seen "engine") "status" = VStr "RUNNING"
  ∧ samples.gone_stale
    = trading_ts.staleCheck samples.getTime samples.ten_past samples.engine_seen
  ∧ get_opt (field samples.gone_stale "engine") "status" = VStr "DOWN"
  ∧ get_opt (field samples.gone_stale "engine") "status"
    ≠ get_opt (field samples.engine_seen "engine") "status".
Proof. repeat split; try (vm_compute; reflexivity). vm_compute. discriminate. Qed.

Lemma C3_stale_check_frame_witness :
  (∀ k, k ≠ "engine" → k ≠ "error" →
     samples.gone_stale !! k = samples.engine_seen !! k)
  ∧ (∀ a, a ≠ "status" →
       assoc a (own_props (field samples.gone_stale "engine"))
       = assoc a (own_props (field samples.engine_seen "engine")))
  ∧ (truthy (field samples.engine_seen "engine") = true →
       get_opt (field samples.gone_stale "engine") "status" = VStr "DOWN")
  ∧ (truthy (field samples.engine_seen "engine") = false →
       field samples.gone_stale "engine" = VNull)
  ∧ field samples.gone_stale "error" = VStr "Trader offline - no heartbeat received".
Proof.
  apply (C3_stale_check_frame samples.getTime samples.ten_past samples.engine_seen);
    vm_compute; reflexivity.
Defined.


Lemma C10_replay_is_idempotent_witness :
  trading_ts.onmessage samples.toISOString samples.parse (samples.ten_past + 5000)
    (samples.stringify samples.heartbeat_frame)
    (trading_ts.onmessage samples.toISOString samples.parse samples.ten_past
       (samples.stringify samples.heartbeat_frame) samples.engine_seen)
  = trading_ts.onmessage samples.toISOString samples.parse samples.ten_past
      (samples.stringify samples.heartbeat_frame) samples.engine_seen.
Proof.
  apply (C10_replay_is_idempotent samples.toISOString samples.parse
           samples.ten_past (samples.ten_past + 5000)
           (samples.stringify samples.heartbeat_frame)
           samples.heartbeat_frame (VStr "trader/services/heartbeat")
           samples.heartbeat_ok (slice "heartbeat")).
  - vm_compute. reflexivity.
  - repeat split; reflexivity.
  - reflexivity.
  - reflexivity.
Defined.

(** C8.  The table has no entry for the topics [constructor] and
    [toString], yet a data message on either is handled: what the table
    inherits under that name is called as the reducer.  Delivered to a
    store whose data had gone stale, the first stamps [lastUpdate] with
    the time of receipt, so that the status turns from OFFLINE to
    RUNNING; the second does the same and adds one property for each
    character of ["[object Undefined]"]. *)
Theorem C8_inherited_topic_is_handled :
  lookup_handler shared_handlers "constructor" = None
  ∧ lookup_handler shared_handlers "toString" = None
  ∧ samples.parse_inherited (samples.stringify samples.constructor_frame)
    = Some samples.constructor_frame
  ∧ samples.parse_inherited (samples.stringify samples.toString_frame)
    = Some samples.toString_frame
  ∧ field samples.engine_seen "lastUpdate" = VStr "2025-03-01T12:00:00Z"
  ∧ status (trading_ts.traderStatus samples.getTime samples.ten_past
              samples.engine_seen) = OFFLINE
  ∧ trading_ts.handleMessage samples.toISOString samples.ten_past
      samples.constructor_frame samples.engine_seen = Some samples.constructor_seen
  ∧ field samples.constructor_seen "lastUpdate" = VStr "2025-03-01T12:10:00.000Z"
  ∧ status (trading_ts.traderStatus samples.getTime samples.ten_past
              samples.constructor_seen) = RUNNING
  ∧ trading_ts.handleMessage samples.toISOString samples.ten_past
      samples.toString_frame samples.engine_seen = Some samples.toString_seen
  ∧ field samples.toString_seen "lastUpdate" = VStr "2025-03-01T12:10:00.000Z"
  ∧ field samples.engine_seen "0" = VUndefined
  ∧ field samples.toString_seen "0" = VStr "["
  ∧ field samples.toString_seen "17" = VStr "]"
  ∧ size samples.toString_seen = (size samples.engine_seen + 18)%nat.
Proof.
  split; [reflexivity |]. split; [reflexivity |].
  split; [vm_compute; reflexivity |]. split; [vm_compute; reflexivity |].
  split; [vm_compute; reflexivity |]. split; [vm_compute; reflexivity |].
  split; [apply eq_Some_default; vm_compute; reflexivity |].
  split; [vm_compute; reflexivity |]. split; [vm_compute; reflexivity |].
  split; [apply eq_Some_default; vm_compute; reflexivity |].
  split; [vm_compute; reflexivity |]. split; [vm_compute; reflexivity |].
  split; [vm_compute; reflexivity |]. split; [vm_compute; reflexivity |].
  vm_compute. reflexivity.
Qed.

(** ** Timers of the host *)

Section HostProperties.

Import host.

Context {callback : Type} `{EqDecision callback}.

Implicit Types (e : env callback) (t : timer callback) (cb : callback).

Lemma pending_set_timer cb cb' (delay : Z) (repeats : bool) e :
  pending cb (set_timer cb' delay repeats e).1
  = (pending cb e ++ (if decide (cb' = cb) then [next_timer e] else []))%list.
Proof.
  unfold pending, set_timer. simpl.
  rewrite filter_app, fmap_app. f_equal.
  rewrite filter_cons, filter_nil. simpl.
  destruct (decide (cb' = cb)); reflexivity.
Qed.

Lemma fmap_filter_by_id (id : nat)
    (Q : timer callback → Prop) `{∀ t, Decision (Q t)} (l : list (timer callback)) :
  timer_id <$> filter Q (filter (λ t, timer_id t ≠ id) l)
  = filter (λ i, i ≠ id) (timer_id <$> filter Q l).
Proof.
  induction l as [|t l IH]; [reflexivity |].
  rewrite !filter_cons.
  destruct (decide (timer_id t ≠ id)) as [HP|HP], (decide (Q t)) as [HQ|HQ].
  - rewrite filter_cons, decide_True by assumption.
    rewrite !fmap_cons, filter_cons, decide_True by assumption.
    rewrite IH. reflexivity.
  - rewrite filter_cons, decide_False by assumption. exact IH.
  - rewrite fmap_cons, filter_cons, decide_False by assumption. exact IH.
  - exact IH.
Qed.

Lemma pending_clear_timer cb (id : nat) e :
  pending cb (clear_timer id e) = filter (λ i, i ≠ id) (pending cb e).
Proof.
  unfold pending, clear_timer. simpl.
  apply fmap_filter_by_id.
Qed.

Lemma pending_take_timer cb t e :
  pending cb (take_timer t e)
  = (filter (λ i, i ≠ timer_id t) (pending cb e)
     ++ (if timer_repeats t
         then if decide (timer_cb t = cb) then [timer_id t] else []
         else []))%list.
Proof.
  unfold pending, take_timer. simpl.
  destruct (timer_repeats t).
  - rewrite filter_app, fmap_app.
    rewrite fmap_filter_by_id. f_equal.
    rewrite filter_cons, filter_nil. simpl.
    destruct (decide (timer_cb t = cb)); reflexivity.
  - rewrite fmap_filter_by_id, app_nil_r. reflexivity.
Qed.

Lemma filter_absent (id : nat) (l : list nat) :
  id ∉ l → filter (λ i, i ≠ id) l = l.
Proof.
  induction l as [|i l IH]; [reflexivity |].
  intros Hnot. rewrite not_elem_of_cons in Hnot. destruct Hnot as [Hne Hnot].
  rewrite filter_cons, decide_True by congruence. rewrite IH by assumption.
  reflexivity.
Qed.

Lemma elem_of_pending cb (id : nat) e :
  id ∈ pending cb e ↔ ∃ t, t ∈ timers e ∧ timer_cb t = cb ∧ timer_id t = id.
Proof.
  unfold pending. rewrite list_elem_of_fmap. split.
  - intros (t & -> & Ht). apply list_elem_of_filter in Ht as [Hcb Ht]. eauto.
  - intros (t & Ht & Hcb & <-). exists t. split; [reflexivity |].
    apply list_elem_of_filter. auto.
Qed.

Lemma same_id_same_timer (l : list (timer callback)) t t' :
  NoDup (timer_id <$> l) → t ∈ l → t' ∈ l → timer_id t = timer_id t' → t = t'.
Proof.
  induction l as [|x l IH]; intros Hnd Ht Ht' Hid.
  - inversion Ht.
  - rewrite fmap_cons in Hnd. apply NoDup_cons in Hnd as [Hx Hnd].
    apply elem_of_cons in Ht as [->|Ht]; apply elem_of_cons in Ht' as [->|Ht'].
    + reflexivity.
    + exfalso. apply Hx. rewrite Hid. apply list_elem_of_fmap. eauto.
    + exfalso. apply Hx. rewrite <- Hid. apply list_elem_of_fmap. eauto.
    + auto.
Qed.

(** A pending timer of another callback is not among those of [cb]. *)
Lemma other_callback_not_pending cb t e :
  timers_wf e → t ∈ timers e → timer_cb t ≠ cb → timer_id t ∉ pending cb e.
Proof.
  intros [Hnd _] Ht Hcb Hin.
  apply elem_of_pending in Hin as (t' & Ht' & Hcb' & Hid).
  assert (t' = t) by (eapply same_id_same_timer; eassumption).
  congruence.
Qed.

Lemma find_timer_Some (id : nat) e t :
  find_timer id e = Some t → t ∈ timers e ∧ timer_id t = id.
Proof.
  unfold find_timer. intros Hfind.
  apply List.find_some in Hfind as [Hin Heq].
  split; [apply list_elem_of_In; exact Hin | apply Nat.eqb_eq; exact Heq].
Qed.

Lemma Forall_filter_keep {A} (P Q : A → Prop) `{∀ x, Decision (Q x)} (l : list A) :
  Forall P l → Forall P (filter Q l).
Proof.
  rewrite !Forall_forall. intros Hall x Hx.
  apply list_elem_of_filter in Hx as [_ Hx]. auto.
Qed.

Lemma timers_wf_set_timer cb (delay : Z) (repeats : bool) e :
  timers_wf e → timers_wf (set_timer cb delay repeats e).1.
Proof.
  intros [Hnd Hlt]. unfold timers_wf, set_timer. simpl. split.
  - rewrite fmap_app. apply NoDup_app. split; [exact Hnd |]. split.
    + intros i Hi Hnew. apply list_elem_of_fmap in Hi as (t & -> & Ht).
      apply list_elem_of_singleton in Hnew. simpl in Hnew.
      rewrite Forall_forall in Hlt. specialize (Hlt t Ht). simpl in Hlt. lia.
    + apply NoDup_singleton.
  - apply Forall_app. split.
    + eapply Forall_impl; [exact Hlt |]. simpl. intros; lia.
    + apply Forall_singleton. simpl. lia.
Qed.

Lemma timers_wf_clear_timer (id : nat) e :
  timers_wf e → timers_wf (clear_timer id e).
Proof.
  intros [Hnd Hlt]. unfold timers_wf, clear_timer. simpl. split.
  - eapply sublist_NoDup; [exact Hnd |].
    apply fmap_sublist, sublist_filter.
  - apply Forall_filter_keep. exact Hlt.
Qed.

Lemma timers_wf_take_timer t e :
  timers_wf e → t ∈ timers e → timers_wf (take_timer t e).
Proof.
  intros Hwf Ht. pose proof (timers_wf_clear_timer (timer_id t) e Hwf) as [Hnd Hlt].
  destruct Hwf as [_ Hall]. rewrite Forall_forall in Hall.
  unfold timers_wf, take_timer, clear_timer in *. simpl in *.
  destruct (timer_repeats t); [| split; assumption]. split.
  - rewrite fmap_app. apply NoDup_app. split; [exact Hnd |]. split.
    + intros i Hi Hnew. apply list_elem_of_singleton in Hnew. simpl in Hnew.
      apply list_elem_of_fmap in Hi as (t' & -> & Ht').
      apply list_elem_of_filter in Ht' as [Hne _]. contradiction.
    + apply NoDup_singleton.
  - apply Forall_app. split; [exact Hlt |].
    apply Forall_singleton. simpl. apply Hall. exact Ht.
Qed.

Lemma timeouts_of_set_timer cb cb' (delay delay' : Z) (repeats : bool) e :
  (cb' = cb → repeats = false ∧ delay' = delay) →
  timeouts_of cb delay e → timeouts_of cb delay (set_timer cb' delay' repeats e).1.
Proof.
  intros Hnew Hall. unfold timeouts_of, set_timer. simpl.
  apply Forall_app. split; [exact Hall |].
  apply Forall_singleton. simpl. exact Hnew.
Qed.

Lemma timeouts_of_clear_timer cb (delay : Z) (id : nat) e :
  timeouts_of cb delay e → timeouts_of cb delay (clear_timer id e).
Proof. intros Hall. apply Forall_filter_keep. exact Hall. Qed.

Lemma timeouts_of_take_timer cb (delay : Z) t e :
  timeouts_of cb delay e → t ∈ timers e → timeouts_of cb delay (take_timer t e).
Proof.
  intros Hall Ht. pose proof (timeouts_of_clear_timer cb delay (timer_id t) e Hall) as Hrest.
  unfold timeouts_of in Hall. rewrite Forall_forall in Hall.
  specialize (Hall t Ht).
  unfold timeouts_of, take_timer, clear_timer in *. simpl in *.
  destruct (timer_repeats t) eqn:Hrep; [| exact Hrest].
  apply Forall_app. split; [exact Hrest |].
  apply Forall_singleton. simpl. intros Hcb.
  destruct (Hall Hcb) as [Hfalse _]. discriminate.
Qed.

End HostProperties.

(** ** Reconnect timers of the trading stream *)

Section TradingConnection.

Import host trading_ts.

Variable Date_getTime : value → option Z.
Variable Date_toISOString : Z → string.
Variable JSON_parse : string → option value.

Let step := trading_ts.step Date_getTime Date_toISOString JSON_parse.
Let run := trading_ts.run Date_getTime Date_toISOString JSON_parse.

(** Leaving the timers and [reconnectTimer] alone keeps a state
    consistent. *)
Lemma consistent_same_timers (c c' : client) :
  timers (host c') = timers (host c) →
  next_timer (host c') = next_timer (host c) →
  reconnectTimer c' = reconnectTimer c →
  consistent c → consistent c'.
Proof.
  unfold consistent, pending_reconnects, timers_wf, timeouts_of, pending.
  intros -> -> ->. tauto.
Qed.

Lemma timers_send (w : option nat) (frame : value) (e : env callback) :
  timers (send w frame e) = timers e ∧ next_timer (send w frame e) = next_timer e.
Proof.
  unfold send. destruct w as [s|]; [destruct (is_open e (Some s)) |];
    split; reflexivity.
Qed.

Lemma timers_close_socket (s : nat) (e : env callback) :
  timers (close_socket s e) = timers e
  ∧ next_timer (close_socket s e) = next_timer e.
Proof.
  unfold close_socket. destruct (ready e s) as [[]|]; split; reflexivity.
Qed.

Lemma consistent_connect (c : client) : consistent c → consistent (connect c).
Proof.
  apply consistent_same_timers; unfold connect;
    destruct (is_open (host c) (ws c)); simpl; try reflexivity;
    destruct (refuses (host c)); reflexivity.
Qed.

Lemma consistent_update (fn : TradingState → TradingState) (c : client) :
  consistent c → consistent (update fn c).
Proof. apply consistent_same_timers; reflexivity. Qed.

Lemma consistent_startStaleCheck (c : client) :
  consistent c → consistent (startStaleCheck c).
Proof.
  intros (Hwf & Hto & Hpending). unfold startStaleCheck.
  destruct (staleCheckTimer c) as [id|]; [exact (conj Hwf (conj Hto Hpending)) |].
  destruct (set_timer staleCheck_cb 30000 true (host c)) as [h id] eqn:Hset.
  assert (Hh : h = (set_timer staleCheck_cb 30000 true (host c)).1)
    by (rewrite Hset; reflexivity).
  unfold consistent, pending_reconnects.
  change (host (with_staleCheckTimer (Some id) (with_host h c))) with h.
  change (reconnectTimer (with_staleCheckTimer (Some id) (with_host h c)))
    with (reconnectTimer c).
  subst h. split; [| split].
  - apply timers_wf_set_timer. exact Hwf.
  - apply timeouts_of_set_timer; [discriminate | exact Hto].
  - rewrite pending_set_timer, decide_False by discriminate.
    rewrite app_nil_r. exact Hpending.
Qed.

Lemma consistent_onopen (c : client) : consistent c → consistent (onopen c).
Proof.
  intros Hc. unfold onopen.
  eapply consistent_same_timers;
    [ apply timers_send | apply timers_send | reflexivity | ].
  apply consistent_startStaleCheck, consistent_update. exact Hc.
Qed.

Lemma consistent_onclose (c : client) : consistent c → consistent (onclose c).
Proof.
  intros Hc. unfold onclose.
  set (c0 := update (λ state, <[ "connected" := VBool false ]> state) c).
  assert (Hc0 : consistent c0) by (apply consistent_update; exact Hc).
  clearbody c0. destruct Hc0 as (Hwf & Hto & Hpending).
  destruct (reconnectTimer c0) as [id|] eqn:Hrt.
  - unfold consistent. rewrite Hrt. auto.
  - destruct (set_timer reconnect_cb 5000 false (host c0)) as [h id] eqn:Hset.
    assert (Hh : h = (set_timer reconnect_cb 5000 false (host c0)).1)
      by (rewrite Hset; reflexivity).
    assert (Hid : id = next_timer (host c0))
      by (unfold set_timer in Hset; congruence).
    unfold consistent, pending_reconnects.
    change (host (with_reconnectTimer (Some id) (with_host h c0))) with h.
    change (reconnectTimer (with_reconnectTimer (Some id) (with_host h c0)))
      with (Some id).
    subst h. split; [| split].
    + apply timers_wf_set_timer. exact Hwf.
    + apply timeouts_of_set_timer; [auto | exact Hto].
    + rewrite pending_set_timer, decide_True by reflexivity.
      unfold pending_reconnects in Hpending. rewrite Hpending, Hid.
      reflexivity.
Qed.

Lemma consistent_disconnect (c : client) :
  consistent c → consistent (disconnect c).
Proof.
  destruct c as [st w rt sct h].
  unfold consistent, pending_reconnects, disconnect, stopStaleCheck. simpl.
  intros (Hwf & Hto & Hpending).
  assert (Hgoal : ∀ e : env callback,
            timers_wf e → timeouts_of reconnect_cb 5000 e →
            pending reconnect_cb e = [] →
            ∀ e', timers e' = timers e → next_timer e' = next_timer e →
              timers_wf e' ∧ timeouts_of reconnect_cb 5000 e'
              ∧ pending reconnect_cb e' = []).
  { unfold timers_wf, timeouts_of, pending. intros e ? ? ? e' -> ->. auto. }
  assert (Hsub : ∀ id, filter (λ i, i ≠ id) (option_list rt) = []
                       ∨ filter (λ i, i ≠ id) (option_list rt) = option_list rt).
  { intros id. destruct rt as [rid|]; simpl; [| auto].
    rewrite filter_cons. destruct (decide (rid ≠ id)); auto. }
  assert (Hclose : ∀ e : env callback,
            timers_wf e → timeouts_of reconnect_cb 5000 e →
            pending reconnect_cb e = [] →
            let e' := match w with Some s => close_socket s e | None => e end in
            timers_wf e' ∧ timeouts_of reconnect_cb 5000 e'
            ∧ pending reconnect_cb e' = []).
  { intros e Hwf' Hto' Hp'. apply (Hgoal e Hwf' Hto' Hp');
      destruct w; try reflexivity; apply timers_close_socket. }
  destruct sct as [sid|]; simpl.
  - pose proof (timers_wf_clear_timer sid h Hwf) as Hwf1.
    pose proof (timeouts_of_clear_timer _ _ sid h Hto) as Hto1.
    pose proof (pending_clear_timer reconnect_cb sid h) as Hp1.
    rewrite Hpending in Hp1.
    destruct rt as [rid|]; simpl.
    + specialize (Hclose (clear_timer rid (clear_timer sid h))).
      destruct w; apply Hclose.
      all: try (apply timers_wf_clear_timer; exact Hwf1).
      all: try (apply timeouts_of_clear_timer; exact Hto1).
      all: rewrite pending_clear_timer, Hp1;
        destruct (Hsub sid) as [-> | ->]; simpl; [reflexivity |];
        rewrite filter_cons, decide_False by tauto; reflexivity.
    + specialize (Hclose (clear_timer sid h) Hwf1 Hto1).
      destruct w; apply Hclose; rewrite Hp1; reflexivity.
  - destruct rt as [rid|]; simpl.
    + specialize (Hclose (clear_timer rid h)).
      destruct w; apply Hclose.
      all: try (apply timers_wf_clear_timer; exact Hwf).
      all: try (apply timeouts_of_clear_timer; exact Hto).
      all: rewrite pending_clear_timer, Hpending; simpl;
        rewrite filter_cons, decide_False by tauto; reflexivity.
    + specialize (Hclose h Hwf Hto Hpending).
      destruct w; apply Hclose.
Qed.

Lemma consistent_fire (now : Z) (t : timer callback) (c : client) :
  consistent c → t ∈ timers (host c) →
  consistent (run_callback Date_getTime now (timer_cb t)
                (with_host (take_timer t (host c)) c))
  ∧ (timer_cb t = reconnect_cb →
     pending_reconnects (run_callback Date_getTime now (timer_cb t)
                           (with_host (take_timer t (host c)) c)) = []).
Proof.
  intros (Hwf & Hto & Hpending) Ht. unfold pending_reconnects in Hpending.
  pose proof (timers_wf_take_timer t (host c) Hwf Ht) as Hwf'.
  pose proof (timeouts_of_take_timer _ _ t (host c) Hto Ht) as Hto'.
  pose proof (pending_take_timer reconnect_cb t (host c)) as Hp'.
  destruct (timer_cb t) eqn:Hcb; simpl.
  - (* the reconnect timeout *)
    unfold timeouts_of in Hto. rewrite Forall_forall in Hto.
    destruct (Hto t Ht Hcb) as [Hrep _]. rewrite Hrep, app_nil_r in Hp'.
    assert (Hin : timer_id t ∈ pending reconnect_cb (host c))
      by (apply elem_of_pending; eauto).
    rewrite Hpending in Hin, Hp'.
    destruct (reconnectTimer c) as [rid|]; simpl in Hin, Hp';
      [| inversion Hin].
    apply list_elem_of_singleton in Hin. subst rid.
    rewrite filter_cons, decide_False in Hp' by tauto. simpl in Hp'.
    assert (Hc1 : consistent (with_reconnectTimer None
                                (with_host (take_timer t (host c)) c)))
      by (split; [exact Hwf' | split; [exact Hto' | exact Hp']]).
    split; [apply consistent_connect; exact Hc1 |].
    intros _. destruct (consistent_connect _ Hc1) as (_ & _ & Hp'').
    rewrite Hp''. unfold connect.
    destruct (is_open _ _); simpl; [reflexivity |].
    destruct (refuses _); reflexivity.
  - (* the stale check interval *)
    split; [| discriminate].
    apply consistent_update. split; [exact Hwf' | split; [exact Hto' |]].
    unfold pending_reconnects. simpl. rewrite Hp'.
    rewrite filter_absent
      by (apply other_callback_not_pending; [exact Hwf | exact Ht | congruence]).
    rewrite Hpending.
    destruct (timer_repeats t); [| apply app_nil_r].
    rewrite decide_False by congruence. apply app_nil_r.
Qed.

Lemma consistent_at_time (now : Z) (c : client) :
  consistent c → consistent (with_host (at_time now (host c)) c).
Proof. apply consistent_same_timers; reflexivity. Qed.

Lemma consistent_set_ready (s : nat) (r : readyState) (c : client) :
  consistent c → consistent (with_host (set_ready s r (host c)) c).
Proof. apply consistent_same_timers; reflexivity. Qed.

Lemma consistent_step (now : Z) (e : event) (c c' : client) :
  consistent c → step now e c = Some c' → consistent c'.
Proof.
  intros Hc. unfold step, trading_ts.step.
  destruct (now <? clock (host c))%Z; [discriminate |].
  apply (consistent_at_time now) in Hc.
  set (c0 := with_host (at_time now (host c)) c) in *. clearbody c0.
  destruct e as [| |s|s data|s|s|id|s].
  - intros [= <-]. apply consistent_connect. exact Hc.
  - intros [= <-]. apply consistent_disconnect. exact Hc.
  - destruct (ready (host c0) s) as [[]|]; try discriminate.
    intros [= <-]. apply consistent_onopen, consistent_set_ready. exact Hc.
  - destruct (ready (host c0) s) as [[]|]; try discriminate.
    intros [= <-]. apply consistent_update. exact Hc.
  - destruct (ready (host c0) s) as [[]|]; try discriminate;
      intros [= <-]; apply consistent_update; exact Hc.
  - destruct (ready (host c0) s) as [[]|]; try discriminate;
      intros [= <-]; apply consistent_onclose, consistent_set_ready; exact Hc.
  - destruct (find_timer id (host c0)) as [t|] eqn:Hfind; [| discriminate].
    destruct (now <? timer_due t)%Z; [discriminate |].
    intros [= <-]. apply consistent_fire; [exact Hc |].
    apply (find_timer_Some id). exact Hfind.
  - destruct (ready (host c0) s) as [[]|]; try discriminate.
    intros [= <-]. apply consistent_set_ready. exact Hc.
Qed.

Lemma consistent_run (trace : list (Z * event)) (c c' : client) :
  consistent c → run trace c = Some c' → consistent c'.
Proof.
  revert c. induction trace as [|[now e] rest IH]; intros c Hc; simpl.
  - intros [= <-]. exact Hc.
  - destruct (trading_ts.step Date_getTime Date_toISOString JSON_parse now e c)
      as [c1|] eqn:Hstep; simpl; [| discriminate].
    apply IH. eapply consistent_step; eassumption.
Qed.

Lemma consistent_created (start : Z) (refuse : bool) :
  consistent (created start refuse).
Proof.
  split; [| split]; [| apply Forall_nil_2 | reflexivity].
  split; [apply NoDup_nil_2 | apply Forall_nil_2].
Qed.

End TradingConnection.

Section TradingReconnect.

Import host trading_ts.

Variable Date_getTime : value → option Z.
Variable Date_toISOString : Z → string.
Variable JSON_parse : string → option value.

Let step := trading_ts.step Date_getTime Date_toISOString JSON_parse.
Let reachable := trading_ts.reachable Date_getTime Date_toISOString JSON_parse.

Lemma reachable_consistent (c : client) : reachable c → consistent c.
Proof.
  intros (start & refuse & trace & Hrun).
  eapply consistent_run; [apply consistent_created | exact Hrun].
Qed.

(** A close event with no reconnect pending schedules one timeout of
    5000 ms; with one pending it schedules nothing. *)
Lemma trading_close_schedules (now : Z) (s : nat) (c c' : client) :
  consistent c →
  step now (ev_close s) c = Some c' →
  (pending_reconnects c = [] →
     ∃ t, timers (host c') = (timers (host c) ++ [t])%list
          ∧ timer_cb t = reconnect_cb ∧ timer_repeats t = false
          ∧ timer_delay t = 5000%Z ∧ timer_due t = (now + 5000)%Z
          ∧ reconnectTimer c' = Some (timer_id t))
  ∧ (pending_reconnects c ≠ [] → timers (host c') = timers (host c))
  ∧ length (pending_reconnects c') = 1%nat.
Proof.
  intros Hc Hstep.
  pose proof (consistent_step _ _ _ _ _ _ _ Hc Hstep) as Hc'.
  destruct Hc as (_ & _ & Hp). destruct Hc' as (_ & _ & Hp').
  unfold step, trading_ts.step in Hstep.
  destruct (now <? clock (host c))%Z; [discriminate |].
  simpl in Hstep.
  destruct (ready (at_time now (host c)) s) as [r|]; [| discriminate].
  assert (Hc' : c' = onclose (with_host (set_ready s CLOSED (at_time now (host c))) c))
    by (destruct r; try discriminate; injection Hstep as <-; reflexivity).
  clear Hstep. unfold onclose in Hc'. simpl in Hc'.
  destruct (reconnectTimer c) as [rid|] eqn:Hrt; subst c'; simpl in *.
  - split; [rewrite Hp; discriminate |].
    split; [intros _; reflexivity |].
    rewrite Hp', Hrt. reflexivity.
  - split; [intros _; eexists; repeat split |].
    split; [intros Hne; exfalso; apply Hne; exact Hp |].
    rewrite Hp'. reflexivity.
Qed.

(** A pending reconnect runs no earlier than its due time, is then
    gone, and calls [connect]. *)
Lemma trading_reconnect_fires (now : Z) (id : nat) (c c' : client) :
  consistent c →
  id ∈ pending_reconnects c →
  step now (ev_timer id) c = Some c' →
  ∃ t, t ∈ timers (host c) ∧ timer_id t = id ∧ (timer_due t <= now)%Z
       ∧ c' = connect (with_reconnectTimer None
                         (with_host (take_timer t (at_time now (host c))) c))
       ∧ pending_reconnects c' = [].
Proof.
  intros Hc Hin Hstep. unfold step, trading_ts.step in Hstep.
  destruct (now <? clock (host c))%Z; [discriminate |].
  simpl in Hstep.
  destruct (find_timer id (at_time now (host c))) as [t|] eqn:Hfind;
    [| discriminate].
  destruct (now <? timer_due t)%Z eqn:Hdue; [discriminate |].
  apply Z.ltb_ge in Hdue. injection Hstep as <-.
  apply find_timer_Some in Hfind as [Ht Hid]. simpl in Ht.
  assert (Hcb : timer_cb t = reconnect_cb).
  { apply elem_of_pending in Hin as (t' & Ht' & Hcb' & Hid').
    destruct Hc as ((Hnd & _) & _).
    assert (t' = t) by (eapply same_id_same_timer; eauto; congruence).
    congruence. }
  exists t. repeat split; try assumption.
  - rewrite Hcb. reflexivity.
  - pose proof (consistent_fire Date_getTime Date_toISOString JSON_parse now t
                  (with_host (at_time now (host c)) c)
                  (consistent_at_time now c Hc) Ht) as [_ Hgone].
    exact (Hgone Hcb).
Qed.

End TradingReconnect.

(** ** Reconnect timers of the device stream *)

Section DeviceConnection.

Import host websocket_ts.

Variable JSON_parse : string → option value.

Lemma ws_consistent_same_timers (c c' : client) :
  timers (host c') = timers (host c) →
  next_timer (host c') = next_timer (host c) →
  reconnectTimer c' = reconnectTimer c →
  pingInterval c' = pingInterval c →
  consistent c → consistent c'.
Proof.
  unfold consistent, pending_reconnects, timers_wf, timeouts_of, pending.
  intros -> -> -> ->. tauto.
Qed.

Lemma ws_timers_send (w : option nat) (frame : value) (e : env callback) :
  timers (send w frame e) = timers e ∧ next_timer (send w frame e) = next_timer e.
Proof.
  unfold send. destruct w as [s|]; [destruct (is_open e (Some s)) |];
    split; reflexivity.
Qed.

Lemma ws_timers_close_socket (s : nat) (e : env callback) :
  timers (close_socket s e) = timers e
  ∧ next_timer (close_socket s e) = next_timer e.
Proof.
  unfold close_socket. destruct (ready e s) as [[]|]; split; reflexivity.
Qed.

Lemma next_timer_not_pending (cb : callback) (e : env callback) :
  timers_wf e → next_timer e ∉ pending cb e.
Proof.
  intros [_ Hlt] Hin. apply elem_of_pending in Hin as (t & Ht & _ & Hid).
  rewrite Forall_forall in Hlt. specialize (Hlt t Ht). simpl in Hlt. lia.
Qed.

Lemma ws_consistent_update (fn : WsState → WsState) (c : client) :
  consistent c → consistent (update fn c).
Proof. apply ws_consistent_same_timers; reflexivity. Qed.

Lemma ws_consistent_connect (c : client) : consistent c → consistent (connect c).
Proof.
  apply ws_consistent_same_timers; unfold connect;
    destruct (is_open (host c) (ws c)); simpl; try reflexivity;
    destruct (refuses (host c)); reflexivity.
Qed.

Lemma ws_consistent_onopen (c : client) : consistent c → consistent (onopen c).
Proof.
  intros Hc. unfold onopen.
  set (c0 := update (λ _, {| connected := true; error := VNull;
                             reconnecting := false |}) c).
  assert (Hc0 : consistent c0) by (apply ws_consistent_update; exact Hc).
  clearbody c0. destruct Hc0 as (Hwf & Hto & Hpending & Hping).
  destruct (set_timer ping_cb 30000 true (host c0)) as [h id] eqn:Hset.
  assert (Hh : h = (set_timer ping_cb 30000 true (host c0)).1)
    by (rewrite Hset; reflexivity).
  assert (Hid : id = next_timer (host c0))
    by (unfold set_timer in Hset; congruence).
  unfold consistent, pending_reconnects in *.
  change (host (with_pingInterval (Some id) (with_host h c0))) with h.
  change (reconnectTimer (with_pingInterval (Some id) (with_host h c0)))
    with (reconnectTimer c0).
  change (pingInterval (with_pingInterval (Some id) (with_host h c0)))
    with (Some id).
  subst h.
  assert (Hsame : pending reconnect_cb
                    (set_timer ping_cb 30000 true (host c0)).1
                  = pending reconnect_cb (host c0)).
  { rewrite pending_set_timer, decide_False by discriminate. apply app_nil_r. }
  split; [| split; [| split]].
  - apply timers_wf_set_timer. exact Hwf.
  - apply timeouts_of_set_timer; [discriminate | exact Hto].
  - rewrite Hsame. exact Hpending.
  - intros id' [= <-]. rewrite Hsame, Hid.
    apply next_timer_not_pending. exact Hwf.
Qed.

Lemma ws_consistent_onclose (c : client) : consistent c → consistent (onclose c).
Proof.
  intros Hc. unfold onclose.
  set (c0 := update (λ state, {| connected := false; error := error state;
                                 reconnecting := reconnecting state |}) c).
  assert (Hc0 : consistent c0) by (apply ws_consistent_update; exact Hc).
  clearbody c0.
  set (c1 := match pingInterval c0 with
             | Some id => with_pingInterval None
                            (with_host (clear_timer id (host c0)) c0)
             | None => c0
             end).
  assert (Hc1 : consistent c1 ∧ pingInterval c1 = None).
  { unfold c1. destruct Hc0 as (Hwf & Hto & Hpending & Hping).
    destruct (pingInterval c0) as [pid|] eqn:Hpi.
    - split; [| reflexivity].
      unfold consistent, pending_reconnects in *. simpl.
      split; [apply timers_wf_clear_timer; exact Hwf |].
      split; [apply timeouts_of_clear_timer; exact Hto |].
      split; [| discriminate].
      rewrite pending_clear_timer, filter_absent by (apply Hping; reflexivity).
      exact Hpending.
    - split; [| exact Hpi].
      unfold consistent. rewrite Hpi. auto. }
  clearbody c1. destruct Hc1 as [(Hwf & Hto & Hpending & _) Hpi].
  destruct (reconnectTimer c1) as [rid|] eqn:Hrt.
  - unfold consistent. rewrite Hrt, Hpi. repeat split; try apply Hwf; try assumption.
    discriminate.
  - set (c2 := update (λ state, {| connected := connected state;
                                   error := error state;
                                   reconnecting := true |}) c1).
    destruct (set_timer reconnect_cb 5000 false (host c2)) as [h id] eqn:Hset.
    assert (Hh : h = (set_timer reconnect_cb 5000 false (host c1)).1)
      by (change (host c2) with (host c1) in Hset; rewrite Hset; reflexivity).
    assert (Hid : id = next_timer (host c1))
      by (unfold set_timer in Hset; simpl in Hset; congruence).
    unfold consistent, pending_reconnects.
    change (host (with_reconnectTimer (Some id) (with_host h c2))) with h.
    change (reconnectTimer (with_reconnectTimer (Some id) (with_host h c2)))
      with (Some id).
    change (pingInterval (with_reconnectTimer (Some id) (with_host h c2)))
      with (pingInterval c1).
    subst h. split; [| split; [| split]].
    + apply timers_wf_set_timer. exact Hwf.
    + apply timeouts_of_set_timer; [auto | exact Hto].
    + rewrite pending_set_timer, decide_True by reflexivity.
      unfold pending_reconnects in Hpending. rewrite Hpending, Hid.
      reflexivity.
    + rewrite Hpi. discriminate.
Qed.

Lemma ws_consistent_disconnect (c : client) :
  consistent c → consistent (disconnect c).
Proof.
  destruct c as [st d w rt pi h].
  unfold consistent, pending_reconnects, disconnect. simpl.
  intros (Hwf & Hto & Hpending & _).
  assert (Hgoal : ∀ e : env callback,
            timers_wf e → timeouts_of reconnect_cb 5000 e →
            pending reconnect_cb e = [] →
            let e' := match w with Some s => close_socket s e | None => e end in
            timers_wf e' ∧ timeouts_of reconnect_cb 5000 e'
            ∧ pending reconnect_cb e' = []
            ∧ (∀ id : nat, None = Some id → id ∉ pending reconnect_cb e')).
  { intros e Hwf' Hto' Hp' e'.
    assert (Ht : timers e' = timers e)
      by (unfold e'; destruct w; try reflexivity; apply ws_timers_close_socket).
    assert (Hn : next_timer e' = next_timer e)
      by (unfold e'; destruct w; try reflexivity; apply ws_timers_close_socket).
    clearbody e'. unfold timers_wf, timeouts_of, pending in *.
    rewrite Ht, Hn. repeat split; try apply Hwf'; try assumption.
    discriminate. }
  assert (Hcleared : ∀ e : env callback,
            timers_wf e → timeouts_of reconnect_cb 5000 e →
            pending reconnect_cb e = [] →
            let e1 := match pi with Some id => clear_timer id e | None => e end in
            timers_wf e1 ∧ timeouts_of reconnect_cb 5000 e1
            ∧ pending reconnect_cb e1 = []).
  { intros e Hwf' Hto' Hp'. destruct pi as [pid|]; simpl; [| auto].
    split; [apply timers_wf_clear_timer; exact Hwf' |].
    split; [apply timeouts_of_clear_timer; exact Hto' |].
    rewrite pending_clear_timer, Hp'. reflexivity. }
  destruct rt as [rid|]; simpl.
  - destruct (Hcleared (clear_timer rid h)) as (Hwf1 & Hto1 & Hp1).
    + apply timers_wf_clear_timer. exact Hwf.
    + apply timeouts_of_clear_timer. exact Hto.
    + rewrite pending_clear_timer, Hpending. simpl.
      rewrite filter_cons, decide_False by tauto. reflexivity.
    + destruct pi as [pid|], w as [s|]; simpl in *;
        apply (Hgoal _ Hwf1 Hto1 Hp1).
  - destruct (Hcleared h Hwf Hto Hpending) as (Hwf1 & Hto1 & Hp1).
    destruct pi as [pid|], w as [s|]; simpl in *;
      apply (Hgoal _ Hwf1 Hto1 Hp1).
Qed.

Lemma ws_consistent_fire (t : timer callback) (c : client) :
  consistent c → t ∈ timers (host c) →
  consistent (run_callback (timer_cb t) (with_host (take_timer t (host c)) c))
  ∧ (timer_cb t = reconnect_cb →
     pending_reconnects
       (run_callback (timer_cb t) (with_host (take_timer t (host c)) c)) = []).
Proof.
  intros (Hwf & Hto & Hpending & Hping) Ht.
  unfold pending_reconnects in Hpending, Hping.
  pose proof (timers_wf_take_timer t (host c) Hwf Ht) as Hwf'.
  pose proof (timeouts_of_take_timer _ _ t (host c) Hto Ht) as Hto'.
  pose proof (pending_take_timer reconnect_cb t (host c)) as Hp'.
  destruct (timer_cb t) eqn:Hcb; simpl.
  - (* the reconnect timeout *)
    unfold timeouts_of in Hto. rewrite Forall_forall in Hto.
    destruct (Hto t Ht Hcb) as [Hrep _]. rewrite Hrep, app_nil_r in Hp'.
    assert (Hin : timer_id t ∈ pending reconnect_cb (host c))
      by (apply elem_of_pending; eauto).
    rewrite Hpending in Hin, Hp'.
    destruct (reconnectTimer c) as [rid|]; simpl in Hin, Hp';
      [| inversion Hin].
    apply list_elem_of_singleton in Hin. subst rid.
    rewrite filter_cons, decide_False in Hp' by tauto. simpl in Hp'.
    assert (Hc1 : consistent (with_reconnectTimer None
                                (with_host (take_timer t (host c)) c))).
    { split; [exact Hwf' | split; [exact Hto' | split; [exact Hp' |]]].
      intros id _. unfold pending_reconnects. simpl. rewrite Hp'.
      apply not_elem_of_nil. }
    split; [apply ws_consistent_connect; exact Hc1 |].
    intros _. destruct (ws_consistent_connect _ Hc1) as (_ & _ & Hp'' & _).
    rewrite Hp''. unfold connect.
    destruct (is_open _ _); simpl; [reflexivity |].
    destruct (refuses _); reflexivity.
  - (* the ping interval *)
    split; [| discriminate].
    assert (Hsame : pending reconnect_cb (take_timer t (host c))
                    = pending reconnect_cb (host c)).
    { rewrite Hp'.
      rewrite filter_absent
        by (apply other_callback_not_pending; [exact Hwf | exact Ht | congruence]).
      destruct (timer_repeats t); [| apply app_nil_r].
      rewrite decide_False by congruence. apply app_nil_r. }
    apply (ws_consistent_same_timers (with_host (take_timer t (host c)) c));
      [ apply (proj1 (ws_timers_send _ _ _))
      | apply (proj2 (ws_timers_send _ _ _))
      | reflexivity | reflexivity | ].
    unfold consistent, pending_reconnects. simpl.
    rewrite Hsame. auto.
Qed.

Lemma ws_consistent_at_time (now : Z) (c : client) :
  consistent c → consistent (with_host (at_time now (host c)) c).
Proof. apply ws_consistent_same_timers; reflexivity. Qed.

Lemma ws_consistent_set_ready (s : nat) (r : readyState) (c : client) :
  consistent c → consistent (with_host (set_ready s r (host c)) c).
Proof. apply ws_consistent_same_timers; reflexivity. Qed.

Lemma ws_consistent_step (now : Z) (e : event) (c c' : client) :
  consistent c → step JSON_parse now e c = Some c' → consistent c'.
Proof.
  intros Hc. unfold step.
  destruct (now <? clock (host c))%Z; [discriminate |].
  apply (ws_consistent_at_time now) in Hc.
  set (c0 := with_host (at_time now (host c)) c) in *. clearbody c0.
  destruct e as [| |s|s data|s|s|id|s].
  - intros [= <-]. apply ws_consistent_connect. exact Hc.
  - intros [= <-]. apply ws_consistent_disconnect. exact Hc.
  - destruct (ready (host c0) s) as [[]|]; try discriminate.
    intros [= <-]. apply ws_consistent_onopen, ws_consistent_set_ready. exact Hc.
  - destruct (ready (host c0) s) as [[]|]; try discriminate.
    intros [= <-]. revert Hc. apply ws_consistent_same_timers; reflexivity.
  - destruct (ready (host c0) s) as [[]|]; try discriminate;
      intros [= <-]; apply ws_consistent_update; exact Hc.
  - destruct (ready (host c0) s) as [[]|]; try discriminate;
      intros [= <-]; apply ws_consistent_onclose, ws_consistent_set_ready;
      exact Hc.
  - destruct (find_timer id (host c0)) as [t|] eqn:Hfind; [| discriminate].
    destruct (now <? timer_due t)%Z; [discriminate |].
    intros [= <-]. apply ws_consistent_fire; [exact Hc |].
    apply (find_timer_Some id). exact Hfind.
  - destruct (ready (host c0) s) as [[]|]; try discriminate.
    intros [= <-]. apply ws_consistent_set_ready. exact Hc.
Qed.

Lemma ws_consistent_run (trace : list (Z * event)) (c c' : client) :
  consistent c → run JSON_parse trace c = Some c' → consistent c'.
Proof.
  revert c. induction trace as [|[now e] rest IH]; intros c Hc; simpl.
  - intros [= <-]. exact Hc.
  - destruct (step JSON_parse now e c) as [c1|] eqn:Hstep; simpl; [| discriminate].
    apply IH. eapply ws_consistent_step; eassumption.
Qed.

Lemma ws_consistent_created (start : Z) (refuse : bool)
    (d : devices_store.DeviceState) :
  consistent (created start refuse d).
Proof.
  split; [| split; [| split]];
    [| apply Forall_nil_2 | reflexivity | discriminate].
  split; [apply NoDup_nil_2 | apply Forall_nil_2].
Qed.

Lemma ws_reachable_consistent (c : client) :
  reachable JSON_parse c → consistent c.
Proof.
  intros (start & refuse & d & trace & Hrun).
  eapply ws_consistent_run; [apply ws_consistent_created | exact Hrun].
Qed.

(** A close event with no reconnect pending schedules one timeout of
    5000 ms and raises [reconnecting]; with one pending it schedules
    nothing. *)
Lemma device_close_schedules (now : Z) (s : nat) (c c' : client) :
  consistent c →
  step JSON_parse now (ev_close s) c = Some c' →
  (pending_reconnects c = [] →
     reconnecting (store c') = true
     ∧ ∃ t, timer_id t ∈ pending_reconnects c'
            ∧ t ∈ timers (host c')
            ∧ timer_cb t = reconnect_cb ∧ timer_repeats t = false
            ∧ timer_delay t = 5000%Z ∧ timer_due t = (now + 5000)%Z
            ∧ reconnectTimer c' = Some (timer_id t))
  ∧ (pending_reconnects c ≠ [] → pending_reconnects c' = pending_reconnects c)
  ∧ length (pending_reconnects c') = 1%nat.
Proof.
  intros Hc Hstep.
  pose proof (ws_consistent_step _ _ _ _ Hc Hstep) as Hc'.
  destruct Hc as (Hwf & _ & Hp & Hping). destruct Hc' as (_ & _ & Hp' & _).
  unfold step in Hstep.
  destruct (now <? clock (host c))%Z; [discriminate |].
  simpl in Hstep.
  destruct (ready (at_time now (host c)) s) as [r|]; [| discriminate].
  assert (Hc' : c' = onclose (with_host (set_ready s CLOSED (at_time now (host c))) c))
    by (destruct r; try discriminate; injection Hstep as <-; reflexivity).
  clear Hstep.
  destruct (reconnectTimer c) as [rid|] eqn:Hrtc; simpl in Hp; rewrite Hp.
  - assert (Hrt : reconnectTimer c' = Some rid)
      by (rewrite Hc'; unfold onclose; simpl; destruct (pingInterval c);
          simpl; rewrite Hrtc; simpl; exact Hrtc).
    split; [discriminate |].
    split; [intros _; rewrite Hp', Hrt; reflexivity |].
    rewrite Hp', Hrt. reflexivity.
  - assert (Hnew : reconnecting (store c') = true
              ∧ ∃ t, t ∈ timers (host c')
                     ∧ timer_cb t = reconnect_cb ∧ timer_repeats t = false
                     ∧ timer_delay t = 5000%Z ∧ timer_due t = (now + 5000)%Z
                     ∧ reconnectTimer c' = Some (timer_id t)).
    { rewrite Hc'. unfold onclose. simpl.
      destruct (pingInterval c) as [pid|]; simpl; rewrite Hrtc; simpl;
        (split; [reflexivity |]);
        eexists; (split; [apply elem_of_app; right; left |]);
        repeat split. }
    destruct Hnew as (Hrec & t & Ht & Hcb & Hrep & Hdelay & Hdue & Hrt).
    split.
    + intros _. split; [exact Hrec |]. exists t.
      split; [rewrite Hp', Hrt; left |]. auto 10.
    + split; [intros Hne; exfalso; apply Hne; reflexivity |].
      rewrite Hp', Hrt. reflexivity.
Qed.

(** A pending reconnect runs no earlier than its due time, is then
    gone, and calls [connect], which lowers [reconnecting] unless the
    current socket is open. *)
Lemma device_reconnect_fires (now : Z) (id : nat) (c c' : client) :
  consistent c →
  id ∈ pending_reconnects c →
  step JSON_parse now (ev_timer id) c = Some c' →
  ∃ t, t ∈ timers (host c) ∧ timer_id t = id ∧ (timer_due t <= now)%Z
       ∧ c' = connect (with_reconnectTimer None
                         (with_host (take_timer t (at_time now (host c))) c))
       ∧ pending_reconnects c' = []
       ∧ (is_open (host c) (ws c) = false → reconnecting (store c') = false).
Proof.
  intros Hc Hin Hstep. unfold step in Hstep.
  destruct (now <? clock (host c))%Z; [discriminate |].
  simpl in Hstep.
  destruct (find_timer id (at_time now (host c))) as [t|] eqn:Hfind;
    [| discriminate].
  destruct (now <? timer_due t)%Z eqn:Hdue; [discriminate |].
  apply Z.ltb_ge in Hdue. injection Hstep as <-.
  apply find_timer_Some in Hfind as [Ht Hid]. simpl in Ht.
  assert (Hcb : timer_cb t = reconnect_cb).
  { apply elem_of_pending in Hin as (t' & Ht' & Hcb' & Hid').
    destruct Hc as ((Hnd & _) & _).
    assert (t' = t) by (eapply same_id_same_timer; eauto; congruence).
    congruence. }
  exists t. rewrite Hcb. simpl. repeat split; try assumption.
  - pose proof (ws_consistent_fire t (with_host (at_time now (host c)) c)
                  (ws_consistent_at_time now c Hc) Ht) as [_ Hgone].
    rewrite Hcb in Hgone. exact (Hgone eq_refl).
  - intros Hclosed. unfold connect. simpl.
    replace (is_open (take_timer t (at_time now (host c))) (ws c))
      with (is_open (host c) (ws c)) by reflexivity.
    rewrite Hclosed. simpl.
    destruct (refuses (host c)); reflexivity.
Qed.

End DeviceConnection.

(** ** The later copy of the trading store *)

Section TradingNext.

Import trading_common.

Variable Date_toISOString : Z → string.

Lemma next_handleMessage_accepted (now : Z) (message topic payload : value)
    (h : handler) (u state : TradingState) :
  data_message message topic payload →
  trading_next.TOPIC_HANDLERS (to_string topic) = Some h →
  h state payload = Some u →
  trading_next.handleMessage Date_toISOString now message state
  = Some (<[ "error" := VNull ]>
            (<[ "lastUpdate" :=
                  trading_next.messageTime Date_toISOString now message payload ]>
               (u ∪ state))).
Proof.
  intros (Htype & Htopic & Htt & Hpayload & Htp) Hh Hu.
  unfold trading_next.handleMessage.
  rewrite Htype, Htopic, Hpayload. simpl.
  rewrite Htt, Htp, Hh. simpl. rewrite Hu. reflexivity.
Qed.

(** X26.  In the later copy an accepted message is applied in one
    update that merges the reducer's result, sets [lastUpdate] to the
    message time and clears [error]. *)
Lemma next_handleMessage_merges (now : Z) (message topic payload : value)
    (h : handler) (u state : TradingState) :
  data_message message topic payload →
  trading_next.TOPIC_HANDLERS (to_string topic) = Some h →
  h state payload = Some u →
  ∃ state' : TradingState,
    trading_next.handleMessage Date_toISOString now message state = Some state'
    ∧ state' !! "error" = Some VNull
    ∧ state' !! "lastUpdate"
      = Some (trading_next.messageTime Date_toISOString now message payload)
    ∧ (∀ k, k ≠ "error" → k ≠ "lastUpdate" →
         state' !! k = match u !! k with Some v => Some v | None => state !! k end).
Proof.
  intros Hmsg Hh Hu. eexists. split.
  { eapply next_handleMessage_accepted; eassumption. }
  split; [apply lookup_insert_eq |].
  split.
  { rewrite lookup_insert_ne by discriminate. apply lookup_insert_eq. }
  intros k Herr Hlu.
  rewrite !lookup_insert_ne by congruence.
  rewrite lookup_union. destruct (u !! k), (state !! k); reflexivity.
Qed.

End TradingNext.

(** C5.  In [trading.ts] the update applied for an accepted message
    merges the reducer's slice and sets [lastUpdate] to the message's
    timestamp, but leaves the error flag as it was: the flag raised by
    the stale check survives the heartbeat.  The later copy of the store
    clears it on the same input. *)
Theorem C5_trading_ts_message_keeps_error :
  field samples.gone_stale "error" = VStr "Trader offline - no heartbeat received"
  ∧ trading_ts.handleMessage samples.toISOString (samples.ten_past + 1000)
      samples.heartbeat_frame samples.gone_stale = Some samples.heartbeat_back
  ∧ field samples.heartbeat_back "heartbeat" = samples.heartbeat_ok
  ∧ field samples.heartbeat_back "lastUpdate" = VStr "2025-03-01T12:10:00Z"
  ∧ field samples.heartbeat_back "error"
    = VStr "Trader offline - no heartbeat received"
  ∧ trading_next.handleMessage samples.toISOString (samples.ten_past + 1000)
      samples.heartbeat_frame samples.gone_stale = Some samples.heartbeat_back_next
  ∧ field samples.heartbeat_back_next "error" = VNull.
Proof.
  split; [vm_compute; reflexivity |].
  split; [apply eq_Some_default; vm_compute; reflexivity |].
  split; [vm_compute; reflexivity |].
  split; [vm_compute; reflexivity |].
  split; [vm_compute; reflexivity |].
  split; [apply eq_Some_default; vm_compute; reflexivity |].
  vm_compute; reflexivity.
Qed.

(** ** Teardown and reconnection *)

(** C6.  After [disconnect] has returned, the close event of the socket
    it closed still reaches [onclose], which schedules a reconnect; the
    timer then calls [connect], a new socket opens and the store is
    written again.  This holds for the trading stream and for the device
    stream. *)
Theorem C6_close_after_disconnect_reconnects :
  (trading_ts.run samples.getTime samples.toISOString samples.parse
     samples.trading_session (trading_ts.created samples.noon false)
   = Some samples.torn_down
   ∧ field (trading_ts.store samples.torn_down) "connected" = VBool false
   ∧ trading_ts.ws samples.torn_down = None
   ∧ trading_ts.reconnectTimer samples.torn_down = None
   ∧ host.timers (trading_ts.host samples.torn_down) = []
   ∧ trading_ts.run samples.getTime samples.toISOString samples.parse
       (take 1 samples.after_teardown) samples.torn_down
     = Some samples.close_delivered
   ∧ trading_ts.pending_reconnects samples.close_delivered = [2%nat]
   ∧ trading_ts.run samples.getTime samples.toISOString samples.parse
       samples.after_teardown samples.torn_down
     = Some samples.reopened
   ∧ trading_ts.ws samples.reopened = Some 1%nat
   ∧ field (trading_ts.store samples.reopened) "connected" = VBool true
   ∧ trading_ts.staleCheckTimer samples.reopened = Some 3%nat)
  ∧ (websocket_ts.run samples.parse samples.device_session
       (websocket_ts.created samples.noon false samples.lamp_loaded)
     = Some samples.device_torn_down
     ∧ websocket_ts.store samples.device_torn_down = websocket_ts.idle
     ∧ websocket_ts.ws samples.device_torn_down = None
     ∧ websocket_ts.reconnectTimer samples.device_torn_down = None
     ∧ host.timers (websocket_ts.host samples.device_torn_down) = []
     ∧ websocket_ts.run samples.parse (take 1 samples.after_teardown)
         samples.device_torn_down
       = Some samples.device_close_delivered
     ∧ websocket_ts.pending_reconnects samples.device_close_delivered = [2%nat]
     ∧ websocket_ts.reconnecting (websocket_ts.store samples.device_close_delivered)
       = true
     ∧ websocket_ts.run samples.parse samples.after_teardown
         samples.device_torn_down
       = Some samples.device_reopened
     ∧ websocket_ts.ws samples.device_reopened = Some 1%nat
     ∧ websocket_ts.connected (websocket_ts.store samples.device_reopened) = true
     ∧ websocket_ts.pingInterval samples.device_reopened = Some 3%nat).
Proof.
  split.
  - split; [apply eq_Some_default; vm_compute; reflexivity |].
    do 4 (split; [vm_compute; reflexivity |]).
    split; [apply eq_Some_default; vm_compute; reflexivity |].
    split; [vm_compute; reflexivity |].
    split; [apply eq_Some_default; vm_compute; reflexivity |].
    do 2 (split; [vm_compute; reflexivity |]).
    vm_compute; reflexivity.
  - split; [apply eq_Some_default; vm_compute; reflexivity |].
    do 4 (split; [vm_compute; reflexivity |]).
    split; [apply eq_Some_default; vm_compute; reflexivity |].
    do 2 (split; [vm_compute; reflexivity |]).
    split; [apply eq_Some_default; vm_compute; reflexivity |].
    do 2 (split; [vm_compute; reflexivity |]).
    vm_compute; reflexivity.
Qed.

(** C7, as stated, fails: on the device stream [reconnecting] is true
    while the stream waits, but the scheduled [connect] lowers it at
    once, before the new socket has opened. *)
Lemma C7_reconnecting_drops_before_open :
  websocket_ts.run samples.parse (take 3 samples.connection_lost)
    (websocket_ts.created samples.noon false samples.lamp_loaded)
  = Some samples.device_waiting
  ∧ websocket_ts.reconnecting (websocket_ts.store samples.device_waiting) = true
  ∧ websocket_ts.run samples.parse samples.connection_lost
      (websocket_ts.created samples.noon false samples.lamp_loaded)
    = Some samples.device_retrying
  ∧ websocket_ts.ws samples.device_retrying = Some 1%nat
  ∧ host.ready (websocket_ts.host samples.device_retrying) 1 = Some host.CONNECTING
  ∧ websocket_ts.connected (websocket_ts.store samples.device_retrying) = false
  ∧ websocket_ts.reconnecting (websocket_ts.store samples.device_retrying) = false.
Proof.
  split; [apply eq_Some_default; vm_compute; reflexivity |].
  split; [vm_compute; reflexivity |].
  split; [apply eq_Some_default; vm_compute; reflexivity |].
  do 3 (split; [vm_compute; reflexivity |]).
  vm_compute; reflexivity.
Qed.

(** C7, amended.  In every reachable state of either stream at most one
    reconnect timer is pending.  A close event with none pending
    schedules exactly one, a timeout of 5000 ms due 5000 ms after the
    close (on the device stream it also raises [reconnecting]); a close
    event with one pending schedules nothing.  The pending reconnect
    cannot run before it is due; when it runs it is gone and calls
    [connect], which on the device stream lowers [reconnecting] at once
    unless the current socket is open. *)
Theorem C7_one_reconnect_per_close :
  (∀ (Date_getTime : value → option Z) (Date_toISOString : Z → string)
     (JSON_parse : string → option value) (c : trading_ts.client),
     trading_ts.reachable Date_getTime Date_toISOString JSON_parse c →
     (length (trading_ts.pending_reconnects c) ≤ 1)%nat
     ∧ (∀ (now : Z) (s : nat) (c' : trading_ts.client),
          trading_ts.step Date_getTime Date_toISOString JSON_parse now
            (host.ev_close s) c = Some c' →
          (trading_ts.pending_reconnects c = [] →
             ∃ t, host.timers (trading_ts.host c')
                  = (host.timers (trading_ts.host c) ++ [t])%list
                  ∧ host.timer_cb t = trading_ts.reconnect_cb
                  ∧ host.timer_repeats t = false
                  ∧ host.timer_delay t = 5000%Z
                  ∧ host.timer_due t = (now + 5000)%Z
                  ∧ trading_ts.reconnectTimer c' = Some (host.timer_id t))
          ∧ (trading_ts.pending_reconnects c ≠ [] →
               host.timers (trading_ts.host c') = host.timers (trading_ts.host c))
          ∧ length (trading_ts.pending_reconnects c') = 1%nat)
     ∧ (∀ (now : Z) (id : nat) (c' : trading_ts.client),
          id ∈ trading_ts.pending_reconnects c →
          trading_ts.step Date_getTime Date_toISOString JSON_parse now
            (host.ev_timer id) c = Some c' →
          ∃ t, t ∈ host.timers (trading_ts.host c) ∧ host.timer_id t = id
               ∧ (host.timer_due t <= now)%Z
               ∧ c' = trading_ts.connect
                        (trading_ts.with_reconnectTimer None
                           (trading_ts.with_host
                              (host.take_timer t
                                 (host.at_time now (trading_ts.host c))) c))
               ∧ trading_ts.pending_reconnects c' = []))
  ∧ (∀ (JSON_parse : string → option value) (c : websocket_ts.client),
       websocket_ts.reachable JSON_parse c →
       (length (websocket_ts.pending_reconnects c) ≤ 1)%nat
       ∧ (∀ (now : Z) (s : nat) (c' : websocket_ts.client),
            websocket_ts.step JSON_parse now (host.ev_close s) c = Some c' →
            (websocket_ts.pending_reconnects c = [] →
               websocket_ts.reconnecting (websocket_ts.store c') = true
               ∧ ∃ t, host.timer_id t ∈ websocket_ts.pending_reconnects c'
                      ∧ t ∈ host.timers (websocket_ts.host c')
                      ∧ host.timer_cb t = websocket_ts.reconnect_cb
                      ∧ host.timer_repeats t = false
                      ∧ host.timer_delay t = 5000%Z
                      ∧ host.timer_due t = (now + 5000)%Z
                      ∧ websocket_ts.reconnectTimer c' = Some (host.timer_id t))
            ∧ (websocket_ts.pending_reconnects c ≠ [] →
                 websocket_ts.pending_reconnects c'
                 = websocket_ts.pending_reconnects c)
            ∧ length (websocket_ts.pending_reconnects c') = 1%nat)
       ∧ (∀ (now : Z) (id : nat) (c' : websocket_ts.client),
            id ∈ websocket_ts.pending_reconnects c →
            websocket_ts.step JSON_parse now (host.ev_timer id) c = Some c' →
            ∃ t, t ∈ host.timers (websocket_ts.host c) ∧ host.timer_id t = id
                 ∧ (host.timer_due t <= now)%Z
                 ∧ c' = websocket_ts.connect
                          (websocket_ts.with_reconnectTimer None
                             (websocket_ts.with_host
                                (host.take_timer t
                                   (host.at_time now (websocket_ts.host c))) c))
                 ∧ websocket_ts.pending_reconnects c' = []
                 ∧ (host.is_open (websocket_ts.host c) (websocket_ts.ws c) = false →
                    websocket_ts.reconnecting (websocket_ts.store c') = false))).
Proof.
  split.
  - intros Date_getTime Date_toISOString JSON_parse c Hreach.
    pose proof (reachable_consistent _ _ _ _ Hreach) as Hc.
    split; [| split].
    + destruct Hc as (_ & _ & ->).
      destruct (trading_ts.reconnectTimer c); simpl; lia.
    + intros now s c'. apply trading_close_schedules. exact Hc.
    + intros now id c'. apply trading_reconnect_fires. exact Hc.
  - intros JSON_parse c Hreach.
    pose proof (ws_reachable_consistent _ _ Hreach) as Hc.
    split; [| split].
    + destruct Hc as (_ & _ & -> & _).
      destruct (websocket_ts.reconnectTimer c); simpl; lia.
    + intros now s c'. apply device_close_schedules. exact Hc.
    + intros now id c'. apply device_reconnect_fires. exact Hc.
Qed.

Lemma C7_one_reconnect_per_close_witness :
  (trading_ts.step samples.getTime samples.toISOString samples.parse
     (samples.noon + 1000) (host.ev_close 0) samples.trading_open
   = Some samples.trading_closed
   ∧ length (trading_ts.pending_reconnects samples.trading_closed) = 1%nat)
  ∧ (websocket_ts.step samples.parse (samples.noon + 1000) (host.ev_close 0)
       samples.device_open
     = Some samples.device_closed
     ∧ length (websocket_ts.pending_reconnects samples.device_closed) = 1%nat).
Proof.
  assert (Htrading : trading_ts.step samples.getTime samples.toISOString
                       samples.parse (samples.noon + 1000) (host.ev_close 0)
                       samples.trading_open = Some samples.trading_closed)
    by (apply eq_Some_default; vm_compute; reflexivity).
  assert (Hdevice : websocket_ts.step samples.parse (samples.noon + 1000)
                      (host.ev_close 0) samples.device_open
                    = Some samples.device_closed)
    by (apply eq_Some_default; vm_compute; reflexivity).
  split; (split; [assumption |]).
  - refine (proj2 (proj2
             (proj1 (proj2 (proj1 C7_one_reconnect_per_close
                              samples.getTime samples.toISOString samples.parse
                              samples.trading_open _))
                (samples.noon + 1000)%Z 0%nat samples.trading_closed Htrading))).
    exists samples.noon, false,
      [ (samples.noon, host.call_connect);
        (samples.noon + 10, host.ev_open 0%nat) ]%Z.
    apply eq_Some_default. vm_compute. reflexivity.
  - refine (proj2 (proj2
             (proj1 (proj2 (proj2 C7_one_reconnect_per_close
                              samples.parse samples.device_open _))
                (samples.noon + 1000)%Z 0%nat samples.device_closed Hdevice))).
    exists samples.noon, false, samples.lamp_loaded,
      [ (samples.noon, host.call_connect);
        (samples.noon + 10, host.ev_open 0%nat) ]%Z.
    apply eq_Some_default. vm_compute. reflexivity.
Defined.

(** ** The device store and the device card *)

Section Devices.

Import devices_store device_card.

(** X25.  A feed update rewrites one attribute of the bag of the device
    it finds and nothing else of that device: the device goes back under
    its own id, the attribute then reads as the new value, every other
    attribute of the bag and every other property of the device, a
    top-level [switch_state] included, stays as it was, and so do
    [loading], [error] and [lastUpdated]. *)
Lemma updateDeviceState_writes_bag_only (deviceId attribute v : value)
    (state state' : DeviceState) (id target : value) :
  find_device deviceId (devices state) = Some (Some (id, target)) →
  truthy target = true →
  updateDeviceState deviceId attribute v state = Some state' →
  ∃ tid updated : value,
    get target "id" = Some tid
    ∧ devices state' = map_set tid updated (devices state)
    ∧ get_opt (get_opt updated "state") (to_string attribute) = v
    ∧ (∀ a, a ≠ to_string attribute →
         assoc a (own_props (get_opt updated "state"))
         = assoc a (own_props (get_opt target "state")))
    ∧ (∀ k, k ≠ "state" →
         assoc k (own_props updated) = assoc k (own_props target))
    ∧ devices_store.loading state' = devices_store.loading state
    ∧ error state' = error state
    ∧ lastUpdated state' = lastUpdated state.
Proof.
  intros Hfind Htruthy. unfold updateDeviceState. rewrite Hfind. simpl.
  rewrite Htruthy.
  destruct (get target "state") as [old|] eqn:Hold; simpl; [| discriminate].
  destruct (get target "id") as [tid|]; simpl; [| discriminate].
  intros [= <-]. eexists _, _. split; [reflexivity |].
  split; [reflexivity |].
  assert (Hbag : get_opt (VObj (obj_set "state"
                                  (VObj (obj_set (to_string attribute) v
                                           (own_props old)))
                                  (own_props target))) "state"
                 = VObj (obj_set (to_string attribute) v (own_props old))).
  { unfold get_opt. simpl. rewrite assoc_obj_set_same. reflexivity. }
  rewrite Hbag.
  split; [| split; [| split; [| split; [| split]; reflexivity]]].
  - unfold get_opt. simpl. rewrite assoc_obj_set_same. reflexivity.
  - intros a Ha. simpl. unfold get_opt. rewrite Hold. simpl.
    apply assoc_obj_set_other. exact Ha.
  - intros k Hk. simpl. apply assoc_obj_set_other. exact Hk.
Qed.

(** C9, amended.  [handleToggle] writes nothing before its command
    settles.  When the command rejects, the store is exactly as it was,
    the failure goes to the console and the card stops loading; when it
    resolves, the new switch value is written and a refresh is
    scheduled. *)
Theorem C9_toggle_writes_after_success (device : value) (w w1 : world)
    (request : command) (newState : string) :
  handleToggle_begin device w = (w1, Some (request, newState)) →
  store w1 = store w
  ∧ newState = (if isOn device then "off" else "on")
  ∧ (∀ e : value,
       store (handleToggle_settle device newState (rejected e) w1) = store w
       ∧ loading (handleToggle_settle device newState (rejected e) w1) = false
       ∧ console (handleToggle_settle device newState (rejected e) w1)
         = (console w ++ ["Failed to toggle device:"])%list
       ∧ refreshes (handleToggle_settle device newState (rejected e) w1)
         = refreshes w)
  ∧ (∀ a : value,
       store (handleToggle_settle device newState (resolved a) w1)
       = setDeviceSwitch (get_opt device "id") newState (store w)
       ∧ loading (handleToggle_settle device newState (resolved a) w1) = false
       ∧ console (handleToggle_settle device newState (resolved a) w1) = console w
       ∧ refreshes (handleToggle_settle device newState (resolved a) w1)
         = (refreshes w ++ [get_opt device "id"])%list).
Proof.
  unfold handleToggle_begin. destruct (loading w); [discriminate |].
  intros [= <- Hrequest]. simpl.
  assert (HnewState : newState = (if isOn device then "off" else "on"))
    by (destruct (isOn device); congruence).
  repeat split; exact HnewState.
Qed.

End Devices.

(** C4.  After the optimistic write of on and the feed update of the
    switch attribute to off, the bag of the lamp says off but its
    [switch_state] still says on, so the card, which looks at both,
    still shows the lamp on; only the kiosk page, which reads the bag
    alone, shows it off. *)
Theorem C4_feed_update_leaves_switch_state :
  samples.lamp_switched_on
  = devices_store.setDeviceSwitch (VNum 1) "on" samples.lamp_loaded
  ∧ devices_store.updateDeviceState (VStr "lamp-1") (VStr "switch") (VStr "off")
      samples.lamp_switched_on = Some samples.lamp_fed_off
  ∧ get_opt (get_opt (devices_store.map_get (VNum 1)
                        (devices_store.devices samples.lamp_fed_off)) "state")
      "switch" = VStr "off"
  ∧ get_opt (devices_store.map_get (VNum 1)
               (devices_store.devices samples.lamp_fed_off)) "switch_state"
    = VStr "on"
  ∧ device_card.isOn (devices_store.map_get (VNum 1)
                        (devices_store.devices samples.lamp_fed_off)) = true
  ∧ devices_store.kiosk_shows_on
      (devices_store.map_get (VNum 1)
         (devices_store.devices samples.lamp_fed_off)) = false.
Proof. repeat (apply conj; [vm_compute; reflexivity |]). vm_compute; reflexivity. Qed.

(** C9, as stated, fails: the toggle of the lamp writes nothing before
    its command settles, and after the command has rejected the lamp is
    still off and the store carries no error. *)
Lemma C9_rejected_toggle_writes_nothing :
  device_card.handleToggle_begin samples.lamp samples.lamp_card
  = ({| device_card.store := samples.lamp_loaded; device_card.loading := true;
        device_card.console := []; device_card.refreshes := [] |},
     Some (device_card.turnOn (VNum 1), "on"))
  ∧ device_card.store
      (device_card.handleToggle_settle samples.lamp "on"
         (device_card.rejected (VStr "503"))
         (device_card.handleToggle_begin samples.lamp samples.lamp_card).1)
    = samples.lamp_loaded
  ∧ device_card.isOn
      (devices_store.map_get (VNum 1)
         (devices_store.devices
            (device_card.store
               (device_card.handleToggle_settle samples.lamp "on"
                  (device_card.rejected (VStr "503"))
                  (device_card.handleToggle_begin samples.lamp
                     samples.lamp_card).1))))
    = false
  ∧ devices_store.error
      (device_card.store
         (device_card.handleToggle_settle samples.lamp "on"
            (device_card.rejected (VStr "503"))
            (device_card.handleToggle_begin samples.lamp samples.lamp_card).1))
    = VNull.
Proof. repeat (apply conj; [vm_compute; reflexivity |]). vm_compute; reflexivity. Qed.

Lemma C9_toggle_writes_after_success_witness :
  device_card.store (device_card.handleToggle_begin samples.lamp samples.lamp_card).1
  = device_card.store samples.lamp_card
  ∧ "on" = (if device_card.isOn samples.lamp then "off" else "on")
  ∧ (∀ e : value,
       device_card.store
         (device_card.handleToggle_settle samples.lamp "on" (device_card.rejected e)
            (device_card.handleToggle_begin samples.lamp samples.lamp_card).1)
       = device_card.store samples.lamp_card
       ∧ device_card.loading
           (device_card.handleToggle_settle samples.lamp "on"
              (device_card.rejected e)
              (device_card.handleToggle_begin samples.lamp samples.lamp_card).1)
         = false
       ∧ device_card.console
           (device_card.handleToggle_settle samples.lamp "on"
              (device_card.rejected e)
              (device_card.handleToggle_begin samples.lamp samples.lamp_card).1)
         = (device_card.console samples.lamp_card ++ ["Failed to toggle device:"])%list
       ∧ device_card.refreshes
           (device_card.handleToggle_settle samples.lamp "on"
              (device_card.rejected e)
              (device_card.handleToggle_begin samples.lamp samples.lamp_card).1)
         = device_card.refreshes samples.lamp_card)
  ∧ (∀ a : value,
       device_card.store
         (device_card.handleToggle_settle samples.lamp "on" (device_card.resolved a)
            (device_card.handleToggle_begin samples.lamp samples.lamp_card).1)
       = devices_store.setDeviceSwitch (get_opt samples.lamp "id") "on"
           (device_card.store samples.lamp_card)
       ∧ device_card.loading
           (device_card.handleToggle_settle samples.lamp "on"
              (device_card.resolved a)
              (device_card.handleToggle_begin samples.lamp samples.lamp_card).1)
         = false
       ∧ device_card.console
           (device_card.handleToggle_settle samples.lamp "on"
              (device_card.resolved a)
              (device_card.handleToggle_begin samples.lamp samples.lamp_card).1)
         = device_card.console samples.lamp_card
       ∧ device_card.refreshes
           (device_card.handleToggle_settle samples.lamp "on"
              (device_card.resolved a)
              (device_card.handleToggle_begin samples.lamp samples.lamp_card).1)
         = (device_card.refreshes samples.lamp_card ++ [get_opt samples.lamp "id"])%list).
Proof.
  apply (C9_toggle_writes_after_success samples.lamp samples.lamp_card
           (device_card.handleToggle_begin samples.lamp samples.lamp_card).1
           (device_card.turnOn (VNum 1)) "on").
  reflexivity.
Defined.

(** ** More on property lists *)

Lemma obj_set_same_value (k : string) (v : value) (props : list (string * value)) :
  assoc k props = Some v → obj_set k v props = props.
Proof.
  induction props as [|[k' v'] rest IH]; simpl; [discriminate |].
  destruct (String.eqb k k').
  - intros [= ->]. reflexivity.
  - intros H. rewrite IH by exact H. reflexivity.
Qed.

Lemma obj_set_twice (k : string) (v : value) (props : list (string * value)) :
  obj_set k v (obj_set k v props) = obj_set k v props.
Proof. apply obj_set_same_value, assoc_obj_set_same. Qed.

(** [v?.k] reads the own properties of [v], except for [length]. *)
Lemma get_opt_own_props (v : value) (k : string) :
  k ≠ "length" → get_opt v k = default VUndefined (assoc k (own_props v)).
Proof.
  intros Hk. unfold get_opt.
  destruct v as [| |b|n|s|items|props]; simpl; try reflexivity;
    destruct (String.eqb_spec k "length"); try contradiction; reflexivity.
Qed.

Lemma get_own_props (v : value) (k : string) :
  k ≠ "length" → nullish v = false →
  get v k = Some (default VUndefined (assoc k (own_props v))).
Proof.
  intros Hk Hv.
  destruct v as [| |b|n|s|items|props]; simpl in *; try discriminate;
    try reflexivity;
    destruct (String.eqb_spec k "length"); try contradiction; reflexivity.
Qed.

Lemma truthy_not_nullish (v : value) : truthy v = true → nullish v = false.
Proof. destruct v; simpl; congruence. Qed.

Lemma strict_equals_eq (a b : value) : strict_equals a b = true → a = b.
Proof.
  destruct a, b; simpl; try discriminate; try reflexivity; intros H.
  - apply Bool.eqb_prop in H. congruence.
  - apply Z.eqb_eq in H. congruence.
  - apply String.eqb_eq in H. congruence.
Qed.

(** ** Repeated stale checks, the derived status and the service counts *)

Section StaleTicks.

Import trading_common.

Variable Date_getTime : value → option Z.
Variable THRESHOLD : Z.

Let isDataStale := trading_common.isDataStale Date_getTime THRESHOLD.
Let staleCheck := trading_common.staleCheck Date_getTime THRESHOLD.
Let traderStatus := trading_common.traderStatus Date_getTime THRESHOLD.

(** Data that is stale stays stale as the clock advances. *)
Lemma isDataStale_later (now now' : Z) (lastUpdate : value) :
  now <= now' →
  isDataStale now lastUpdate = true → isDataStale now' lastUpdate = true.
Proof.
  unfold isDataStale, trading_common.isDataStale. intros Hle.
  destruct (truthy lastUpdate); simpl; [| reflexivity].
  destruct (Date_getTime lastUpdate) as [t|]; [| discriminate].
  rewrite !Z.ltb_lt. lia.
Qed.

(** X1.  Once a tick of the stale check has found the data stale, any
    later tick (with no message in between) leaves the state exactly as
    the first one made it: the check writes once, not on every tick. *)
Theorem staleCheck_writes_once (now now' : Z) (state : TradingState) :
  truthy (field state "lastUpdate") = true →
  isDataStale now (field state "lastUpdate") = true →
  now <= now' →
  staleCheck now' (staleCheck now state) = staleCheck now state.
Proof.
  intros Htruthy Hstale Hle.
  pose proof (isDataStale_later _ _ _ Hle Hstale) as Hstale'.
  unfold staleCheck. rewrite (staleCheck_stale _ _ now state Htruthy Hstale).
  set (engine1 := if truthy (field state "engine")
                  then VObj (obj_set "status" (VStr "DOWN")
                               (own_props (field state "engine")))
                  else VNull).
  set (state1 := <[ "error" := VStr "Trader offline - no heartbeat received" ]>
                   (<[ "engine" := engine1 ]> state)).
  assert (Hlu : field state1 "lastUpdate" = field state "lastUpdate").
  { unfold field, state1. rewrite !lookup_insert_ne by discriminate. reflexivity. }
  assert (Heng : field state1 "engine" = engine1).
  { unfold field, state1. rewrite lookup_insert_ne by discriminate.
    rewrite lookup_insert_eq. reflexivity. }
  rewrite staleCheck_stale by (rewrite Hlu; assumption).
  rewrite Heng.
  assert (Hsame : (if truthy engine1
                   then VObj (obj_set "status" (VStr "DOWN") (own_props engine1))
                   else VNull) = engine1).
  { unfold engine1. destruct (truthy (field state "engine")); simpl; [| reflexivity].
    rewrite obj_set_twice. reflexivity. }
  rewrite Hsame. unfold state1.
  apply map_eq. intros k.
  destruct (decide (k = "error")) as [->|Herr].
  { rewrite !lookup_insert_eq. reflexivity. }
  rewrite (lookup_insert_ne _ "error" k) by congruence.
  destruct (decide (k = "engine")) as [->|Hengine].
  { rewrite lookup_insert_eq, lookup_insert_ne by discriminate.
    rewrite lookup_insert_eq. reflexivity. }
  rewrite (lookup_insert_ne _ "engine" k) by congruence.
  reflexivity.
Qed.


End StaleTicks.

Section ServiceCounts.

Import trading_common.

Lemma count_exclusive {A : Type} (p q r s : A → bool) (l : list A) :
  (∀ x, (Nat.b2n (p x) + Nat.b2n (q x) + Nat.b2n (r x) + Nat.b2n (s x) <= 1)%nat) →
  (length (List.filter p l) + length (List.filter q l)
   + length (List.filter r l) + length (List.filter s l) <= length l)%nat.
Proof.
  intros Hex. induction l as [|x l IH]; simpl; [lia |].
  specialize (Hex x).
  destruct (p x), (q x), (r x), (s x); simpl in *; lia.
Qed.

Lemma count_member {A : Type} (p : A → bool) (x : A) (l : list A) :
  In x l → p x = true → (1 <= length (List.filter p l))%nat.
Proof.
  intros Hin Hp.
  assert (Hx : In x (List.filter p l)) by (apply filter_In; auto).
  destruct (List.filter p l); [destruct Hx | simpl; lia].
Qed.

(** A status falls into at most one of the four categories. *)
Lemma status_categories_exclusive (v : value) :
  (Nat.b2n (isHealthy v) + Nat.b2n (isDegraded v) + Nat.b2n (isDown v)
   + Nat.b2n (isUnknown v) <= 1)%nat.
Proof.
  unfold isHealthy, isDegraded, isDown, isUnknown, is_str.
  destruct v as [| |b|n|s|items|props]; simpl; try lia.
  - destruct b; simpl; lia.
  - destruct (n =? 0)%Z; simpl; lia.
  - repeat match goal with
           | |- context [String.eqb s ?k] =>
               destruct (String.eqb_spec s k) as [->|?]; simpl
           end; lia.
Qed.

(** X3.  [servicesHealth] always lists ten services and counts each in
    at most one of healthy, degraded, down and unknown, so the four
    counts never add up to more than the total. *)
Theorem servicesHealth_counts (trading : TradingState) :
  total (servicesHealth trading) = 10%nat
  ∧ (healthy (servicesHealth trading) + degraded (servicesHealth trading)
     + down (servicesHealth trading) + unknown (servicesHealth trading)
     <= total (servicesHealth trading))%nat.
Proof.
  split.
  - unfold servicesHealth, total. rewrite length_map. reflexivity.
  - unfold servicesHealth, healthy, degraded, down, unknown, total.
    apply count_exclusive. intros x. apply status_categories_exclusive.
Qed.

Variable Date_getTime : value → option Z.
Variable THRESHOLD : Z.

Let isDataStale := trading_common.isDataStale Date_getTime THRESHOLD.
Let staleCheck := trading_common.staleCheck Date_getTime THRESHOLD.

(** X4.  After a tick of the stale check that found the data stale,
    [servicesHealth] lists the Trading Engine with status DOWN and counts
    it as down when an engine slice had been received, and lists it
    without a status, counted as unknown, when none had. *)
Theorem stale_engine_in_servicesHealth (now : Z) (state : TradingState) :
  truthy (field state "lastUpdate") = true →
  isDataStale now (field state "lastUpdate") = true →
  let health := servicesHealth (staleCheck now state) in
  if truthy (field state "engine")
  then In ("Trading Engine", VStr "DOWN") (services health)
       ∧ (1 <= down health)%nat
  else In ("Trading Engine", VUndefined) (services health)
       ∧ (1 <= unknown health)%nat.
Proof.
  intros Htruthy Hstale health.
  assert (Hin : In ("Trading Engine",
                    get_opt (field (staleCheck now state) "engine") "status")
                   (services health)).
  { unfold health, servicesHealth, services.
    apply (in_map (λ ns : string * string,
                     (ns.1, get_opt (field (staleCheck now state) ns.2) "status"))
                  service_slices ("Trading Engine", "engine")).
    unfold service_slices. simpl. tauto. }
  assert (Heng : field (staleCheck now state) "engine"
                 = if truthy (field state "engine")
                   then VObj (obj_set "status" (VStr "DOWN")
                                (own_props (field state "engine")))
                   else VNull).
  { unfold staleCheck. rewrite (staleCheck_stale _ _ now state Htruthy Hstale).
    unfold field at 1. rewrite lookup_insert_ne by discriminate.
    rewrite lookup_insert_eq. reflexivity. }
  rewrite Heng in Hin.
  destruct (truthy (field state "engine")).
  - unfold get_opt in Hin. simpl in Hin. rewrite assoc_obj_set_same in Hin.
    simpl in Hin. split; [exact Hin |].
    unfold health, servicesHealth, down.
    eapply count_member; [exact Hin | reflexivity].
  - split; [exact Hin |].
    unfold health, servicesHealth, unknown.
    eapply count_member; [exact Hin | reflexivity].
Qed.

End ServiceCounts.
(** ** Control commands of [trading.ts] *)

Section Commands.

Import host trading_ts.

Lemma ws_disconnect (c : client) : ws (disconnect c) = None.
Proof.
  unfold disconnect, stopStaleCheck.
  destruct c as [st [s|] [rid|] [sid|] h]; reflexivity.
Qed.

(** X5.  A control command is sent only through the current socket when
    it is open: the call then returns true and hands exactly one publish
    frame to that socket; otherwise it returns false and sends nothing.
    In neither case does it touch the store, the timers or the
    sockets. *)
Theorem command_needs_open_socket (call : control) (c : client) :
  (issue call c).1 = is_open (host c) (ws c)
  ∧ sent (host (issue call c).2)
    = (sent (host c) ++
       match ws c with
       | Some s =>
           if is_open (host c) (ws c)
           then [(s, publish_frame (request call).1 (request call).2)]
           else []
       | None => []
       end)%list
  ∧ store (issue call c).2 = store c
  ∧ timers (host (issue call c).2) = timers (host c)
  ∧ sockets (host (issue call c).2) = sockets (host c)
  ∧ ws (issue call c).2 = ws c.
Proof.
  unfold issue, sendCommand.
  destruct (is_open (host c) (ws c)) eqn:Hopen; simpl.
  - unfold send. rewrite Hopen.
    destruct (ws c) as [s|]; [| discriminate]. simpl.
    repeat split; reflexivity.
  - destruct (ws c); rewrite app_nil_r; repeat split; reflexivity.
Qed.

(** X6.  After [disconnect()] every control command is refused: it
    returns false and no frame is sent, whatever state the store was
    in. *)
Theorem command_after_disconnect (call : control) (c : client) :
  (issue call (disconnect c)).1 = false
  ∧ (issue call (disconnect c)).2 = disconnect c.
Proof.
  unfold issue, sendCommand. rewrite ws_disconnect. simpl.
  split; reflexivity.
Qed.

(** X7.  Every control command goes to a topic under [trader/control/]
    and its payload says [source: 'dashboard'], also when the
    configuration passed to [updateMarginProtectionConfig] carries a
    [source] of its own.  The stock and forex toggles and the two close
    commands always carry a non-empty reason; [toggleMarginProtection]
    and [updateMaxPositions] carry none, and
    [updateMarginProtectionConfig] only the one of its configuration. *)
Theorem command_payload (call : control) :
  String.prefix "trader/control/" (request call).1 = true
  ∧ get (request call).2 "source" = Some (VStr "dashboard")
  ∧ match call with
    | toggleStockTrading _ _ | toggleForexTrading _ _
    | closePosition _ _ | closeAllPositions _ _ =>
        truthy (get_opt (request call).2 "reason") = true
    | toggleMarginProtection _ | updateMaxPositions _ =>
        get_opt (request call).2 "reason" = VUndefined
    | updateMarginProtectionConfig config =>
        get_opt (request call).2 "reason"
        = default VUndefined (assoc "reason" (own_props config))
    end.
Proof.
  destruct call as [enabled reason|enabled reason|symbol reason|assetType reason
                   |enabled|config|maxPositions]; simpl.
  1, 2: repeat split; unfold get_opt, toggle_reason, or_else; simpl;
    destruct (truthy reason) eqn:Hr; [exact Hr | destruct enabled; reflexivity].
  1, 2: repeat split; unfold get_opt, or_else; simpl;
    destruct (truthy reason) eqn:Hr; [exact Hr | reflexivity].
  - repeat split.
  - rewrite assoc_obj_set_same. repeat split.
    unfold get_opt. simpl. rewrite assoc_obj_set_other by discriminate.
    reflexivity.
  - repeat split.
Qed.

End Commands.
(** ** The device map: keys, round trips and what the card shows *)

Section DeviceMap.

Import devices_store.

Implicit Types (m : DeviceMap) (k v : value).

Lemma map_set_keys_found k v m :
  truthy (map_get k m) = true → (map_set k v m).*1 = m.*1.
Proof.
  induction m as [|[k' v'] rest IH]; simpl; [discriminate |].
  destruct (strict_equals k' k); [reflexivity |].
  intros H. rewrite !fmap_cons. f_equal. apply IH. exact H.
Qed.

Lemma map_get_set_found k v m :
  truthy (map_get k m) = true → map_get k (map_set k v m) = v.
Proof.
  induction m as [|[k' v'] rest IH]; simpl; [discriminate |].
  destruct (strict_equals k' k) eqn:Hk; simpl; rewrite Hk; [reflexivity |].
  exact IH.
Qed.

Lemma strict_equals_num (n : Z) : strict_equals (VNum n) (VNum n) = true.
Proof. simpl. apply Z.eqb_refl. Qed.

Lemma map_set_keys_member k v m :
  (∃ n, k = VNum n) → k ∈ m.*1 → (map_set k v m).*1 = m.*1.
Proof.
  intros [n ->]. induction m as [|[k' v'] rest IH]; simpl.
  - intros H. inversion H.
  - destruct (strict_equals k' (VNum n)) eqn:Hk; [reflexivity |].
    intros H. apply elem_of_cons in H as [H|H].
    + subst k'. rewrite strict_equals_num in Hk. discriminate.
    + rewrite !fmap_cons. f_equal. apply IH. exact H.
Qed.

Lemma map_set_fresh k v m :
  (∀ k', k' ∈ m.*1 → strict_equals k' k = false) →
  map_set k v m = (m ++ [(k, v)])%list.
Proof.
  induction m as [|[k' v'] rest IH]; simpl; [reflexivity |].
  intros Hfresh. rewrite (Hfresh k') by apply list_elem_of_here.
  rewrite IH; [reflexivity |].
  intros k'' Hk''. apply Hfresh. apply list_elem_of_further. exact Hk''.
Qed.

Lemma well_keyed_map_set k v m :
  (∃ n, k = VNum n) → get v "id" = Some k →
  well_keyed m → well_keyed (map_set k v m).
Proof.
  intros Hnum Hid. unfold well_keyed.
  induction m as [|[k' v'] rest IH]; simpl; intros Hm.
  - apply Forall_singleton. auto.
  - apply Forall_cons in Hm as [Hhead Hrest].
    destruct (strict_equals k' k) eqn:Hk.
    + apply strict_equals_eq in Hk. subst k'.
      apply Forall_cons. split; [simpl; auto | exact Hrest].
    + apply Forall_cons. split; [exact Hhead | apply IH; exact Hrest].
Qed.

Lemma find_device_elem (key : value) m (id device : value) :
  find_device key m = Some (Some (id, device)) → (id, device) ∈ m.
Proof.
  induction m as [|[k' v'] rest IH]; simpl; [discriminate |].
  destruct (answers_to v' key) as [[]|]; [| | discriminate].
  - intros [= -> ->]. apply list_elem_of_here.
  - intros H. apply list_elem_of_further, IH, H.
Qed.

Lemma find_device_unknown (key : value) m :
  Forall (λ kd : value * value, answers_to kd.2 key = Some false) m →
  find_device key m = Some None.
Proof.
  induction 1 as [|[k' v'] rest Hhead _ IH]; simpl; [reflexivity |].
  simpl in Hhead. rewrite Hhead. exact IH.
Qed.

Lemma well_keyed_elem m (id device : value) :
  well_keyed m → (id, device) ∈ m →
  (∃ n, id = VNum n) ∧ get device "id" = Some id ∧ id ∈ m.*1.
Proof.
  unfold well_keyed. rewrite Forall_forall. intros Hm Hin.
  destruct (Hm _ Hin) as [Hnum Hid]. simpl in *.
  repeat split; try assumption.
  apply list_elem_of_fmap. exists (id, device). auto.
Qed.

(** Spreading a device and replacing other properties keeps its [id]. *)
Lemma get_id_obj_set (k : string) (x : value) (props : list (string * value)) :
  k ≠ "id" →
  get (VObj (obj_set k x props)) "id" = get (VObj props) "id".
Proof.
  intros Hk. simpl. rewrite assoc_obj_set_other by congruence. reflexivity.
Qed.

Lemma get_id_spread (device : value) :
  nullish device = false →
  get (VObj (own_props device)) "id" = get device "id".
Proof.
  intros Hd. rewrite (get_own_props device "id") by (discriminate || exact Hd).
  reflexivity.
Qed.

Lemma get_Some_not_nullish (v : value) (k : string) (x : value) :
  get v k = Some x → nullish v = false.
Proof. destruct v; simpl; try discriminate; reflexivity. Qed.

Lemma merge_initial_keeps (deviceKey : string) (attributes : value) m m' :
  well_keyed m → merge_initial deviceKey attributes m = Some m' →
  m'.*1 = m.*1 ∧ well_keyed m'.
Proof.
  intros Hm. unfold merge_initial.
  destruct (find_device (VStr deviceKey) m) as [[[id device]|]|] eqn:Hfind;
    simpl; [| intros [= <-]; auto | discriminate].
  apply find_device_elem in Hfind.
  destruct (well_keyed_elem _ _ _ Hm Hfind) as (Hnum & Hid & Hin).
  destruct (get device "state") as [old|] eqn:Hold; simpl; [| discriminate].
  intros [= <-]. split.
  - apply map_set_keys_member; assumption.
  - apply well_keyed_map_set; [exact Hnum | | exact Hm].
    rewrite get_id_obj_set by discriminate.
    rewrite get_id_spread by (eapply get_Some_not_nullish; exact Hold).
    exact Hid.
Qed.

Lemma merge_all_initial_keeps (entries : list (string * value)) m m' :
  well_keyed m → merge_all_initial entries m = Some m' →
  m'.*1 = m.*1 ∧ well_keyed m'.
Proof.
  revert m. induction entries as [|[deviceKey attributes] rest IH];
    intros m Hm; simpl.
  - intros [= <-]. auto.
  - destruct (merge_initial deviceKey attributes m) as [m1|] eqn:Hone; simpl;
      [| discriminate].
    destruct (merge_initial_keeps _ _ _ _ Hm Hone) as [Hkeys Hm1].
    intros Hrest. destruct (IH _ Hm1 Hrest) as [Hkeys' Hm'].
    split; [congruence | exact Hm'].
Qed.

(** X8.  What the WebSocket feed writes ([updateDeviceState] and
    [setInitialState]) never adds, removes or reorders devices: in a
    map keyed by the numeric ids of its devices, as [load] builds it,
    the keys stay as they are and every device stays under its own
    id. *)
Theorem feed_keeps_device_keys (state state' : DeviceState) :
  well_keyed (devices state) →
  (∃ deviceId attribute v : value,
     updateDeviceState deviceId attribute v state = Some state')
  ∨ (∃ deviceStates : value, setInitialState deviceStates state = Some state') →
  (devices state').*1 = (devices state).*1 ∧ well_keyed (devices state').
Proof.
  intros Hm [(deviceId & attribute & v & Hupdate) | (deviceStates & Hinit)].
  - revert Hupdate. unfold updateDeviceState.
    destruct (find_device deviceId (devices state)) as [[[id device]|]|] eqn:Hfind;
      simpl; [| intros [= <-]; auto | discriminate].
    apply find_device_elem in Hfind.
    destruct (well_keyed_elem _ _ _ Hm Hfind) as (Hnum & Hid & Hin).
    destruct (truthy device) eqn:Htruthy; [| intros [= <-]; auto].
    destruct (get device "state") as [old|]; simpl; [| discriminate].
    rewrite Hid. simpl. intros [= <-]. simpl. split.
    + apply map_set_keys_member; assumption.
    + apply well_keyed_map_set; [exact Hnum | | exact Hm].
      rewrite get_id_obj_set by discriminate.
      rewrite get_id_spread by (apply truthy_not_nullish; exact Htruthy).
      exact Hid.
  - revert Hinit. unfold setInitialState.
    destruct (nullish deviceStates); [discriminate |].
    destruct (merge_all_initial (own_props deviceStates) (devices state))
      as [m'|] eqn:Hall; simpl; [| discriminate].
    intros [= <-]. simpl. eapply merge_all_initial_keeps; eassumption.
Qed.

(** X9.  The optimistic writes [setDeviceSwitch] and [setDeviceLevel]
    never add, remove or reorder devices, and for an id that is not in
    the map they leave the store as it is. *)
Theorem optimistic_writes_keep_device_keys (state : DeviceState)
    (deviceId : value) (switchState : string) (level : Z) :
  (devices (setDeviceSwitch deviceId switchState state)).*1 = (devices state).*1
  ∧ (devices (setDeviceLevel deviceId level state)).*1 = (devices state).*1
  ∧ (if truthy (map_get deviceId (devices state)) then True
     else setDeviceSwitch deviceId switchState state = state
          ∧ setDeviceLevel deviceId level state = state).
Proof.
  unfold setDeviceSwitch, setDeviceLevel.
  destruct (truthy (map_get deviceId (devices state))) eqn:Hfound; simpl.
  - rewrite !map_set_keys_found by exact Hfound.
    split; [reflexivity | split; [reflexivity | exact I]].
  - split; [reflexivity | split; [reflexivity |]].
    split; reflexivity.
Qed.

Lemma fill_map_fresh (data : list value) (ns : list Z) m :
  Forall2 (λ d n, get d "id" = Some (VNum n)) data ns →
  NoDup ns →
  (∀ n, n ∈ ns → VNum n ∉ m.*1) →
  (∀ k, k ∈ m.*1 → ∃ n, k = VNum n) →
  fill_map data m = Some (m ++ zip (VNum <$> ns) data)%list.
Proof.
  intros Hids. revert m.
  induction Hids as [|d n data ns Hd _ IH]; intros m Hnd Hfresh Hnum; simpl.
  - rewrite app_nil_r. reflexivity.
  - rewrite Hd. simpl. apply NoDup_cons in Hnd as [Hn Hnd].
    assert (Hset : map_set (VNum n) d m = (m ++ [(VNum n, d)])%list).
    { apply map_set_fresh. intros k' Hk'.
      destruct (Hnum k' Hk') as [n' ->]. simpl. apply Z.eqb_neq.
      intros Heq. subst n'. apply (Hfresh n); [apply list_elem_of_here | exact Hk']. }
    rewrite Hset, IH.
    + rewrite <- app_assoc. reflexivity.
    + exact Hnd.
    + intros n' Hn' Hin. rewrite fmap_app in Hin.
      apply elem_of_app in Hin as [Hin|Hin].
      * apply (Hfresh n'); [apply list_elem_of_further; exact Hn' | exact Hin].
      * simpl in Hin. apply list_elem_of_singleton in Hin.
        injection Hin as ->. contradiction.
    + intros k Hk. rewrite fmap_app in Hk.
      apply elem_of_app in Hk as [Hk|Hk]; [auto |].
      simpl in Hk. apply list_elem_of_singleton in Hk. eauto.
Qed.

Lemma zip_keys_well_keyed (data : list value) (ns : list Z) :
  Forall2 (λ d n, get d "id" = Some (VNum n)) data ns →
  (zip (VNum <$> ns) data).*1 = VNum <$> ns
  ∧ (zip (VNum <$> ns) data).*2 = data
  ∧ well_keyed (zip (VNum <$> ns) data).
Proof.
  induction 1 as [|d n data ns Hd _ (IH1 & IH2 & IH3)].
  - repeat split. apply Forall_nil_2.
  - rewrite fmap_cons. cbn [zip zip_with]. rewrite !fmap_cons, IH1, IH2.
    repeat split.
    apply Forall_cons. split; [simpl; eauto | exact IH3].
Qed.

(** X10.  [load] round trip.  When the devices of the response carry
    distinct numeric ids, the loaded store lists exactly the devices of
    the response, in the order of the response, each under its own id;
    loading is over and no error is set. *)
Theorem load_lists_response (data : list value) (ns : list Z) (today : value)
    (state : DeviceState) :
  Forall2 (λ d n, get d "id" = Some (VNum n)) data ns →
  NoDup ns →
  let loaded := load_resolved data today (load_begin state) in
  devicesList loaded = data
  ∧ (devices loaded).*1 = VNum <$> ns
  ∧ well_keyed (devices loaded)
  ∧ loading loaded = false ∧ error loaded = VNull ∧ lastUpdated loaded = today.
Proof.
  intros Hids Hnd loaded. unfold loaded, load_resolved, devicesList.
  rewrite (fill_map_fresh data ns []) ; try assumption.
  - simpl. destruct (zip_keys_well_keyed data ns Hids) as (H1 & H2 & H3).
    repeat split; assumption.
  - intros n _ Hin. inversion Hin.
  - intros k Hk. inversion Hk.
Qed.

Lemma map_get_set_num (n : Z) v m :
  map_get (VNum n) (map_set (VNum n) v m) = v.
Proof.
  induction m as [|[k' v'] rest IH]; simpl.
  - rewrite Z.eqb_refl. reflexivity.
  - destruct (strict_equals k' (VNum n)) eqn:Hk; simpl; rewrite Hk;
      [reflexivity | exact IH].
Qed.

Lemma map_get_set_other (n : Z) k v m :
  k ≠ VNum n → map_get k (map_set (VNum n) v m) = map_get k m.
Proof.
  intros Hne.
  assert (Hother : ∀ k', strict_equals k' (VNum n) = true →
                         strict_equals k' k = false).
  { intros k' Hk'. apply strict_equals_eq in Hk'. subst k'.
    destruct k; simpl; try reflexivity.
    apply Z.eqb_neq. congruence. }
  induction m as [|[k' v'] rest IH]; cbn [map_set map_get].
  - rewrite (Hother (VNum n)) by apply strict_equals_num. reflexivity.
  - destruct (strict_equals k' (VNum n)) eqn:Hk; cbn [map_set map_get].
    + rewrite (Hother k' Hk). reflexivity.
    + rewrite IH. reflexivity.
Qed.

(** X22.  [updateDevice] is an insert by id: for a device with a numeric
    id it succeeds, the map then answers that id with the new device and
    every other key as before, and the devices stay keyed by their
    ids. *)
Theorem updateDevice_replaces_by_id (device : value) (n : Z) (state : DeviceState) :
  get device "id" = Some (VNum n) →
  ∃ state' : DeviceState,
    updateDevice device state = Some state'
    ∧ map_get (VNum n) (devices state') = device
    ∧ (∀ k : value, k ≠ VNum n →
         map_get k (devices state') = map_get k (devices state))
    ∧ (well_keyed (devices state) → well_keyed (devices state'))
    ∧ loading state' = loading state ∧ error state' = error state.
Proof.
  intros Hid. unfold updateDevice. rewrite Hid. simpl.
  eexists. split; [reflexivity |]. simpl.
  split; [apply map_get_set_num |].
  split; [intros k Hk; apply map_get_set_other; exact Hk |].
  split; [| split; reflexivity].
  apply well_keyed_map_set; eauto.
Qed.

Lemma fill_map_raises (data : list value) m :
  (∃ d, d ∈ data ∧ nullish d = true) → fill_map data m = None.
Proof.
  intros (d & Hin & Hnull). revert m.
  induction data as [|x rest IH]; intros m; [inversion Hin |].
  simpl. apply elem_of_cons in Hin as [<- | Hin].
  - destruct d; simpl in *; try discriminate; reflexivity.
  - destruct (get x "id"); simpl; [apply IH; exact Hin | reflexivity].
Qed.

(** X23.  When the response of [load] holds a [null] or [undefined]
    entry, the loop raises before the store is written: the devices
    loaded before stay, loading ends and the error reads
    'Failed to load devices'. *)
Theorem load_with_null_entry_fails (data : list value) (today : value)
    (state : DeviceState) :
  (∃ d, d ∈ data ∧ nullish d = true) →
  let loaded := load_resolved data today (load_begin state) in
  devices loaded = devices state
  ∧ loading loaded = false
  ∧ error loaded = VStr "Failed to load devices"
  ∧ lastUpdated loaded = lastUpdated state.
Proof.
  intros Hnull loaded. unfold loaded, load_resolved.
  rewrite (fill_map_raises data [] Hnull).
  repeat split.
Qed.

End DeviceMap.
(** ** What the card shows after an optimistic write *)

Section CardAfterWrite.

Import devices_store device_card.

Lemma level_after_switch (device : value) (switchState : string) :
  level (VObj (obj_set "state"
                 (VObj (obj_set "switch" (VStr switchState)
                          (own_props (get_opt device "state"))))
                 (obj_set "switch_state" (VStr switchState) (own_props device))))
  = level device.
Proof.
  unfold level.
  assert (H1 : get_opt (VObj (obj_set "state"
                                (VObj (obj_set "switch" (VStr switchState)
                                         (own_props (get_opt device "state"))))
                                (obj_set "switch_state" (VStr switchState)
                                   (own_props device)))) "level"
               = get_opt device "level").
  { rewrite (get_opt_own_props device "level") by discriminate.
    unfold get_opt. simpl.
    rewrite !assoc_obj_set_other by discriminate. reflexivity. }
  assert (H2 : get_opt (get_opt (VObj (obj_set "state"
                                (VObj (obj_set "switch" (VStr switchState)
                                         (own_props (get_opt device "state"))))
                                (obj_set "switch_state" (VStr switchState)
                                   (own_props device)))) "state") "level"
               = get_opt (get_opt device "state") "level").
  { rewrite (get_opt_own_props (get_opt device "state") "level") by discriminate.
    unfold get_opt at 1 2. simpl.
    rewrite assoc_obj_set_same. simpl.
    rewrite assoc_obj_set_other by discriminate. reflexivity. }
  rewrite H1, H2. reflexivity.
Qed.

Lemma reads_after_switch (s : value) (bag props : list (string * value)) :
  get_opt (VObj (obj_set "state" (VObj (obj_set "switch" s bag))
                   (obj_set "switch_state" s props))) "switch_state" = s
  ∧ get_opt (get_opt (VObj (obj_set "state" (VObj (obj_set "switch" s bag))
                              (obj_set "switch_state" s props))) "state")
      "switch" = s.
Proof.
  unfold get_opt. simpl. split.
  - rewrite assoc_obj_set_other by discriminate.
    rewrite assoc_obj_set_same. reflexivity.
  - rewrite assoc_obj_set_same. simpl.
    rewrite assoc_obj_set_same. reflexivity.
Qed.

Lemma card_after_optimistic_write_aux (state : DeviceState) (deviceId : value)
    (switchState : string) :
  truthy (map_get deviceId (devices state)) = true →
  isOn (map_get deviceId (devices (setDeviceSwitch deviceId switchState state)))
  = String.eqb switchState "on"
    || level_positive (map_get deviceId (devices state))
  ∧ level (map_get deviceId (devices (setDeviceSwitch deviceId switchState state)))
    = level (map_get deviceId (devices state)).
Proof.
  intros Hfound. unfold setDeviceSwitch. rewrite Hfound. simpl.
  rewrite !map_get_set_found by exact Hfound.
  set (device := map_get deviceId (devices state)).
  split; [| apply level_after_switch].
  unfold isOn, level_positive. rewrite level_after_switch.
  destruct (reads_after_switch (VStr switchState)
              (own_props (get_opt device "state")) (own_props device))
    as [-> ->].
  simpl. destruct (String.eqb switchState "on"); reflexivity.
Qed.

(** X11.  After [setDeviceLevel(id, n)] on a device of the map the card
    shows it on exactly when [n > 0], with level [n], whatever the
    device said before; after [setDeviceSwitch(id, s)] it shows it on
    when [s] is ['on'] and also whenever the level the device carries
    is positive, so switching a dimmed device off leaves its card on. *)
Theorem card_after_optimistic_write (state : DeviceState) (deviceId : value)
    (switchState : string) (n : Z) :
  truthy (map_get deviceId (devices state)) = true →
  isOn (map_get deviceId (devices (setDeviceLevel deviceId n state))) = (0 <? n)%Z
  ∧ level (map_get deviceId (devices (setDeviceLevel deviceId n state))) = VNum n
  ∧ isOn (map_get deviceId (devices (setDeviceSwitch deviceId switchState state)))
    = String.eqb switchState "on"
      || level_positive (map_get deviceId (devices state))
  ∧ level (map_get deviceId (devices (setDeviceSwitch deviceId switchState state)))
    = level (map_get deviceId (devices state)).
Proof.
  intros Hfound.
  destruct (card_after_optimistic_write_aux state deviceId switchState Hfound)
    as [Hswitch Hsame].
  split; [| split; [| split; assumption]];
    unfold setDeviceLevel; rewrite Hfound; simpl;
    rewrite !map_get_set_found by exact Hfound;
    set (device := map_get deviceId (devices state));
    set (bag := own_props (get_opt device "state")).
  - unfold isOn.
    destruct (reads_after_switch (VStr (if (0 <? n)%Z then "on" else "off"))
                (obj_set "level" (VNum n) bag)
                (obj_set "level" (VNum n) (own_props device)))
      as [-> ->].
    unfold level, get_opt. simpl.
    rewrite !assoc_obj_set_other by discriminate.
    rewrite assoc_obj_set_same. simpl.
    destruct (0 <? n)%Z; reflexivity.
  - unfold level, get_opt. simpl.
    rewrite !assoc_obj_set_other by discriminate.
    rewrite assoc_obj_set_same. reflexivity.
Qed.

(** X21.  A toggle that succeeds, on a card showing the device the store
    holds under that id: a device shown off is shown on afterwards; a
    device shown on is shown off afterwards unless it carries a positive
    level, in which case its card stays on. *)
Theorem toggle_flips_card (device : value) (w w1 : world) (request : command)
    (newState : string) (answer : value) :
  map_get (get_opt device "id") (devices (store w)) = device →
  truthy device = true →
  handleToggle_begin device w = (w1, Some (request, newState)) →
  isOn (map_get (get_opt device "id")
          (devices (store (handleToggle_settle device newState
                             (resolved answer) w1))))
  = if isOn device then level_positive device else true.
Proof.
  intros Hheld Htruthy. unfold handleToggle_begin.
  destruct (loading w); [discriminate |].
  intros [= <- Hrequest]. simpl.
  assert (Hfound : truthy (map_get (get_opt device "id") (devices (store w))) = true)
    by (rewrite Hheld; exact Htruthy).
  destruct (card_after_optimistic_write_aux (store w) (get_opt device "id")
              newState Hfound) as [Hon _].
  rewrite Hon, Hheld.
  destruct (isOn device) eqn:Hison.
  - assert (newState = "off") by congruence. subst newState. reflexivity.
  - assert (newState = "on") by congruence. subst newState. reflexivity.
Qed.

End CardAfterWrite.

(** ** Devices by room *)

Section Rooms.

Import devices_store.

Implicit Types (byRoom : list (value * list value)).

Lemma group_add_members (room device : value) byRoom :
  concat (group_add room device byRoom).*2 ≡ₚ device :: concat byRoom.*2.
Proof.
  induction byRoom as [|[r ds] rest IH]; simpl; [reflexivity |].
  destruct (strict_equals r room).
  - rewrite !fmap_cons. simpl. rewrite <- app_assoc. simpl.
    symmetry. apply Permutation_middle.
  - rewrite !fmap_cons. simpl. rewrite IH.
    symmetry. apply Permutation_middle.
Qed.

Lemma group_add_rooms (room device : value) byRoom :
  Forall (λ g : value * list value,
            g.2 ≠ [] ∧ Forall (λ d, room_of d = g.1) g.2) byRoom →
  room_of device = room →
  Forall (λ g : value * list value,
            g.2 ≠ [] ∧ Forall (λ d, room_of d = g.1) g.2)
         (group_add room device byRoom).
Proof.
  intros Hall Hroom. induction Hall as [|[r ds] rest [Hne Hds] Hrest IH]; simpl.
  - apply Forall_singleton. simpl. split; [discriminate |].
    apply Forall_singleton. exact Hroom.
  - destruct (strict_equals r room) eqn:Hr.
    + apply strict_equals_eq in Hr. subst r.
      apply Forall_cons. split; [| exact Hrest]. simpl in *. split.
      * destruct ds; discriminate.
      * apply Forall_app. split; [exact Hds |].
        apply Forall_singleton. exact Hroom.
    + apply Forall_cons. split; [split; assumption | exact IH].
Qed.

Lemma group_all_spec (ds : list value) byRoom (groups : list (value * list value)) :
  Forall (λ g : value * list value,
            g.2 ≠ [] ∧ Forall (λ d, room_of d = g.1) g.2) byRoom →
  group_all ds byRoom = Some groups →
  concat groups.*2 ≡ₚ (concat byRoom.*2 ++ ds)%list
  ∧ Forall (λ g : value * list value,
              g.2 ≠ [] ∧ Forall (λ d, room_of d = g.1) g.2) groups.
Proof.
  revert byRoom. induction ds as [|d rest IH]; intros byRoom Hall; simpl.
  - intros [= <-]. rewrite app_nil_r. auto.
  - destruct (get d "room"); simpl; [| discriminate].
    intros Hrest.
    destruct (IH _ (group_add_rooms (room_of d) d byRoom Hall eq_refl) Hrest)
      as [Hperm Hgroups].
    split; [| exact Hgroups].
    rewrite Hperm, group_add_members.
    rewrite <- Permutation_middle. reflexivity.
Qed.

(** X12.  [devicesByRoom] is a partition of the devices: when it can be
    computed, its groups taken together hold every device of the store
    exactly once, no group is empty, and every device of a group has
    the group's key as its room ([device.room], or ['Unassigned'] when
    that is empty or missing). *)
Theorem devicesByRoom_partitions (state : DeviceState)
    (groups : list (value * list value)) :
  devicesByRoom state = Some groups →
  concat groups.*2 ≡ₚ devicesList state
  ∧ Forall (λ g : value * list value,
              g.2 ≠ [] ∧ Forall (λ d, room_of d = g.1) g.2) groups.
Proof.
  unfold devicesByRoom. intros Hgroups.
  apply (group_all_spec _ [] _ (Forall_nil_2 _)) in Hgroups.
  exact Hgroups.
Qed.

(** X13.  [devicesByRoom] can be computed whenever no device of the
    store is [null] or [undefined], and then has at most as many groups
    as there are devices. *)
Theorem devicesByRoom_defined (state : DeviceState) :
  Forall (λ d, nullish d = false) (devicesList state) →
  ∃ groups, devicesByRoom state = Some groups
            ∧ (length groups <= length (devicesList state))%nat.
Proof.
  unfold devicesByRoom.
  assert (Hgen : ∀ ds byRoom,
            Forall (λ d, nullish d = false) ds →
            ∃ groups, group_all ds byRoom = Some groups
                      ∧ (length groups <= length byRoom + length ds)%nat).
  { induction ds as [|d rest IH]; intros byRoom Hall; simpl.
    - exists byRoom. split; [reflexivity | lia].
    - apply Forall_cons in Hall as [Hd Hrest].
      destruct (get d "room") as [x|] eqn:Hget;
        [| destruct d; simpl in *; discriminate].
      simpl. destruct (IH (group_add (room_of d) d byRoom) Hrest)
        as (groups & Hgroups & Hlen).
      exists groups. split; [exact Hgroups |].
      assert (Hadd : (length (group_add (room_of d) d byRoom)
                      <= S (length byRoom))%nat).
      { clear. induction byRoom as [|[r ds] rest IH]; simpl; [lia |].
        destruct (strict_equals r (room_of d)); simpl; lia. }
      lia. }
  intros Hall. destruct (Hgen _ [] Hall) as (groups & Hgroups & Hlen).
  exists groups. split; [exact Hgroups | exact Hlen].
Qed.

End Rooms.

(** ** Frames of the device stream that change nothing *)

Section DeviceFrames.

Import devices_store.

(** X14.  A frame of the device stream whose type is neither
    [initial_state] nor [device_state] (a [pong], say) leaves the device
    store as it is, and so does a [device_state] frame that names a
    device no loaded device answers to by label or name. *)
Theorem device_frame_ignored (message : value) (d : DeviceState) :
  (∃ type : value,
     get message "type" = Some type
     ∧ is_str type "initial_state" = false
     ∧ is_str type "device_state" = false)
  ∨ (∃ payload device_id attribute v : value,
       get message "type" = Some (VStr "device_state")
       ∧ get message "payload" = Some payload
       ∧ get payload "device_id" = Some device_id
       ∧ get payload "attribute" = Some attribute
       ∧ get payload "value" = Some v
       ∧ Forall (λ kd : value * value, answers_to kd.2 device_id = Some false)
                (devices d)) →
  websocket_ts.handleMessage message d = Some d.
Proof.
  intros [(type & Htype & Hinit & Hstate)
         | (payload & device_id & attribute & v
            & Htype & Hpayload & Hid & Hattr & Hv & Hnone)];
    unfold websocket_ts.handleMessage; rewrite Htype; simpl.
  - rewrite Hinit, Hstate. reflexivity.
  - rewrite Hpayload. simpl. rewrite Hid, Hattr, Hv. simpl.
    unfold updateDeviceState. rewrite (find_device_unknown _ _ Hnone).
    reflexivity.
Qed.

End DeviceFrames.
(** ** More invariants of the trading stream *)

Section ReducersWrite.

Import trading_common.

Lemma slice_keeps_connected (f : string) (s : TradingState) (p : value)
    (u : TradingState) :
  f ≠ "connected" → slice f s p = Some u → u !! "connected" = None.
Proof. intros Hf [= <-]. apply lookup_singleton_ne. exact Hf. Qed.

Lemma collection_keeps_connected (f key : string) (s : TradingState) (p : value)
    (u : TradingState) :
  f ≠ "connected" → collection f key s p = Some u → u !! "connected" = None.
Proof.
  intros Hf Hu. unfold collection in Hu.
  destruct (get p key); simpl in Hu; [| discriminate].
  injection Hu as <-. apply lookup_singleton_ne. exact Hf.
Qed.

Lemma account_currencies_keeps_connected (s : TradingState) (p : value)
    (u : TradingState) :
  account_currencies s p = Some u → u !! "connected" = None.
Proof.
  intros Hu. unfold account_currencies in Hu.
  destruct (get p "base_currency"); simpl in Hu; [| discriminate].
  destruct (get p "primary_currency"); simpl in Hu; [| discriminate].
  destruct (get p "currencies") as [c|]; simpl in Hu; [| discriminate].
  destruct (if truthy c then transform_currencies (own_props c) [] else Some []);
    simpl in Hu; [| discriminate].
  injection Hu as <-. apply lookup_singleton_ne. discriminate.
Qed.

Lemma capital_allocation_keeps_connected (s : TradingState) (p : value)
    (u : TradingState) :
  capital_allocation s p = Some u → u !! "connected" = None.
Proof.
  intros Hu. unfold capital_allocation in Hu.
  destruct (get p "stock"); simpl in Hu; [| discriminate].
  destruct (get p "forex"); simpl in Hu; [| discriminate].
  destruct (get p "reserve"); simpl in Hu; [| discriminate].
  destruct (get p "session"); simpl in Hu; [| discriminate].
  injection Hu as <-. apply lookup_singleton_ne. discriminate.
Qed.

Lemma control_status_keeps_connected (s : TradingState) (p : value)
    (u : TradingState) :
  control_status s p = Some u → u !! "connected" = None.
Proof.
  intros Hu. unfold control_status in Hu.
  destruct (get p "stock"); simpl in Hu; [| discriminate].
  destruct (get p "forex"); simpl in Hu; [| discriminate].
  destruct (get p "stock_enabled"); simpl in Hu; [| discriminate].
  destruct (get p "forex_enabled"); simpl in Hu; [| discriminate].
  destruct (get p "stock_reason"); simpl in Hu; [| discriminate].
  destruct (get p "forex_reason"); simpl in Hu; [| discriminate].
  injection Hu as <-. apply lookup_singleton_ne. discriminate.
Qed.

(** No reducer of the shared table writes [connected]. *)
Lemma shared_handlers_keep_connected (topic : string) (h : handler)
    (s : TradingState) (p : value) (u : TradingState) :
  lookup_handler shared_handlers topic = Some h →
  h s p = Some u → u !! "connected" = None.
Proof.
  unfold shared_handlers. simpl. intros Hh.
  repeat match type of Hh with
         | (if ?c then _ else _) = Some _ =>
             destruct c;
             [ injection Hh as <-;
               first [ apply slice_keeps_connected; discriminate
                     | apply collection_keeps_connected; discriminate
                     | apply account_currencies_keeps_connected
                     | apply capital_allocation_keeps_connected
                     | apply control_status_keeps_connected ]
             | ]
         end.
  discriminate.
Qed.

End ReducersWrite.

Section TradingSettled.

Import trading_common host trading_ts.

Variable Date_getTime : value → option Z.
Variable Date_toISOString : Z → string.
Variable JSON_parse : string → option value.

Let step := trading_ts.step Date_getTime Date_toISOString JSON_parse.
Let run := trading_ts.run Date_getTime Date_toISOString JSON_parse.
Let reachable := trading_ts.reachable Date_getTime Date_toISOString JSON_parse.

Lemma field_insert_ne (k k' : string) (v : value) (state : TradingState) :
  k ≠ k' → field (<[ k' := v ]> state) k = field state k.
Proof.
  intros Hne. unfold field. rewrite lookup_insert_ne by congruence. reflexivity.
Qed.

(** A frame never changes [connected]. *)
Lemma onmessage_keeps_connected (now : Z) (data : string) (state : TradingState) :
  field (onmessage Date_toISOString JSON_parse now data state) "connected"
  = field state "connected".
Proof.
  unfold onmessage. destruct (JSON_parse data) as [message|]; [| reflexivity].
  destruct (handleMessage Date_toISOString now message state) as [state'|] eqn:H;
    [| reflexivity].
  simpl. unfold handleMessage in H.
  destruct (get message "type") as [type|]; simpl in H; [| discriminate].
  destruct (get message "topic") as [topic|]; simpl in H; [| discriminate].
  destruct (get message "payload") as [payload|]; simpl in H; [| discriminate].
  destruct (strict_equals type (VStr "mqtt") && truthy topic && truthy payload);
    [| congruence].
  destruct (TOPIC_HANDLERS (to_string topic)) as [h|] eqn:Hh; [| congruence].
  destruct (h state payload) as [u|] eqn:Hu; simpl in H; [| discriminate].
  injection H as <-.
  rewrite field_insert_ne by discriminate. unfold field. f_equal.
  unfold TOPIC_HANDLERS in Hh.
  apply member_spec in Hh as [Hown | [_ [-> | [-> | ->]]]].
  - rewrite lookup_union_r; [reflexivity |].
    eapply shared_handlers_keep_connected; eassumption.
  - apply Object_constructor_returns in Hu as ->. rewrite union_self. reflexivity.
  - apply Object_toString_returns in Hu as ->.
    rewrite lookup_union_r; [reflexivity |].
    apply undefined_tag_unnamed.
    repeat first [apply list_elem_of_here | apply list_elem_of_further].
  - discriminate.
Qed.

Lemma staleCheck_keeps_connected (now : Z) (state : TradingState) :
  field (staleCheck Date_getTime now state) "connected" = field state "connected".
Proof.
  unfold staleCheck, trading_common.staleCheck.
  destruct (truthy (field state "lastUpdate")
            && trading_common.isDataStale Date_getTime STALE_THRESHOLD_MS now
                 (field state "lastUpdate")); [| reflexivity].
  rewrite !field_insert_ne by discriminate. reflexivity.
Qed.

(** *** [staleCheckTimer] names the pending stale checks *)

Lemma named_same_timers (c c' : client) :
  timers (host c') = timers (host c) →
  staleCheckTimer c' = staleCheckTimer c →
  stale_checks_named c → stale_checks_named c'.
Proof.
  unfold stale_checks_named, pending_staleChecks, pending.
  intros -> ->. tauto.
Qed.

Lemma named_connect (c : client) :
  stale_checks_named c → stale_checks_named (connect c).
Proof.
  apply named_same_timers; unfold connect;
    destruct (is_open (host c) (ws c)); simpl; try reflexivity;
    destruct (refuses (host c)); reflexivity.
Qed.

Lemma named_startStaleCheck (c : client) :
  stale_checks_named c → stale_checks_named (startStaleCheck c).
Proof.
  intros [Hrep Hpending]. unfold startStaleCheck.
  destruct (staleCheckTimer c) as [id|] eqn:Hsct;
    [unfold stale_checks_named; rewrite Hsct; split; assumption |].
  unfold stale_checks_named, pending_staleChecks in *. simpl.
  split.
  - apply Forall_app. split; [exact Hrep |].
    apply Forall_singleton. reflexivity.
  - change (pending staleCheck_cb (set_timer staleCheck_cb 30000 true (host c)).1
            = [next_timer (host c)]).
    rewrite pending_set_timer, decide_True by reflexivity.
    rewrite Hpending. reflexivity.
Qed.

Lemma named_onopen (c : client) :
  stale_checks_named c → stale_checks_named (onopen c).
Proof.
  intros Hc. unfold onopen.
  eapply named_same_timers; [apply timers_send | reflexivity |].
  apply named_startStaleCheck.
  eapply named_same_timers; [| | exact Hc]; reflexivity.
Qed.

Lemma named_onclose (c : client) :
  stale_checks_named c → stale_checks_named (onclose c).
Proof.
  intros [Hrep Hpending]. unfold onclose. simpl.
  destruct (reconnectTimer c) as [id|]; [split; assumption |].
  unfold stale_checks_named, pending_staleChecks in *. simpl. split.
  - apply Forall_app. split; [exact Hrep |].
    apply Forall_singleton. discriminate.
  - change (pending staleCheck_cb (set_timer reconnect_cb 5000 false (host c)).1
            = option_list (staleCheckTimer c)).
    rewrite pending_set_timer, decide_False by discriminate.
    rewrite app_nil_r. exact Hpending.
Qed.

Lemma filter_other_singleton (id : nat) :
  filter (λ i : nat, i ≠ id) [id] = [].
Proof. rewrite filter_cons, decide_False by tauto. reflexivity. Qed.

Lemma named_clear (e : env callback) (id : nat) :
  Forall (λ t, timer_cb t = staleCheck_cb → timer_repeats t = true) (timers e) →
  pending staleCheck_cb e = [] →
  Forall (λ t, timer_cb t = staleCheck_cb → timer_repeats t = true)
         (timers (clear_timer id e))
  ∧ pending staleCheck_cb (clear_timer id e) = [].
Proof.
  intros Hrep Hpending. split.
  - apply Forall_filter_keep. exact Hrep.
  - rewrite pending_clear_timer, Hpending. reflexivity.
Qed.

Lemma named_disconnect (c : client) :
  stale_checks_named c →
  stale_checks_named (disconnect c)
  ∧ staleCheckTimer (disconnect c) = None.
Proof.
  destruct c as [st w rt sct h].
  unfold stale_checks_named, pending_staleChecks, disconnect, stopStaleCheck.
  simpl. intros [Hrep Hpending].
  assert (Hstop : ∃ h1, (match sct with
                         | Some id =>
                             with_staleCheckTimer None
                               (with_host (clear_timer id h)
                                  {| store := st; ws := w; reconnectTimer := rt;
                                     staleCheckTimer := sct; host := h |})
                         | None =>
                             {| store := st; ws := w; reconnectTimer := rt;
                                staleCheckTimer := sct; host := h |}
                         end)
                        = {| store := st; ws := w; reconnectTimer := rt;
                             staleCheckTimer := None; host := h1 |}
                        ∧ Forall (λ t, timer_cb t = staleCheck_cb →
                                       timer_repeats t = true) (timers h1)
                        ∧ pending staleCheck_cb h1 = []).
  { destruct sct as [sid|].
    - exists (clear_timer sid h). split; [reflexivity |]. split.
      + apply Forall_filter_keep. exact Hrep.
      + rewrite pending_clear_timer, Hpending. simpl.
        apply filter_other_singleton.
    - exists h. auto. }
  destruct Hstop as (h1 & -> & Hrep1 & Hp1). simpl.
  assert (Hrt : ∃ h2, (match rt with
                       | Some id =>
                           with_reconnectTimer None
                             (with_host (clear_timer id h1)
                                {| store := st; ws := w; reconnectTimer := rt;
                                   staleCheckTimer := None; host := h1 |})
                       | None =>
                           {| store := st; ws := w; reconnectTimer := rt;
                              staleCheckTimer := None; host := h1 |}
                       end)
                      = {| store := st; ws := w; reconnectTimer := match rt with Some _ => None | None => rt end;
                           staleCheckTimer := None; host := h2 |}
                      ∧ Forall (λ t, timer_cb t = staleCheck_cb →
                                     timer_repeats t = true) (timers h2)
                      ∧ pending staleCheck_cb h2 = []).
  { destruct rt as [rid|].
    - exists (clear_timer rid h1). split; [reflexivity |].
      apply named_clear; assumption.
    - exists h1. auto. }
  destruct Hrt as (h2 & -> & Hrep2 & Hp2). simpl.
  destruct w as [s|]; simpl; [| auto].
  unfold pending. rewrite (proj1 (timers_close_socket s h2)). auto.
Qed.

Lemma named_fire (now : Z) (t : timer callback) (c : client) :
  consistent c → stale_checks_named c → t ∈ timers (host c) →
  stale_checks_named (run_callback Date_getTime now (timer_cb t)
                        (with_host (take_timer t (host c)) c)).
Proof.
  intros (Hwf & Hto & _) [Hrep Hpending] Ht.
  unfold pending_staleChecks in Hpending.
  assert (Hnamed : stale_checks_named (with_host (take_timer t (host c)) c)).
  { split.
    - simpl. unfold take_timer. simpl.
      assert (Hrest : Forall (λ t0, timer_cb t0 = staleCheck_cb →
                                    timer_repeats t0 = true)
                        (filter (λ t', timer_id t' ≠ timer_id t) (timers (host c))))
        by (apply Forall_filter_keep; exact Hrep).
      destruct (timer_repeats t); [| exact Hrest].
      apply Forall_app. split; [exact Hrest |].
      apply Forall_singleton. reflexivity.
    - unfold pending_staleChecks. simpl.
      rewrite pending_take_timer.
      destruct (decide (timer_cb t = staleCheck_cb)) as [Hcb|Hcb].
      + assert (Hin : timer_id t ∈ pending staleCheck_cb (host c))
          by (apply elem_of_pending; eauto).
        rewrite Forall_forall in Hrep. rewrite (Hrep t Ht Hcb).
        rewrite Hpending in Hin |- *.
        destruct (staleCheckTimer c) as [sid|]; simpl in *; [| inversion Hin].
        apply list_elem_of_singleton in Hin. subst sid.
        rewrite filter_other_singleton. reflexivity.
      + rewrite filter_absent
          by (apply other_callback_not_pending; assumption).
        destruct (timer_repeats t); rewrite app_nil_r; exact Hpending. }
  destruct (timer_cb t); simpl.
  - apply named_connect.
    eapply named_same_timers; [| | exact Hnamed]; reflexivity.
  - eapply named_same_timers; [| | exact Hnamed]; reflexivity.
Qed.

Lemma named_step (now : Z) (e : event) (c c' : client) :
  consistent c → stale_checks_named c →
  step now e c = Some c' → stale_checks_named c'.
Proof.
  intros Hcons Hc. unfold step, trading_ts.step.
  destruct (now <? clock (host c))%Z; [discriminate |].
  apply (consistent_at_time now) in Hcons.
  assert (Hc0 : stale_checks_named (with_host (at_time now (host c)) c))
    by (eapply named_same_timers; [| | exact Hc]; reflexivity).
  clear Hc. set (c0 := with_host (at_time now (host c)) c) in *. clearbody c0.
  destruct e as [| |s|s data|s|s|id|s].
  - intros [= <-]. apply named_connect. exact Hc0.
  - intros [= <-]. apply named_disconnect. exact Hc0.
  - destruct (ready (host c0) s) as [[]|]; try discriminate.
    intros [= <-]. apply named_onopen.
    eapply named_same_timers; [| | exact Hc0]; reflexivity.
  - destruct (ready (host c0) s) as [[]|]; try discriminate.
    intros [= <-]. eapply named_same_timers; [| | exact Hc0]; reflexivity.
  - destruct (ready (host c0) s) as [[]|]; try discriminate;
      intros [= <-]; (eapply named_same_timers; [| | exact Hc0]; reflexivity).
  - destruct (ready (host c0) s) as [[]|]; try discriminate;
      intros [= <-]; apply named_onclose;
      (eapply named_same_timers; [| | exact Hc0]; reflexivity).
  - destruct (find_timer id (host c0)) as [t|] eqn:Hfind; [| discriminate].
    destruct (now <? timer_due t)%Z; [discriminate |].
    intros [= <-]. apply named_fire; [exact Hcons | exact Hc0 |].
    apply (find_timer_Some id). exact Hfind.
  - destruct (ready (host c0) s) as [[]|]; try discriminate.
    intros [= <-]. eapply named_same_timers; [| | exact Hc0]; reflexivity.
Qed.

(** *** [connected] needs a socket that has not closed *)

Lemma unclosed_closing (e : env callback) (s s0 : nat) :
  ready e s = Some OPEN → unclosed e s0 → unclosed (set_ready s CLOSING e) s0.
Proof.
  intros Hs Hs0. unfold unclosed, ready in *. simpl.
  destruct (decide (s0 = s)) as [->|Hne].
  - right. apply list_lookup_insert_eq. eapply lookup_lt_Some. exact Hs.
  - rewrite list_lookup_insert_ne by congruence. exact Hs0.
Qed.

Lemma open_same_sockets (c c' : client) :
  sockets (host c') = sockets (host c) →
  field (store c') "connected" = field (store c) "connected" →
  connected_while_unclosed c → connected_while_unclosed c'.
Proof.
  unfold connected_while_unclosed, unclosed, ready. intros -> ->. tauto.
Qed.

Lemma sockets_send (w : option nat) (frame : value) (e : env callback) :
  sockets (send w frame e) = sockets e.
Proof.
  unfold send. destruct w as [s|]; [destruct (is_open e (Some s)) |]; reflexivity.
Qed.

Lemma open_connect (c : client) :
  connected_while_unclosed c → connected_while_unclosed (connect c).
Proof.
  intros Hc. unfold connect.
  destruct (is_open (host c) (ws c)); [exact Hc |]. simpl.
  destruct (refuses (host c)).
  - eapply open_same_sockets; [| | exact Hc]; [reflexivity |].
    simpl. rewrite !field_insert_ne by discriminate. reflexivity.
  - unfold connected_while_unclosed, unclosed, ready in *. simpl.
    rewrite field_insert_ne by discriminate.
    intros Hconn. destruct (Hc Hconn) as [s [Hs | Hs]]; exists s;
      [left | right]; apply lookup_app_l_Some; exact Hs.
Qed.

Lemma sockets_onopen (c : client) : sockets (host (onopen c)) = sockets (host c).
Proof.
  unfold onopen, startStaleCheck.
  destruct c as [st w rt [sid|] h]; simpl; rewrite sockets_send; reflexivity.
Qed.

Lemma open_onopen (s : nat) (c : client) :
  ready (host c) s = Some CONNECTING →
  connected_while_unclosed (onopen (with_host (set_ready s OPEN (host c)) c)).
Proof.
  intros Hs _. exists s. left. unfold ready. rewrite sockets_onopen. simpl.
  apply list_lookup_insert_eq. eapply lookup_lt_Some. exact Hs.
Qed.

Lemma open_onclose (c : client) : connected_while_unclosed (onclose c).
Proof.
  unfold connected_while_unclosed, onclose. simpl.
  assert (Hfalse : field (<[ "connected" := VBool false ]> (store c)) "connected"
                   = VBool false)
    by (unfold field; rewrite lookup_insert_eq; reflexivity).
  destruct (reconnectTimer c); simpl; rewrite Hfalse; discriminate.
Qed.

Lemma store_disconnect (c : client) : store (disconnect c) = initialState.
Proof. reflexivity. Qed.

Lemma initially_not_connected : field initialState "connected" = VBool false.
Proof. reflexivity. Qed.

Lemma open_disconnect (c : client) : connected_while_unclosed (disconnect c).
Proof.
  unfold connected_while_unclosed. rewrite store_disconnect, initially_not_connected.
  discriminate.
Qed.

Lemma open_fire (now : Z) (t : timer callback) (c : client) :
  connected_while_unclosed c →
  connected_while_unclosed (run_callback Date_getTime now (timer_cb t)
                          (with_host (take_timer t (host c)) c)).
Proof.
  intros Hc.
  assert (Hc1 : connected_while_unclosed (with_host (take_timer t (host c)) c))
    by (eapply open_same_sockets; [| | exact Hc]; reflexivity).
  destruct (timer_cb t); simpl.
  - apply open_connect.
    eapply open_same_sockets; [| | exact Hc1]; reflexivity.
  - eapply open_same_sockets; [| | exact Hc1]; [reflexivity |].
    apply staleCheck_keeps_connected.
Qed.

Lemma open_step (now : Z) (e : event) (c c' : client) :
  connected_while_unclosed c → step now e c = Some c' → connected_while_unclosed c'.
Proof.
  intros Hc. unfold step, trading_ts.step.
  destruct (now <? clock (host c))%Z; [discriminate |].
  assert (Hc0 : connected_while_unclosed (with_host (at_time now (host c)) c))
    by (eapply open_same_sockets; [| | exact Hc]; reflexivity).
  clear Hc. set (c0 := with_host (at_time now (host c)) c) in *. clearbody c0.
  destruct e as [| |s|s data|s|s|id|s].
  - intros [= <-]. apply open_connect. exact Hc0.
  - intros [= <-]. apply open_disconnect.
  - destruct (ready (host c0) s) as [[]|] eqn:Hs; try discriminate.
    intros [= <-]. apply open_onopen. exact Hs.
  - destruct (ready (host c0) s) as [[]|]; try discriminate.
    intros [= <-]. eapply open_same_sockets; [| | exact Hc0]; [reflexivity |].
    apply onmessage_keeps_connected.
  - destruct (ready (host c0) s) as [[]|]; try discriminate;
      intros [= <-];
      (eapply open_same_sockets; [| | exact Hc0]; [reflexivity |]);
      simpl; apply field_insert_ne; discriminate.
  - destruct (ready (host c0) s) as [[]|]; try discriminate;
      intros [= <-]; apply open_onclose.
  - destruct (find_timer id (host c0)) as [t|] eqn:Hfind; [| discriminate].
    destruct (now <? timer_due t)%Z; [discriminate |].
    intros [= <-]. apply open_fire. exact Hc0.
  - destruct (ready (host c0) s) as [[]|] eqn:Hs; try discriminate.
    intros [= <-] Hconn. destruct (Hc0 Hconn) as [s0 Hs0].
    exists s0. apply unclosed_closing; assumption.
Qed.

(** *** Every reachable state is settled *)

Lemma settled_step (now : Z) (e : event) (c c' : client) :
  settled c → step now e c = Some c' → settled c'.
Proof.
  intros (Hcons & Hnamed & Hopen) Hstep. split; [| split].
  - eapply consistent_step; eassumption.
  - eapply named_step; eassumption.
  - eapply open_step; eassumption.
Qed.

Lemma settled_run (trace : list (Z * event)) (c c' : client) :
  settled c → run trace c = Some c' → settled c'.
Proof.
  revert c. induction trace as [|[now e] rest IH]; intros c Hc; simpl.
  - intros [= <-]. exact Hc.
  - destruct (trading_ts.step Date_getTime Date_toISOString JSON_parse now e c)
      as [c1|] eqn:Hstep; simpl; [| discriminate].
    apply IH. eapply settled_step; eassumption.
Qed.

Lemma settled_created (start : Z) (refuse : bool) :
  settled (created start refuse).
Proof.
  split; [apply consistent_created | split].
  - split; [apply Forall_nil_2 | reflexivity].
  - unfold connected_while_unclosed. simpl. rewrite initially_not_connected.
    discriminate.
Qed.

Lemma reachable_settled (c : client) : reachable c → settled c.
Proof.
  intros (start & refuse & trace & Hrun).
  eapply settled_run; [apply settled_created | exact Hrun].
Qed.

(** Every timer of the trading stream is a reconnect or a stale check. *)
Lemma no_timers (e : env callback) :
  pending reconnect_cb e = [] → pending staleCheck_cb e = [] → timers e = [].
Proof.
  unfold pending. destruct (timers e) as [|t l]; [reflexivity |].
  rewrite !filter_cons.
  destruct (timer_cb t) eqn:Hcb.
  - rewrite decide_True by reflexivity. discriminate.
  - rewrite decide_False by discriminate.
    rewrite decide_True by reflexivity. discriminate.
Qed.

(** X15.  However the trading stream got where it is, it has at most one
    stale check interval pending, the one [staleCheckTimer] names: opening
    sockets again and again never stacks up intervals. *)
Theorem one_stale_check_interval (c : client) :
  reachable c →
  pending_staleChecks c = option_list (staleCheckTimer c)
  ∧ (length (pending_staleChecks c) <= 1)%nat
  ∧ (∀ t, t ∈ timers (host c) → timer_cb t = staleCheck_cb →
          timer_repeats t = true ∧ staleCheckTimer c = Some (timer_id t)).
Proof.
  intros Hreach. destruct (reachable_settled c Hreach) as (_ & [Hrep Hnamed] & _).
  split; [exact Hnamed |]. split.
  - rewrite Hnamed. destruct (staleCheckTimer c); simpl; lia.
  - intros t Ht Hcb. rewrite Forall_forall in Hrep. split; [auto |].
    assert (Hin : timer_id t ∈ pending_staleChecks c)
      by (apply elem_of_pending; eauto).
    rewrite Hnamed in Hin.
    destruct (staleCheckTimer c) as [sid|]; simpl in Hin; [| inversion Hin].
    apply list_elem_of_singleton in Hin. congruence.
Qed.

(** X16.  In every state the trading stream can reach, the store says
    [connected: true] only while some socket it made has not delivered
    its close event: one that is open, or in its closing handshake. *)
Theorem connected_needs_unclosed_socket (c : client) :
  reachable c →
  field (store c) "connected" = VBool true →
  ∃ s : nat, unclosed (host c) s.
Proof.
  intros Hreach. destruct (reachable_settled c Hreach) as (_ & _ & Hopen).
  exact Hopen.
Qed.

(** X17.  [disconnect()], called in any state the trading stream can
    reach, leaves no timer pending at all, resets the store to its
    initial state and forgets the socket and both timers; calling it
    again changes nothing. *)
Theorem disconnect_cancels_all_timers (c : client) :
  reachable c →
  timers (host (disconnect c)) = []
  ∧ store (disconnect c) = initialState
  ∧ ws (disconnect c) = None
  ∧ reconnectTimer (disconnect c) = None
  ∧ staleCheckTimer (disconnect c) = None
  ∧ disconnect (disconnect c) = disconnect c.
Proof.
  intros Hreach. destruct (reachable_settled c Hreach) as (Hcons & Hnamed & _).
  destruct (named_disconnect c Hnamed) as [[_ Hp] Hsct].
  destruct (consistent_disconnect c Hcons) as (_ & _ & Hr).
  assert (Hrt : reconnectTimer (disconnect c) = None).
  { unfold disconnect, stopStaleCheck.
    destruct c as [st [s|] [rid|] [sid|] h]; reflexivity. }
  unfold pending_staleChecks in Hp. unfold pending_reconnects in Hr.
  rewrite Hsct in Hp. rewrite Hrt in Hr.
  split; [apply no_timers; assumption |].
  split; [reflexivity |]. split; [apply ws_disconnect |].
  split; [exact Hrt |]. split; [exact Hsct |].
  pose proof (store_disconnect c) as Hst.
  revert Hst Hrt Hsct. generalize (ws_disconnect c).
  generalize (disconnect c). intros [st w rt sct h]. simpl.
  intros -> -> -> ->. reflexivity.
Qed.

End TradingSettled.
(** ** The later copy: history entries and replay *)

Section History.

Import trading_common trading_next.

Lemma find_by_date_elem (d : value) (items : list value) (found : value) :
  find_by_date d items = Some found → found = VUndefined ∨ found ∈ items.
Proof.
  induction items as [|x rest IH]; simpl.
  - intros [= <-]. auto.
  - destruct (get x "date") as [xd|]; simpl; [| intros Hnone; discriminate Hnone].
    destruct (get d "date") as [dd|]; simpl; [| intros Hnone; discriminate Hnone].
    destruct (strict_equals xd dd).
    + intros [= <-]. right. apply list_elem_of_here.
    + intros H. destruct (IH H); [auto | right].
      apply list_elem_of_further. assumption.
Qed.

Lemma replace_by_date_cons (d x : value) (rest : list value) :
  replace_by_date d (x :: rest)
  = (xdate ← get x "date";
     ddate ← get d "date";
     k ← replace_by_date d rest;
     Some ((if strict_equals xdate ddate then d else x) :: k)).
Proof.
  unfold replace_by_date. simpl.
  destruct (get x "date"); simpl; [| reflexivity].
  destruct (get d "date"); reflexivity.
Qed.

Lemma replace_by_date_length (d : value) (items updated : list value) :
  replace_by_date d items = Some updated → length updated = length items.
Proof.
  revert updated. induction items as [|x rest IH]; intros updated.
  - intros [= <-]. reflexivity.
  - rewrite replace_by_date_cons.
    destruct (get x "date") as [xd|]; simpl; [| discriminate].
    destruct (get d "date") as [dd|]; simpl; [| discriminate].
    destruct (replace_by_date d rest) as [k|]; simpl; [| discriminate].
    intros [= <-]. simpl. rewrite (IH k eq_refl). reflexivity.
Qed.

Lemma replace_by_date_stable (d dd : value) (items updated : list value) :
  get d "date" = Some dd → strict_equals dd dd = true →
  replace_by_date d items = Some updated →
  replace_by_date d updated = Some updated
  ∧ ∃ found, find_by_date d updated = Some found
             ∧ (found = d ∨ found = VUndefined).
Proof.
  intros Hd Hdd. revert updated.
  induction items as [|x rest IH]; intros updated.
  - intros [= <-]. split; [reflexivity |]. simpl. eauto.
  - rewrite replace_by_date_cons.
    destruct (get x "date") as [xd|] eqn:Hx; simpl;
      [| intros Hnone; discriminate Hnone].
    rewrite Hd. simpl.
    destruct (replace_by_date d rest) as [k|]; simpl;
      [| intros Hnone; discriminate Hnone].
    destruct (IH k eq_refl) as [Hk (found & Hfound & Hwhich)].
    intros [= <-]. rewrite replace_by_date_cons. simpl.
    destruct (strict_equals xd dd) eqn:Hxd.
    + rewrite Hd. simpl. rewrite Hdd, Hk. simpl. eauto.
    + rewrite Hx. simpl. rewrite Hd. simpl. rewrite Hxd, Hk. simpl. eauto.
Qed.

Lemma merge_by_date_stable (d old merged : value) :
  dated d → merge_by_date d old = Some merged →
  merge_by_date d merged = Some merged.
Proof.
  intros [Htruthy (dd & Hd & Hdd)]. unfold merge_by_date.
  destruct old as [| | | | |items|]; try discriminate.
  destruct (replace_by_date d items) as [updated|] eqn:Hrep; simpl;
    [| intros Hnone; discriminate Hnone].
  destruct (replace_by_date_stable _ _ _ _ Hd Hdd Hrep)
    as [Hstable (found & Hfound & Hwhich)].
  rewrite Hfound. simpl. intros [= <-].
  destruct Hwhich as [-> | ->].
  - rewrite Htruthy, Hstable. simpl. rewrite Hfound. simpl.
    rewrite Htruthy. reflexivity.
  - change (truthy VUndefined) with false. cbv iota.
    rewrite replace_by_date_cons.
    rewrite Hd. simpl. rewrite Hdd, Hstable. simpl.
    rewrite Hd. simpl. rewrite Hdd. simpl. rewrite Htruthy. reflexivity.
Qed.

Lemma merge_by_date_spec (d dd : value) (items updated : list value) :
  get d "date" = Some dd → strict_equals dd dd = true →
  replace_by_date d items = Some updated →
  updated = List.map (λ x, if strict_equals (get_opt x "date") dd then d else x)
              items
  ∧ find_by_date d updated
    = Some (if existsb (λ x, strict_equals (get_opt x "date") dd) items
            then d else VUndefined).
Proof.
  intros Hd Hdd. revert updated.
  induction items as [|x rest IH]; intros updated.
  - intros [= <-]. split; reflexivity.
  - rewrite replace_by_date_cons.
    destruct (get x "date") as [xd|] eqn:Hx; simpl;
      [| intros Hnone; discriminate Hnone].
    rewrite Hd. simpl.
    destruct (replace_by_date d rest) as [k|]; simpl;
      [| intros Hnone; discriminate Hnone].
    destruct (IH k eq_refl) as [Hk Hfound].
    intros [= <-].
    assert (Hread : get_opt x "date" = xd)
      by (unfold get_opt; rewrite Hx; reflexivity).
    rewrite Hread. split; [rewrite Hk; reflexivity |].
    simpl. destruct (strict_equals xd dd) eqn:Hxd; simpl.
    + rewrite Hd. simpl. rewrite Hdd. reflexivity.
    + rewrite Hx. simpl. rewrite Hd. simpl. rewrite Hxd. exact Hfound.
Qed.

(** X18.  The merge of a dated history entry into a list is an upsert by
    date: when some entry of the list has the new entry's date, the
    entries with that date are replaced by the new one and all others
    stay, in place; when none has, the new entry is put in front of the
    unchanged list.  Merging the same entry again changes nothing. *)
Theorem merge_by_date_upserts (d dd : value) (items : list value) (merged : value) :
  dated d →
  get d "date" = Some dd →
  merge_by_date d (VArr items) = Some merged →
  merged
  = VArr (if existsb (λ x, strict_equals (get_opt x "date") dd) items
          then List.map (λ x, if strict_equals (get_opt x "date") dd then d else x)
                 items
          else d :: items)
  ∧ merge_by_date d merged = Some merged.
Proof.
  intros Hdated Hd Hmerge.
  pose proof (merge_by_date_stable _ _ _ Hdated Hmerge) as Hagain.
  split; [| exact Hagain].
  destruct Hdated as [Htruthy (dd' & Hd' & Hdd)].
  assert (dd' = dd) by congruence. subst dd'.
  unfold merge_by_date in Hmerge.
  destruct (replace_by_date d items) as [updated|] eqn:Hrep; simpl in Hmerge;
    [| discriminate].
  destruct (merge_by_date_spec _ _ _ _ Hd Hdd Hrep) as [Hupdated Hfound].
  rewrite Hfound in Hmerge. simpl in Hmerge. injection Hmerge as <-.
  destruct (existsb (λ x, strict_equals (get_opt x "date") dd) items) eqn:Hany.
  - rewrite Htruthy, Hupdated. reflexivity.
  - simpl. f_equal. f_equal. rewrite Hupdated.
    clear -Hany. induction items as [|x rest IH]; [reflexivity |].
    simpl in *. apply orb_false_iff in Hany as [Hx Hrest].
    rewrite Hx, IH by exact Hrest. reflexivity.
Qed.

Lemma history_update_stable (state : TradingState) (payload : value)
    (u : TradingState) (lu : value) :
  dated (get_opt payload "daily_stats") →
  dated (get_opt payload "ml_metrics") →
  history_update state payload = Some u →
  history_update (<[ "error" := VNull ]> (<[ "lastUpdate" := lu ]> (u ∪ state)))
    payload = Some u.
Proof.
  intros Hdaily Hml. unfold history_update.
  assert (Hfield : ∀ u' : TradingState,
            field (<[ "error" := VNull ]> (<[ "lastUpdate" := lu ]> (u' ∪ state)))
              "historySummary"
            = default (field state "historySummary") (u' !! "historySummary")).
  { intros u'. unfold field. rewrite !lookup_insert_ne by discriminate.
    rewrite lookup_union.
    destruct (u' !! "historySummary"), (state !! "historySummary"); reflexivity. }
  destruct (truthy (field state "historySummary")) eqn:Hsummary; simpl.
  - destruct (get payload "daily_stats") as [daily|] eqn:Hgd; simpl;
      [| intros Hnone; discriminate Hnone].
    destruct (get payload "ml_metrics") as [ml|] eqn:Hgm; simpl; [| intros Hnone; discriminate Hnone].
    unfold get_opt in Hdaily, Hml. rewrite Hgd in Hdaily. rewrite Hgm in Hml.
    simpl in Hdaily, Hml.
    destruct (get (field state "historySummary") "daily_stats") as [old_daily|];
      simpl; [| intros Hnone; discriminate Hnone].
    destruct (merge_by_date daily old_daily) as [new_daily|] eqn:Hmd; simpl;
      [| intros Hnone; discriminate Hnone].
    destruct (get (field state "historySummary") "ml_metrics") as [old_ml|];
      simpl; [| intros Hnone; discriminate Hnone].
    destruct (merge_by_date ml old_ml) as [new_ml|] eqn:Hmm; simpl;
      [| intros Hnone; discriminate Hnone].
    intros [= <-]. rewrite Hfield, lookup_singleton_eq. simpl.
    rewrite (assoc_obj_set_other "daily_stats" "ml_metrics") by discriminate.
    rewrite !assoc_obj_set_same. simpl.
    rewrite (merge_by_date_stable _ _ _ Hdaily Hmd). simpl.
    rewrite (merge_by_date_stable _ _ _ Hml Hmm). simpl.
    rewrite (obj_set_same_value "daily_stats")
      by (rewrite assoc_obj_set_other by discriminate; apply assoc_obj_set_same).
    rewrite obj_set_twice. reflexivity.
  - intros [= <-]. rewrite Hfield, lookup_empty. simpl.
    rewrite Hsummary. reflexivity.
Qed.

(** Everything found under a topic in the later copy does not read the
    state, but for the history update and the inherited [constructor]. *)
Lemma next_handlers_spec (topic : string) (h : handler) :
  trading_next.TOPIC_HANDLERS topic = Some h →
  (topic ≠ "trader/history/update" ∧ (ignores_state h ∨ h = Object_constructor))
  ∨ (topic = "trader/history/update" ∧ h = history_update).
Proof.
  unfold trading_next.TOPIC_HANDLERS. intros Hh.
  apply member_spec in Hh as [H | [Hown Hproto]].
  - unfold shared_handlers in H. simpl in H.
    repeat match type of H with
           | (if String.eqb topic ?t then _ else _) = Some _ =>
               destruct (String.eqb_spec topic t) as [->|?];
               [ injection H as <-;
                 first [ left; split; [discriminate |];
                         left; intros ? ? ?; reflexivity
                       | right; split; reflexivity ]
               | ]
           end.
    discriminate H.
  - left. split.
    + intros ->.
      assert (Hk : trading_next.TOPIC_HANDLERS "trader/history/update"
                   = Some history_update) by reflexivity.
      unfold trading_next.TOPIC_HANDLERS, member in Hk. rewrite Hown in Hk.
      change (None = Some history_update) in Hk. discriminate Hk.
    + destruct Hproto as [-> | [-> | ->]];
        auto using Object_toString_ignores_state, raises_ignores_state.
Qed.

Variable Date_toISOString : Z → string.
Variable JSON_parse : string → option value.

(** X19.  In the later copy, delivering the same frame twice leaves the
    state as the first delivery left it, for every topic with a reducer,
    when the message or its payload carries a timestamp; for the
    incremental history update this needs the two entries of the payload
    to be dated. *)
Theorem next_replay_is_idempotent (now1 now2 : Z) (data : string)
    (message topic payload : value) (h : handler) (state : TradingState) :
  JSON_parse data = Some message →
  data_message message topic payload →
  trading_next.TOPIC_HANDLERS (to_string topic) = Some h →
  truthy (or_else (get_opt message "timestamp") (get_opt payload "timestamp"))
  = true →
  (to_string topic = "trader/history/update" →
   dated (get_opt payload "daily_stats") ∧ dated (get_opt payload "ml_metrics")) →
  trading_next.onmessage Date_toISOString JSON_parse now2 data
    (trading_next.onmessage Date_toISOString JSON_parse now1 data state)
  = trading_next.onmessage Date_toISOString JSON_parse now1 data state.
Proof.
  intros Hparse Hmsg Hh Hts Hdated. unfold trading_next.onmessage. rewrite Hparse.
  assert (Hmt : ∀ now,
            trading_next.messageTime Date_toISOString now message payload
            = or_else (get_opt message "timestamp") (get_opt payload "timestamp")).
  { intros now. unfold trading_next.messageTime.
    unfold or_else at 1. rewrite Hts. reflexivity. }
  set (lu := or_else (get_opt message "timestamp") (get_opt payload "timestamp"))
    in *.
  destruct (h state payload) as [u|] eqn:Hu.
  - rewrite (next_handleMessage_accepted _ _ _ _ _ _ _ _ Hmsg Hh Hu). simpl.
    rewrite Hmt.
    assert (Hagain : ∀ v : TradingState,
              <[ "error" := VNull ]>
                (<[ "lastUpdate" := lu ]>
                   (v ∪ <[ "error" := VNull ]> (<[ "lastUpdate" := lu ]> (v ∪ state))))
              = <[ "error" := VNull ]> (<[ "lastUpdate" := lu ]> (v ∪ state))).
    { intros v. apply map_eq. intros k.
      destruct (decide (k = "error")) as [->|Herr].
      { rewrite !lookup_insert_eq. reflexivity. }
      rewrite !(lookup_insert_ne _ "error" k) by congruence.
      destruct (decide (k = "lastUpdate")) as [->|Hk].
      - rewrite !lookup_insert_eq. reflexivity.
      - rewrite !(lookup_insert_ne _ "lastUpdate" k) by congruence.
        rewrite !lookup_union.
        rewrite (lookup_insert_ne _ "error" k) by congruence.
        rewrite (lookup_insert_ne _ "lastUpdate" k) by congruence.
        rewrite lookup_union. destruct (v !! k), (state !! k); reflexivity. }
    destruct (next_handlers_spec _ _ Hh) as [[_ [Hpure | ->]] | [Htopic ->]].
    + assert (Hu' : h (<[ "error" := VNull ]>
                         (<[ "lastUpdate" := lu ]> (u ∪ state))) payload = Some u)
        by (rewrite <- Hu; apply Hpure).
      rewrite (next_handleMessage_accepted _ _ _ _ _ _ _ _ Hmsg Hh Hu'). simpl.
      rewrite Hmt. apply Hagain.
    + apply Object_constructor_returns in Hu as ->.
      rewrite (next_handleMessage_accepted _ _ _ _ _ _ _ _ Hmsg Hh eq_refl). simpl.
      rewrite Hmt, !union_self.
      pose proof (Hagain ∅) as Hempty.
      rewrite !(left_id_L ∅ (∪)) in Hempty. exact Hempty.
    + destruct (Hdated Htopic) as [Hdaily Hml].
      rewrite (next_handleMessage_accepted _ _ _ _ _ _ _ _ Hmsg Hh
                 (history_update_stable _ _ _ lu Hdaily Hml Hu)). simpl.
      rewrite Hmt. apply Hagain.
  - assert (Hraises : ∀ now,
              trading_next.handleMessage Date_toISOString now message state = None).
    { intros now. destruct Hmsg as (Htype & Htopic & Htt & Hpayload & Htp).
      unfold trading_next.handleMessage.
      rewrite Htype, Htopic, Hpayload. simpl.
      rewrite Htt, Htp, Hh. simpl. rewrite Hu. reflexivity. }
    rewrite Hraises. simpl. rewrite Hraises. reflexivity.
Qed.

End History.
(** ** More invariants of the device stream *)

Section DeviceSettled.

Import host websocket_ts.

Variable JSON_parse : string → option value.

Let step := websocket_ts.step JSON_parse.
Let run := websocket_ts.run JSON_parse.
Let reachable := websocket_ts.reachable JSON_parse.

Lemma ws_open_same_sockets (c c' : client) :
  sockets (host c') = sockets (host c) →
  connected (store c') = connected (store c) →
  connected_while_unclosed c → connected_while_unclosed c'.
Proof.
  unfold connected_while_unclosed, unclosed, ready. intros -> ->. tauto.
Qed.

Lemma ws_unclosed_closing (e : env callback) (s s0 : nat) :
  ready e s = Some OPEN → unclosed e s0 → unclosed (set_ready s CLOSING e) s0.
Proof.
  intros Hs Hs0. unfold unclosed, ready in *. simpl.
  destruct (decide (s0 = s)) as [->|Hne].
  - right. apply list_lookup_insert_eq. eapply lookup_lt_Some. exact Hs.
  - rewrite list_lookup_insert_ne by congruence. exact Hs0.
Qed.

Lemma ws_sockets_send (w : option nat) (frame : value) (e : env callback) :
  sockets (send w frame e) = sockets e.
Proof.
  unfold send. destruct w as [s|]; [destruct (is_open e (Some s)) |]; reflexivity.
Qed.

Lemma ws_open_connect (c : client) :
  connected_while_unclosed c → connected_while_unclosed (connect c).
Proof.
  intros Hc. unfold connect.
  destruct (is_open (host c) (ws c)); [exact Hc |]. simpl.
  destruct (refuses (host c)).
  - eapply ws_open_same_sockets; [| | exact Hc]; reflexivity.
  - unfold connected_while_unclosed, unclosed, ready in *. simpl.
    intros Hconn. destruct (Hc Hconn) as [s [Hs | Hs]]; exists s;
      [left | right]; apply lookup_app_l_Some; exact Hs.
Qed.

Lemma ws_open_onopen (s : nat) (c : client) :
  ready (host c) s = Some CONNECTING →
  connected_while_unclosed (onopen (with_host (set_ready s OPEN (host c)) c)).
Proof.
  intros Hs _. exists s. left. unfold ready, onopen. simpl.
  apply list_lookup_insert_eq. eapply lookup_lt_Some. exact Hs.
Qed.

Lemma ws_open_onclose (c : client) : connected_while_unclosed (onclose c).
Proof.
  unfold connected_while_unclosed, onclose.
  destruct c as [st d w [rid|] [pid|] h]; simpl; discriminate.
Qed.

Lemma ws_open_disconnect (c : client) : connected_while_unclosed (disconnect c).
Proof.
  unfold connected_while_unclosed, disconnect.
  destruct c as [st d [s|] [rid|] [pid|] h]; simpl; discriminate.
Qed.

Lemma ws_open_step (now : Z) (e : event) (c c' : client) :
  connected_while_unclosed c → step now e c = Some c' → connected_while_unclosed c'.
Proof.
  intros Hc. unfold step, websocket_ts.step.
  destruct (now <? clock (host c))%Z; [discriminate |].
  assert (Hc0 : connected_while_unclosed (with_host (at_time now (host c)) c))
    by (eapply ws_open_same_sockets; [| | exact Hc]; reflexivity).
  clear Hc. set (c0 := with_host (at_time now (host c)) c) in *. clearbody c0.
  destruct e as [| |s|s data|s|s|id|s].
  - intros [= <-]. apply ws_open_connect. exact Hc0.
  - intros [= <-]. apply ws_open_disconnect.
  - destruct (ready (host c0) s) as [[]|] eqn:Hs; try discriminate.
    intros [= <-]. apply ws_open_onopen. exact Hs.
  - destruct (ready (host c0) s) as [[]|]; try discriminate.
    intros [= <-]. eapply ws_open_same_sockets; [| | exact Hc0]; reflexivity.
  - destruct (ready (host c0) s) as [[]|]; try discriminate;
      intros [= <-];
      (eapply ws_open_same_sockets; [| | exact Hc0]; reflexivity).
  - destruct (ready (host c0) s) as [[]|]; try discriminate;
      intros [= <-]; apply ws_open_onclose.
  - destruct (find_timer id (host c0)) as [t|] eqn:Hfind; [| discriminate].
    destruct (now <? timer_due t)%Z; [discriminate |].
    intros [= <-].
    assert (Hc1 : connected_while_unclosed (with_host (take_timer t (host c0)) c0))
      by (eapply ws_open_same_sockets; [| | exact Hc0]; reflexivity).
    destruct (timer_cb t); simpl.
    + apply ws_open_connect.
      eapply ws_open_same_sockets; [| | exact Hc1]; reflexivity.
    + eapply ws_open_same_sockets; [| | exact Hc1]; [| reflexivity].
      simpl. rewrite ws_sockets_send. reflexivity.
  - destruct (ready (host c0) s) as [[]|] eqn:Hs; try discriminate.
    intros [= <-] Hconn. destruct (Hc0 Hconn) as [s0 Hs0].
    exists s0. apply ws_unclosed_closing; assumption.
Qed.

Lemma ws_open_run (trace : list (Z * event)) (c c' : client) :
  connected_while_unclosed c → run trace c = Some c' → connected_while_unclosed c'.
Proof.
  revert c. induction trace as [|[now e] rest IH]; intros c Hc; simpl.
  - intros [= <-]. exact Hc.
  - destruct (websocket_ts.step JSON_parse now e c) as [c1|] eqn:Hstep; simpl;
      [| discriminate].
    apply IH. eapply ws_open_step; eassumption.
Qed.

(** X20.  In every state the device stream can reach, its store says
    [connected: true] only while some socket it made has not delivered
    its close event: one that is open, or in its closing handshake. *)
Theorem device_connected_needs_unclosed_socket (c : client) :
  reachable c →
  connected (store c) = true →
  ∃ s : nat, unclosed (host c) s.
Proof.
  intros (start & refuse & d & trace & Hrun).
  apply (ws_open_run trace (created start refuse d)); [| exact Hrun].
  unfold connected_while_unclosed. simpl. discriminate.
Qed.

End DeviceSettled.
(** ** The initial state frame and the normalising reducers *)

Section InitialState.

Import devices_store.

Lemma assoc_absent (a : string) (b : list (string * value)) :
  a ∉ b.*1 → assoc a b = None.
Proof.
  induction b as [|[k x] rest IH]; simpl; [reflexivity |].
  rewrite not_elem_of_cons. intros [Hne Hrest].
  destruct (String.eqb_spec a k); [contradiction | auto].
Qed.

Lemma assoc_obj_assign_None (a : string) (base b : list (string * value)) :
  assoc a b = None → assoc a (obj_assign base b) = assoc a base.
Proof.
  unfold obj_assign. revert base.
  induction b as [|[k x] rest IH]; intros base; simpl; [reflexivity |].
  destruct (String.eqb_spec a k) as [->|Hne]; [discriminate |].
  intros Hrest. rewrite IH by exact Hrest.
  apply assoc_obj_set_other. exact Hne.
Qed.

Lemma assoc_obj_assign_Some (a : string) (v : value)
    (base b : list (string * value)) :
  NoDup b.*1 → assoc a b = Some v → assoc a (obj_assign base b) = Some v.
Proof.
  revert base. induction b as [|[k x] rest IH]; intros base; simpl;
    [discriminate |].
  rewrite NoDup_cons. intros [Hk Hnd].
  destruct (String.eqb_spec a k) as [->|Hne].
  - intros [= ->].
    change (obj_assign base ((k, v) :: rest))
      with (obj_assign (obj_set k v base) rest).
    rewrite assoc_obj_assign_None by (apply assoc_absent; exact Hk).
    apply assoc_obj_set_same.
  - intros Hrest.
    change (obj_assign base ((k, x) :: rest))
      with (obj_assign (obj_set k x base) rest).
    apply IH; assumption.
Qed.

(** X27.  One entry of an [initial_state] frame is merged into the state
    bag of the device that answers to its key, not put in its place:
    every attribute of the entry is then the value in the bag, every
    attribute the entry does not mention keeps its value, and the other
    properties of the device are untouched. *)
Theorem initial_state_merges_bag (deviceKey : string) (attributes : value)
    (m m' : DeviceMap) (n : Z) (device : value) :
  find_device (VStr deviceKey) m = Some (Some (VNum n, device)) →
  NoDup (own_props attributes).*1 →
  merge_initial deviceKey attributes m = Some m' →
  (∀ (a : string) (v : value),
     assoc a (own_props attributes) = Some v →
     get_opt (get_opt (map_get (VNum n) m') "state") a = v)
  ∧ (∀ a : string,
       assoc a (own_props attributes) = None →
       get_opt (get_opt (map_get (VNum n) m') "state") a
       = default VUndefined (assoc a (own_props (get_opt device "state"))))
  ∧ (∀ k : string,
       k ≠ "state" →
       assoc k (own_props (map_get (VNum n) m')) = assoc k (own_props device))
  ∧ m'.*1 = m.*1.
Proof.
  intros Hfind Hnd. unfold merge_initial. rewrite Hfind. simpl.
  destruct (get device "state") as [old|] eqn:Hold; simpl; [| discriminate].
  intros [= <-]. rewrite map_get_set_num.
  assert (Hbag : get_opt device "state" = old)
    by (unfold get_opt; rewrite Hold; reflexivity).
  rewrite Hbag.
  assert (Hstate : get_opt (VObj (obj_set "state"
                                    (VObj (obj_assign (own_props old)
                                             (own_props attributes)))
                                    (own_props device))) "state"
                   = VObj (obj_assign (own_props old) (own_props attributes))).
  { unfold get_opt. simpl. rewrite assoc_obj_set_same. reflexivity. }
  rewrite Hstate.
  split; [| split; [| split]].
  - intros a v Ha. unfold get_opt. simpl.
    rewrite (assoc_obj_assign_Some a v) by assumption. reflexivity.
  - intros a Ha. unfold get_opt. simpl.
    rewrite assoc_obj_assign_None by exact Ha. reflexivity.
  - intros k Hk. simpl. apply assoc_obj_set_other. exact Hk.
  - apply map_set_keys_member; [eauto |].
    apply find_device_elem in Hfind.
    apply list_elem_of_fmap. exists (VNum n, device). auto.
Qed.

End InitialState.

Section Normalising.

Import trading_common.

Lemma or_else_filled (x d : value) : nullish d = false → nullish (or_else x d) = false.
Proof.
  intros Hd. unfold or_else. destruct (truthy x) eqn:Hx; [| exact Hd].
  apply truthy_not_nullish. exact Hx.
Qed.

Lemma coalesce_filled (x d : value) : nullish d = false → nullish (coalesce x d) = false.
Proof.
  intros Hd. unfold coalesce. destruct (nullish x) eqn:Hx; [exact Hd | exact Hx].
Qed.

Lemma transform_currencies_filled (entries acc out : list (string * value)) :
  Forall (λ kb : string * value,
            ∃ fields, kb.2 = VObj fields
                      ∧ fields.*1 = ["cash"; "settled_cash"; "accrued_interest"]
                      ∧ Forall (λ kv : string * value, nullish kv.2 = false) fields)
         acc →
  transform_currencies entries acc = Some out →
  Forall (λ kb : string * value,
            ∃ fields, kb.2 = VObj fields
                      ∧ fields.*1 = ["cash"; "settled_cash"; "accrued_interest"]
                      ∧ Forall (λ kv : string * value, nullish kv.2 = false) fields)
         out.
Proof.
  revert acc. induction entries as [|[currency balance] rest IH]; intros acc Hacc;
    simpl.
  - intros [= <-]. exact Hacc.
  - destruct (currency_balance balance) as [b|] eqn:Hb; simpl; [| discriminate].
    apply IH.
    destruct (String.eqb currency "__proto__"); [exact Hacc |].
    assert (Hfilled : ∃ fields, b = VObj fields
                                ∧ fields.*1 = ["cash"; "settled_cash";
                                               "accrued_interest"]
                                ∧ Forall (λ kv : string * value,
                                            nullish kv.2 = false) fields).
    { unfold currency_balance in Hb.
      destruct (get balance "cash"); simpl in Hb; [| discriminate].
      destruct (get balance "settled_cash"); simpl in Hb; [| discriminate].
      destruct (get balance "settled"); simpl in Hb; [| discriminate].
      destruct (get balance "accrued_interest"); simpl in Hb; [| discriminate].
      injection Hb as <-. eexists. split; [reflexivity |].
      split; [reflexivity |].
      repeat (apply Forall_cons; split; [apply or_else_filled; reflexivity |]).
      apply Forall_nil_2. }
    clear Hb. induction Hacc as [|[k x] acc' Hx Hacc' IHacc]; simpl.
    + apply Forall_singleton. exact Hfilled.
    + destruct (String.eqb currency k).
      * apply Forall_cons. split; [exact Hfilled | exact Hacc'].
      * apply Forall_cons. split; [exact Hx | exact IHacc].
Qed.

(** The loop keeps one balance for each currency of the payload, but
    for the name [__proto__]. *)
Lemma transform_currencies_keys (entries acc out : list (string * value))
    (c : string) :
  transform_currencies entries acc = Some out →
  is_some (assoc c out)
  = is_some (assoc c acc)
    || (negb (String.eqb c "__proto__") && is_some (assoc c entries)).
Proof.
  revert acc. induction entries as [|[currency balance] rest IH]; intros acc;
    simpl.
  - intros [= <-]. rewrite andb_false_r, orb_false_r. reflexivity.
  - destruct (currency_balance balance) as [b|]; simpl; [| discriminate].
    intros Hout. rewrite (IH _ Hout).
    destruct (String.eqb_spec currency "__proto__") as [-> | Hproto].
    + destruct (String.eqb_spec c "__proto__"); simpl; reflexivity.
    + rewrite assoc_obj_set.
      destruct (String.eqb_spec c currency) as [-> | Hc]; simpl.
      * destruct (String.eqb_spec currency "__proto__"); [contradiction |].
        simpl. rewrite orb_true_r. reflexivity.
      * reflexivity.
Qed.

(** X28.  The three reducers that reshape their payload (account
    currencies, capital allocation, control status) write every
    property of their slice, each filled: whatever the payload leaves
    out, the slice has exactly its listed properties and none of them is
    [null] or [undefined].  The currencies slice holds one balance for
    each currency of the payload, but for the name [__proto__], and
    every balance has exactly its three amounts, each filled. *)
Theorem normalising_reducers_fill_defaults (h : handler) (f : string)
    (keys : list string) (state : TradingState) (payload : value)
    (u : TradingState) :
  (h, f, keys) ∈
    [ (account_currencies, "currencies", ["currencies"; "base_currency"]);
      (capital_allocation, "capital",
       ["stock_budget"; "stock_used"; "stock_available"; "forex_budget";
        "forex_used"; "forex_available"; "reserve"; "session"; "stock_enabled";
        "forex_enabled"]);
      (control_status, "marketControl",
       ["stock_enabled"; "forex_enabled"; "stock_reason"; "forex_reason"]) ] →
  h state payload = Some u →
  ∃ props : list (string * value),
    u = {[ f := VObj props ]}
    ∧ props.*1 = keys
    ∧ Forall (λ kv : string * value, nullish kv.2 = false) props
    ∧ (f = "currencies" →
       ∃ balances : list (string * value),
         assoc "currencies" props = Some (VObj balances)
         ∧ Forall (λ kb : string * value,
                     ∃ fields, kb.2 = VObj fields
                               ∧ fields.*1 = ["cash"; "settled_cash";
                                              "accrued_interest"]
                               ∧ Forall (λ kv : string * value,
                                           nullish kv.2 = false) fields)
                  balances
         ∧ ∀ c : string,
             is_some (assoc c balances)
             = negb (String.eqb c "__proto__")
               && is_some (assoc c (own_props (get_opt payload "currencies")))).
Proof.
  intros Hin Hu.
  apply elem_of_cons in Hin as [[= -> -> ->] | Hin];
    [| apply elem_of_cons in Hin as [[= -> -> ->] | Hin];
       [| apply list_elem_of_singleton in Hin; injection Hin as -> -> ->]].
  - unfold account_currencies in Hu.
    destruct (get payload "base_currency"); simpl in Hu; [| discriminate].
    destruct (get payload "primary_currency"); simpl in Hu; [| discriminate].
    destruct (get payload "currencies") as [c|] eqn:Hc; simpl in Hu;
      [| discriminate].
    destruct (if truthy c then transform_currencies (own_props c) [] else Some [])
      as [transformed|] eqn:Htransformed; simpl in Hu; [| discriminate].
    injection Hu as <-. eexists. split; [reflexivity |].
    split; [reflexivity |]. split.
    + apply Forall_cons. split; [reflexivity |].
      apply Forall_cons. split; [apply or_else_filled; reflexivity |].
      apply Forall_nil_2.
    + intros _. exists transformed. split; [reflexivity |].
      assert (Hread : get_opt payload "currencies" = c)
        by (unfold get_opt; rewrite Hc; reflexivity).
      rewrite Hread.
      destruct (truthy c) eqn:Htruthy.
      * split.
        -- eapply transform_currencies_filled;
             [apply Forall_nil_2 | exact Htransformed].
        -- intros k. rewrite (transform_currencies_keys _ _ _ k Htransformed).
           reflexivity.
      * injection Htransformed as <-. split; [apply Forall_nil_2 |].
        intros k. rewrite (own_props_falsy c Htruthy). simpl.
        rewrite andb_false_r. reflexivity.
  - unfold capital_allocation in Hu.
    destruct (get payload "stock"); simpl in Hu; [| discriminate].
    destruct (get payload "forex"); simpl in Hu; [| discriminate].
    destruct (get payload "reserve"); simpl in Hu; [| discriminate].
    destruct (get payload "session"); simpl in Hu; [| discriminate].
    injection Hu as <-. eexists. split; [reflexivity |].
    split; [reflexivity |]. split.
    + repeat (apply Forall_cons;
              split; [first [apply or_else_filled | apply coalesce_filled];
                      reflexivity |]).
      apply Forall_nil_2.
    + intros Hf. discriminate Hf.
  - unfold control_status in Hu.
    destruct (get payload "stock"); simpl in Hu; [| discriminate].
    destruct (get payload "forex"); simpl in Hu; [| discriminate].
    destruct (get payload "stock_enabled"); simpl in Hu; [| discriminate].
    destruct (get payload "forex_enabled"); simpl in Hu; [| discriminate].
    destruct (get payload "stock_reason"); simpl in Hu; [| discriminate].
    destruct (get payload "forex_reason"); simpl in Hu; [| discriminate].
    injection Hu as <-. eexists. split; [reflexivity |].
    split; [reflexivity |]. split.
    + repeat (apply Forall_cons;
              split; [first [apply or_else_filled | apply coalesce_filled];
                      reflexivity |]).
      apply Forall_nil_2.
    + intros Hf. discriminate Hf.
Qed.

End Normalising.

(** ** Further properties on the sample host *)

Lemma staleCheck_writes_once_witness :
  trading_common.staleCheck samples.getTime trading_ts.STALE_THRESHOLD_MS
    (samples.ten_past + 30000)
    (trading_common.staleCheck samples.getTime trading_ts.STALE_THRESHOLD_MS
       samples.ten_past samples.engine_seen)
  = trading_common.staleCheck samples.getTime trading_ts.STALE_THRESHOLD_MS
      samples.ten_past samples.engine_seen.
Proof.
  apply (staleCheck_writes_once samples.getTime trading_ts.STALE_THRESHOLD_MS
           samples.ten_past (samples.ten_past + 30000) samples.engine_seen).
  - vm_compute. reflexivity.
  - vm_compute. reflexivity.
  - unfold samples.ten_past. lia.
Defined.

Lemma stale_engine_in_servicesHealth_witness :
  let health :=
    trading_common.servicesHealth
      (trading_common.staleCheck samples.getTime trading_ts.STALE_THRESHOLD_MS
         samples.ten_past samples.engine_seen) in
  if truthy (trading_common.field samples.engine_seen "engine")
  then In ("Trading Engine", VStr "DOWN") (trading_common.services health)
       ∧ (1 <= trading_common.down health)%nat
  else In ("Trading Engine", VUndefined) (trading_common.services health)
       ∧ (1 <= trading_common.unknown health)%nat.
Proof.
  apply (stale_engine_in_servicesHealth samples.getTime
           trading_ts.STALE_THRESHOLD_MS samples.ten_past samples.engine_seen).
  - vm_compute. reflexivity.
  - vm_compute. reflexivity.
Defined.

Lemma feed_keeps_device_keys_witness :
  (devices_store.devices samples.lamp_fed_off).*1
  = (devices_store.devices samples.lamp_switched_on).*1
  ∧ devices_store.well_keyed (devices_store.devices samples.lamp_fed_off).
Proof.
  apply (feed_keeps_device_keys samples.lamp_switched_on samples.lamp_fed_off).
  - vm_compute. apply Forall_cons. split; [| apply Forall_nil_2].
    split; [exists 1; reflexivity | reflexivity].
  - left. exists (VStr "lamp-1"), (VStr "switch"), (VStr "off").
    apply (eq_Some_default samples.lamp_switched_on). vm_compute. reflexivity.
Defined.

Lemma load_lists_response_witness :
  let loaded :=
    devices_store.load_resolved [samples.lamp; samples.dimmer]
      (VStr "2025-03-01T12:00:00Z")
      (devices_store.load_begin devices_store.created) in
  devices_store.devicesList loaded = [samples.lamp; samples.dimmer]
  ∧ (devices_store.devices loaded).*1 = VNum <$> [1; 2]
  ∧ devices_store.well_keyed (devices_store.devices loaded)
  ∧ devices_store.loading loaded = false
  ∧ devices_store.error loaded = VNull
  ∧ devices_store.lastUpdated loaded = VStr "2025-03-01T12:00:00Z".
Proof.
  apply (load_lists_response [samples.lamp; samples.dimmer] [1; 2]
           (VStr "2025-03-01T12:00:00Z") devices_store.created).
  - constructor; [reflexivity |].
    constructor; [reflexivity | constructor].
  - apply NoDup_cons. split; [| apply NoDup_singleton].
    intros Hin. apply list_elem_of_singleton in Hin. discriminate Hin.
Defined.

Lemma card_after_optimistic_write_witness :
  device_card.isOn
    (devices_store.map_get (VNum 2)
       (devices_store.devices
          (devices_store.setDeviceLevel (VNum 2) 0 samples.home_loaded)))
  = (0 <? 0)%Z
  ∧ device_card.level
      (devices_store.map_get (VNum 2)
         (devices_store.devices
            (devices_store.setDeviceLevel (VNum 2) 0 samples.home_loaded)))
    = VNum 0
  ∧ device_card.isOn
      (devices_store.map_get (VNum 2)
         (devices_store.devices
            (devices_store.setDeviceSwitch (VNum 2) "off" samples.home_loaded)))
    = String.eqb "off" "on"
      || device_card.level_positive
           (devices_store.map_get (VNum 2)
              (devices_store.devices samples.home_loaded))
  ∧ device_card.level
      (devices_store.map_get (VNum 2)
         (devices_store.devices
            (devices_store.setDeviceSwitch (VNum 2) "off" samples.home_loaded)))
    = device_card.level
        (devices_store.map_get (VNum 2)
           (devices_store.devices samples.home_loaded)).
Proof.
  apply (card_after_optimistic_write samples.home_loaded (VNum 2) "off" 0).
  vm_compute. reflexivity.
Defined.

Lemma devicesByRoom_partitions_witness :
  concat samples.home_rooms.*2 ≡ₚ devices_store.devicesList samples.home_loaded
  ∧ Forall (λ g : value * list value,
              g.2 ≠ [] ∧ Forall (λ d, devices_store.room_of d = g.1) g.2)
           samples.home_rooms.
Proof.
  apply (devicesByRoom_partitions samples.home_loaded samples.home_rooms).
  apply (eq_Some_default []). vm_compute. reflexivity.
Defined.

Lemma devicesByRoom_defined_witness :
  ∃ groups,
    devices_store.devicesByRoom samples.home_loaded = Some groups
    ∧ (length groups <= length (devices_store.devicesList samples.home_loaded))%nat.
Proof.
  apply (devicesByRoom_defined samples.home_loaded).
  vm_compute. apply Forall_cons. split; [reflexivity |].
  apply Forall_cons. split; [reflexivity | apply Forall_nil_2].
Defined.

Lemma device_frame_ignored_witness :
  websocket_ts.handleMessage samples.pong_frame samples.home_loaded
  = Some samples.home_loaded.
Proof.
  apply (device_frame_ignored samples.pong_frame samples.home_loaded).
  left. exists (VStr "pong").
  split; [reflexivity |]. split; reflexivity.
Defined.

Lemma one_stale_check_interval_witness :
  trading_ts.pending_staleChecks samples.trading_open
  = option_list (trading_ts.staleCheckTimer samples.trading_open)
  ∧ (length (trading_ts.pending_staleChecks samples.trading_open) <= 1)%nat
  ∧ (∀ t, t ∈ host.timers (trading_ts.host samples.trading_open) →
          host.timer_cb t = trading_ts.staleCheck_cb →
          host.timer_repeats t = true
          ∧ trading_ts.staleCheckTimer samples.trading_open
            = Some (host.timer_id t)).
Proof.
  apply (one_stale_check_interval samples.getTime samples.toISOString
           samples.parse samples.trading_open).
  exists samples.noon, false,
    [ (samples.noon, host.call_connect); (samples.noon + 10, host.ev_open 0) ].
  apply (eq_Some_default (trading_ts.created samples.noon false)).
  vm_compute. reflexivity.
Defined.

Lemma connected_needs_unclosed_socket_witness :
  ∃ s : nat, host.unclosed (trading_ts.host samples.trading_closing) s.
Proof.
  apply (connected_needs_unclosed_socket samples.getTime samples.toISOString
           samples.parse samples.trading_closing).
  - exists samples.noon, false,
      [ (samples.noon, host.call_connect); (samples.noon + 10, host.ev_open 0);
        (samples.noon + 500, host.ev_closing 0) ].
    apply (eq_Some_default (trading_ts.created samples.noon false)).
    vm_compute. reflexivity.
  - vm_compute. reflexivity.
Defined.

Lemma disconnect_cancels_all_timers_witness :
  host.timers (trading_ts.host (trading_ts.disconnect samples.trading_open)) = []
  ∧ trading_ts.store (trading_ts.disconnect samples.trading_open)
    = trading_ts.initialState
  ∧ trading_ts.ws (trading_ts.disconnect samples.trading_open) = None
  ∧ trading_ts.reconnectTimer (trading_ts.disconnect samples.trading_open) = None
  ∧ trading_ts.staleCheckTimer (trading_ts.disconnect samples.trading_open) = None
  ∧ trading_ts.disconnect (trading_ts.disconnect samples.trading_open)
    = trading_ts.disconnect samples.trading_open.
Proof.
  apply (disconnect_cancels_all_timers samples.getTime samples.toISOString
           samples.parse samples.trading_open).
  exists samples.noon, false,
    [ (samples.noon, host.call_connect); (samples.noon + 10, host.ev_open 0) ].
  apply (eq_Some_default (trading_ts.created samples.noon false)).
  vm_compute. reflexivity.
Defined.

Lemma merge_by_date_upserts_witness :
  samples.days_merged
  = VArr (if existsb (λ x, strict_equals (get_opt x "date") (VStr "2025-03-01"))
               [samples.day_one]
          then List.map (λ x, if strict_equals (get_opt x "date") (VStr "2025-03-01")
                              then samples.day_two else x) [samples.day_one]
          else samples.day_two :: [samples.day_one])
  ∧ trading_next.merge_by_date samples.day_two samples.days_merged
    = Some samples.days_merged.
Proof.
  apply (merge_by_date_upserts samples.day_two (VStr "2025-03-01")
           [samples.day_one] samples.days_merged).
  - split; [reflexivity |].
    exists (VStr "2025-03-01"). split; reflexivity.
  - reflexivity.
  - apply (eq_Some_default VNull). vm_compute. reflexivity.
Defined.

Lemma next_replay_is_idempotent_witness :
  trading_next.onmessage samples.toISOString samples.parse_history
    (samples.ten_past + 2000) (samples.stringify samples.history_frame)
    (trading_next.onmessage samples.toISOString samples.parse_history
       (samples.ten_past + 1000) (samples.stringify samples.history_frame)
       samples.history_loaded)
  = trading_next.onmessage samples.toISOString samples.parse_history
      (samples.ten_past + 1000) (samples.stringify samples.history_frame)
      samples.history_loaded.
Proof.
  apply (next_replay_is_idempotent samples.toISOString samples.parse_history
           (samples.ten_past + 1000) (samples.ten_past + 2000)
           (samples.stringify samples.history_frame) samples.history_frame
           (VStr "trader/history/update") samples.history_payload
           trading_next.history_update samples.history_loaded).
  - vm_compute. reflexivity.
  - repeat split; reflexivity.
  - reflexivity.
  - vm_compute. reflexivity.
  - intros _. split; (split; [reflexivity |]);
      exists (VStr "2025-03-01"); split; reflexivity.
Defined.

Lemma device_connected_needs_unclosed_socket_witness :
  ∃ s : nat, host.unclosed (websocket_ts.host samples.device_closing) s.
Proof.
  apply (device_connected_needs_unclosed_socket samples.parse
           samples.device_closing).
  - exists samples.noon, false, samples.lamp_loaded,
      [ (samples.noon, host.call_connect); (samples.noon + 10, host.ev_open 0);
        (samples.noon + 500, host.ev_closing 0) ].
    apply (eq_Some_default (websocket_ts.created samples.noon false
                              samples.lamp_loaded)).
    vm_compute. reflexivity.
  - vm_compute. reflexivity.
Defined.

Lemma toggle_flips_card_witness :
  device_card.isOn
    (devices_store.map_get (get_opt samples.dimmer "id")
       (devices_store.devices
          (device_card.store
             (device_card.handleToggle_settle samples.dimmer "off"
                (device_card.resolved VNull) samples.dimmer_card_busy))))
  = if device_card.isOn samples.dimmer
    then device_card.level_positive samples.dimmer else true.
Proof.
  apply (toggle_flips_card samples.dimmer samples.dimmer_card
           samples.dimmer_card_busy (device_card.turnOff (VNum 2)) "off" VNull).
  - vm_compute. reflexivity.
  - reflexivity.
  - reflexivity.
Defined.

Lemma updateDevice_replaces_by_id_witness :
  ∃ state' : devices_store.DeviceState,
    devices_store.updateDevice samples.dimmer samples.lamp_loaded = Some state'
    ∧ devices_store.map_get (VNum 2) (devices_store.devices state') = samples.dimmer
    ∧ (∀ k : value, k ≠ VNum 2 →
         devices_store.map_get k (devices_store.devices state')
         = devices_store.map_get k (devices_store.devices samples.lamp_loaded))
    ∧ (devices_store.well_keyed (devices_store.devices samples.lamp_loaded) →
       devices_store.well_keyed (devices_store.devices state'))
    ∧ devices_store.loading state' = devices_store.loading samples.lamp_loaded
    ∧ devices_store.error state' = devices_store.error samples.lamp_loaded.
Proof.
  apply (updateDevice_replaces_by_id samples.dimmer 2 samples.lamp_loaded).
  reflexivity.
Defined.

Lemma load_with_null_entry_fails_witness :
  let loaded :=
    devices_store.load_resolved [samples.dimmer; VNull]
      (VStr "2025-03-01T12:10:00Z")
      (devices_store.load_begin samples.lamp_loaded) in
  devices_store.devices loaded = devices_store.devices samples.lamp_loaded
  ∧ devices_store.loading loaded = false
  ∧ devices_store.error loaded = VStr "Failed to load devices"
  ∧ devices_store.lastUpdated loaded = devices_store.lastUpdated samples.lamp_loaded.
Proof.
  apply (load_with_null_entry_fails [samples.dimmer; VNull]
           (VStr "2025-03-01T12:10:00Z") samples.lamp_loaded).
  exists VNull. split; [| reflexivity].
  apply list_elem_of_further, list_elem_of_here.
Defined.

Lemma handleMessage_keeps_error_witness :
  samples.heartbeat_back !! "error" = samples.gone_stale !! "error".
Proof.
  apply (handleMessage_keeps_error samples.toISOString (samples.ten_past + 1000)
           samples.heartbeat_frame samples.gone_stale samples.heartbeat_back).
  apply eq_Some_default. vm_compute. reflexivity.
Defined.

Lemma updateDeviceState_writes_bag_only_witness :
  ∃ tid updated : value,
    get (devices_store.map_get (VNum 1)
           (devices_store.devices samples.lamp_switched_on)) "id" = Some tid
    ∧ devices_store.devices samples.lamp_fed_off
      = devices_store.map_set tid updated
          (devices_store.devices samples.lamp_switched_on)
    ∧ get_opt (get_opt updated "state") (to_string (VStr "switch")) = VStr "off"
    ∧ (∀ a, a ≠ to_string (VStr "switch") →
         assoc a (own_props (get_opt updated "state"))
         = assoc a (own_props
                      (get_opt (devices_store.map_get (VNum 1)
                                  (devices_store.devices samples.lamp_switched_on))
                         "state")))
    ∧ (∀ k, k ≠ "state" →
         assoc k (own_props updated)
         = assoc k (own_props
                      (devices_store.map_get (VNum 1)
                         (devices_store.devices samples.lamp_switched_on))))
    ∧ devices_store.loading samples.lamp_fed_off
      = devices_store.loading samples.lamp_switched_on
    ∧ devices_store.error samples.lamp_fed_off
      = devices_store.error samples.lamp_switched_on
    ∧ devices_store.lastUpdated samples.lamp_fed_off
      = devices_store.lastUpdated samples.lamp_switched_on.
Proof.
  apply (updateDeviceState_writes_bag_only (VStr "lamp-1") (VStr "switch")
           (VStr "off") samples.lamp_switched_on samples.lamp_fed_off (VNum 1)
           (devices_store.map_get (VNum 1)
              (devices_store.devices samples.lamp_switched_on))).
  - vm_compute. reflexivity.
  - vm_compute. reflexivity.
  - apply (eq_Some_default samples.lamp_switched_on). vm_compute. reflexivity.
Defined.

Lemma next_handleMessage_merges_witness :
  ∃ state' : trading_common.TradingState,
    trading_next.handleMessage samples.toISOString (samples.ten_past + 1000)
      samples.heartbeat_frame samples.gone_stale = Some state'
    ∧ state' !! "error" = Some VNull
    ∧ state' !! "lastUpdate"
      = Some (trading_next.messageTime samples.toISOString
                (samples.ten_past + 1000) samples.heartbeat_frame
                samples.heartbeat_ok)
    ∧ (∀ k, k ≠ "error" → k ≠ "lastUpdate" →
         state' !! k
         = match ({[ "heartbeat" := samples.heartbeat_ok ]}
                    : trading_common.TradingState) !! k with
           | Some v => Some v
           | None => samples.gone_stale !! k
           end).
Proof.
  apply (next_handleMessage_merges samples.toISOString (samples.ten_past + 1000)
           samples.heartbeat_frame (VStr "trader/services/heartbeat")
           samples.heartbeat_ok (trading_common.slice "heartbeat")
           {[ "heartbeat" := samples.heartbeat_ok ]} samples.gone_stale).
  - repeat split; reflexivity.
  - reflexivity.
  - reflexivity.
Defined.

Lemma initial_state_merges_bag_witness :
  (∀ (a : string) (v : value),
     assoc a (own_props samples.lamp_attributes) = Some v →
     get_opt (get_opt (devices_store.map_get (VNum 1) samples.lamp_merged) "state") a
     = v)
  ∧ (∀ a : string,
       assoc a (own_props samples.lamp_attributes) = None →
       get_opt (get_opt (devices_store.map_get (VNum 1) samples.lamp_merged)
                  "state") a
       = default VUndefined
           (assoc a (own_props (get_opt samples.lamp "state"))))
  ∧ (∀ k : string,
       k ≠ "state" →
       assoc k (own_props (devices_store.map_get (VNum 1) samples.lamp_merged))
       = assoc k (own_props samples.lamp))
  ∧ samples.lamp_merged.*1 = (devices_store.devices samples.lamp_loaded).*1.
Proof.
  apply (initial_state_merges_bag "lamp-1" samples.lamp_attributes
           (devices_store.devices samples.lamp_loaded) samples.lamp_merged 1
           samples.lamp).
  - vm_compute. reflexivity.
  - vm_compute. apply NoDup_cons. split; [| apply NoDup_singleton].
    intros Hin. apply list_elem_of_singleton in Hin. discriminate Hin.
  - apply (eq_Some_default []). vm_compute. reflexivity.
Defined.

Lemma normalising_reducers_fill_defaults_witness :
  ∃ props : list (string * value),
    samples.currencies_update = {[ "currencies" := VObj props ]}
    ∧ props.*1 = ["currencies"; "base_currency"]
    ∧ Forall (λ kv : string * value, nullish kv.2 = false) props
    ∧ ("currencies" = "currencies" →
       ∃ balances : list (string * value),
         assoc "currencies" props = Some (VObj balances)
         ∧ Forall (λ kb : string * value,
                     ∃ fields, kb.2 = VObj fields
                               ∧ fields.*1 = ["cash"; "settled_cash";
                                              "accrued_interest"]
                               ∧ Forall (λ kv : string * value,
                                           nullish kv.2 = false) fields)
                  balances
         ∧ ∀ c : string,
             is_some (assoc c balances)
             = negb (String.eqb c "__proto__")
               && is_some (assoc c (own_props
                                      (get_opt samples.currencies_payload
                                         "currencies")))).
Proof.
  apply (normalising_reducers_fill_defaults trading_common.account_currencies
           "currencies" ["currencies"; "base_currency"] trading_ts.initialState
           samples.currencies_payload samples.currencies_update).
  - apply list_elem_of_here.
  - apply (eq_Some_default ∅). vm_compute. reflexivity.
Defined.
